(** * The motion-and-compositing engine of the avatar video generator

    A shallow embedding of [src/app/ai.py] ([composite_video] and its nested
    [get_path_position]) and of the request validation of
    [src/app/main.py] ([generate_video]).

    Numbers.  Python's [float] values are modelled by exact rationals [Q]
    and Python's [int] values by [Z]; rounding of the binary floating-point
    format is not modelled there.  Where rounding decides a statement, the
    code is given a second time with every operation rounded to the nearest
    number of the binary64 format ([Rounded], [Utils]), and the path sampler a
    third time on the machine's own 64-bit floats ([Binary64]), on which
    examples are computed.  The functions of Python's [math] module and the
    generator [random.Random] live outside the repository: they are taken as
    interfaces ([MathLib], [RandomSource]). *)

From Stdlib Require Import ZArith QArith Qround Qabs Qpower List String Ascii Bool.
From Stdlib Require Import Lia Lqa Psatz.
From Stdlib Require Import Sorted Permutation DecimalString DecimalNat.
From Stdlib Require PrimFloat FloatOps SpecFloat Uint63.
Import ListNotations.
Set Warnings "-inexact-float".

Local Open Scope Q_scope.

(** ** Python values and exceptions *)

Module Py.

(** The exceptions the modelled code can raise. *)
Inductive exn : Type :=
| IndexError
| HTTPException (status_code : Z) (detail : string)
| FfmpegError.

(** The outcome of running a piece of Python code. *)
Inductive result (A : Type) : Type :=
| Ok (a : A)
| Raise (e : exn).
Arguments Ok {A} a.
Arguments Raise {A} e.

Definition bind {A B} (r : result A) (k : A -> result B) : result B :=
  match r with
  | Ok a => k a
  | Raise e => Raise e
  end.

Definition is_ok {A} (r : result A) : bool :=
  match r with Ok _ => true | Raise _ => false end.

(** [int(x)] on a float: truncation toward zero. *)
Definition int (q : Q) : Z := Z.quot (Qnum q) (Zpos (Qden q)).

(** [x % 1.0] on a float: the result has the sign of the divisor. *)
Definition mod1 (q : Q) : Q := q - inject_Z (Qfloor q).

(** [a // b] on ints is [Z.div] (floor division); [a % b] is [Z.modulo]. *)

(** [l[i]]: a negative index counts from the end, an index out of range
    raises [IndexError]. *)
Definition index {A} (l : list A) (i : Z) : result A :=
  let n := Z.of_nat (List.length l) in
  let j := if (i <? 0)%Z then (i + n)%Z else i in
  if (j <? 0)%Z then Raise IndexError
  else match nth_error l (Z.to_nat j) with
       | Some a => Ok a
       | None => Raise IndexError
       end.

(** Comparisons of floats as booleans. *)
Definition ltb (a b : Q) : bool := (Qnum a * QDen b <? Qnum b * QDen a)%Z.
Definition gtb (a b : Q) : bool := ltb b a.

(** [min] and [max] of two numbers, as Python computes them: the first
    argument is kept unless the second is strictly smaller (larger). *)
Definition min (a b : Q) : Q := if ltb b a then b else a.
Definition max (a b : Q) : Q := if ltb a b then b else a.

End Py.

Notation "x <- c1 ;;; c2" := (Py.bind c1 (fun x => c2))
  (at level 61, c1 at next level, right associativity).

(** ** Path sampling ([get_path_position], ai.py 396-426) *)

Abbreviation point := (Q * Q)%type.

(** The cubic ease-in-out written out at ai.py 417-420 (and again at
    460-463). *)
Definition ease_in_out (s : Q) : Q :=
  if Py.ltb s 0.5 then 4 * s ^ 3 else 1 - (-2 * s + 2) ^ 3 / 2.

(** The index of the segment and the fraction inside it, before easing. *)
Definition segment_of (points : list point) (t : Q) : Z * Q :=
  let t_looped := t - inject_Z (Py.int t) in
  let num_segments := (Z.of_nat (List.length points) - 1)%Z in
  let segment_idx :=
    Z.min (Py.int (t_looped * inject_Z num_segments)) (num_segments - 1) in
  let segment_t := (t_looped * inject_Z num_segments) - inject_Z segment_idx in
  (segment_idx, segment_t).

Definition get_path_position (points : list point) (t : Q) : Py.result point :=
  match points with
  | [] => Py.Ok (0, 0)
  | _ =>
    let '(segment_idx, segment_t) := segment_of points t in
    p1 <- Py.index points segment_idx ;;;
    p2 <- Py.index points (segment_idx + 1) ;;;
    let segment_t := ease_in_out segment_t in
    let x := fst p1 + (fst p2 - fst p1) * segment_t in
    let y := snd p1 + (snd p2 - snd p1) * segment_t in
    Py.Ok (x, y)
  end.

(** ** Numbers of the binary64 format

    A Python [float] is a number [m * 2 ^ e] with [|m| < 2 ^ 53], and every
    operation on floats returns the float nearest to its exact result, the
    one with the even [m] of two that are as near.  [nearest_binary64] is
    this rounding on the rationals.  The range of the exponent [e] is not
    modelled: nothing overflows to an infinity and nothing is rounded harder
    because it is below [2 ^ -1022]. *)

(** [floor(log2(x))] for a positive rational [x]. *)
Definition ilog2 (x : Q) : Z :=
  let e0 := (Z.log2 (Qnum x) - Z.log2 (Zpos (Qden x)))%Z in
  if Qle_bool (2 ^ e0) x then e0 else (e0 - 1)%Z.

(** The integer nearest to [y], the even one of two that are as near. *)
Definition round_half_even (y : Q) : Z :=
  let f := Qfloor y in
  match Qcompare (y - inject_Z f) (1 # 2) with
  | Lt => f
  | Gt => (f + 1)%Z
  | Eq => if Z.even f then f else (f + 1)%Z
  end.

(** [x] rounded to 53 significant bits. *)
Definition nearest_binary64 (x : Q) : Q :=
  match Qnum x with
  | Z0 => 0
  | Zpos _ =>
    let k := (52 - ilog2 x)%Z in
    inject_Z (round_half_even (x * 2 ^ k)) * 2 ^ (- k)
  | Zneg _ =>
    let k := (52 - ilog2 (- x))%Z in
    - (inject_Z (round_half_even (- x * 2 ^ k)) * 2 ^ (- k))
  end.

(** [fl x]: the float that an operation with the exact result [x] returns,
    and the float that the literal [x] stands for. *)
Definition fl : Q -> Q := nearest_binary64.

(** Half the distance between 1 and the next float. *)
Definition ulp_unit : Q := 1 # 2 ^ 53.

(** ** The path sampler on binary64 floats

    The same function, line for line, on the numbers Python computes with:
    every operation is the correctly rounded one of the 64-bit binary format.
    [x ** 3] is the C library's [pow(x, 3.0)], taken as the correctly rounded
    cube. *)

Module Binary64.

Import PrimFloat.
#[local] Set Warnings "-inexact-float".

Inductive exn : Type :=
| IndexError
| OverflowError
| ValueError.

Inductive result (A : Type) : Type :=
| Returns (a : A)
| Raises (e : exn).
Arguments Returns {A} a.
Arguments Raises {A} e.

Definition bind {A B} (r : result A) (k : A -> result B) : result B :=
  match r with
  | Returns a => k a
  | Raises e => Raises e
  end.

Notation "x <-- c1 ;; c2" := (bind c1 (fun x => c2))
  (at level 61, c1 at next level, right associativity).

(** [float(z)] for an int below [2 ** 53] in size, where it is exact. *)
Definition of_int (z : Z) : float :=
  if (z <? 0)%Z then opp (of_uint63 (Uint63.of_Z (- z)))
  else of_uint63 (Uint63.of_Z z).

(** [int(x)]: truncation toward zero; an infinity or a NaN raises. *)
Definition int (x : float) : result Z :=
  match FloatOps.Prim2SF x with
  | SpecFloat.S754_zero _ => Returns 0%Z
  | SpecFloat.S754_finite s m e =>
    let v := if (0 <=? e)%Z then (Z.pos m * 2 ^ e)%Z
             else (Z.pos m / 2 ^ (- e))%Z in
    Returns (if s then (- v)%Z else v)
  | SpecFloat.S754_infinity _ => Raises OverflowError
  | SpecFloat.S754_nan => Raises ValueError
  end.

(** [x ** 3] *)
Definition cube (x : float) : float :=
  match FloatOps.Prim2SF x with
  | SpecFloat.S754_finite s m e =>
    FloatOps.SF2Prim
      (SpecFloat.binary_normalize
         FloatOps.prec FloatOps.emax
         (if s then Z.neg (m * m * m) else Z.pos (m * m * m)) (3 * e) false)
  | _ => mul (mul x x) x
  end.

(** [l[i]] *)
Definition index {A} (l : list A) (i : Z) : result A :=
  let n := Z.of_nat (List.length l) in
  let j := if (i <? 0)%Z then (i + n)%Z else i in
  if (j <? 0)%Z then Raises IndexError
  else match nth_error l (Z.to_nat j) with
       | Some a => Returns a
       | None => Raises IndexError
       end.

Definition ease_in_out (s : float) : float :=
  if ltb s 0.5%float then mul 4%float (cube s)
  else sub 1%float (div (cube (add (mul (-2)%float s) 2%float)) 2%float).

Definition get_path_position (points : list (float * float)) (t : float)
  : result (float * float) :=
  match points with
  | [] => Returns (0%float, 0%float)
  | _ =>
    whole <-- int t ;;
    let t_looped := sub t (of_int whole) in
    let num_segments := (Z.of_nat (List.length points) - 1)%Z in
    scaled <-- int (mul t_looped (of_int num_segments)) ;;
    let segment_idx := Z.min scaled (num_segments - 1) in
    let segment_t :=
      sub (mul t_looped (of_int num_segments)) (of_int segment_idx) in
    p1 <-- index points segment_idx ;;
    p2 <-- index points (segment_idx + 1) ;;
    let segment_t := ease_in_out segment_t in
    let x := add (fst p1) (mul (sub (fst p2) (fst p1)) segment_t) in
    let y := add (snd p1) (mul (sub (snd p2) (snd p1)) segment_t) in
    Returns (x, y)
  end.

(** The rational a finite float is. *)
Definition to_Q (x : float) : option Q :=
  match FloatOps.Prim2SF x with
  | SpecFloat.S754_zero _ => Some 0%Q
  | SpecFloat.S754_finite s m e =>
    Some (inject_Z (if s then Z.neg m else Z.pos m) * 2 ^ e)%Q
  | _ => None
  end.

Definition same_number (x : float) (q : Q) : bool :=
  match to_Q x with
  | Some r => Qeq_bool r q
  | None => false
  end.

End Binary64.

(** ** The path sampler with every operation rounded

    The same function once more, on rationals that stand for floats: every
    arithmetic operation returns the float nearest to its exact result.
    [float(n)] of an int below [2 ^ 53] in size is exact, comparisons are
    exact, and [x ** 3] is taken as the correctly rounded cube. *)

Module Rounded.

Definition ease_in_out (s : Q) : Q :=
  if Py.ltb s 0.5 then fl (4 * fl (s ^ 3))
  else fl (1 - fl (fl (fl (fl (-2 * s) + 2) ^ 3) / 2)).

Definition segment_of (points : list point) (t : Q) : Z * Q :=
  let t_looped := fl (t - inject_Z (Py.int t)) in
  let num_segments := (Z.of_nat (List.length points) - 1)%Z in
  let scaled := fl (t_looped * inject_Z num_segments) in
  let segment_idx := Z.min (Py.int scaled) (num_segments - 1) in
  let segment_t := fl (scaled - inject_Z segment_idx) in
  (segment_idx, segment_t).

(** The linear interpolation of ai.py 423-424. *)
Definition interpolate (p1 p2 : point) (s : Q) : point :=
  (fl (fst p1 + fl (fl (fst p2 - fst p1) * s)),
   fl (snd p1 + fl (fl (snd p2 - snd p1) * s))).

Definition get_path_position (points : list point) (t : Q) : Py.result point :=
  match points with
  | [] => Py.Ok (0, 0)
  | _ =>
    let '(segment_idx, segment_t) := segment_of points t in
    p1 <- Py.index points segment_idx ;;;
    p2 <- Py.index points (segment_idx + 1) ;;;
    Py.Ok (interpolate p1 p2 (ease_in_out segment_t))
  end.

End Rounded.

(** ** Interfaces to Python's standard library *)

(** The functions and the constant of Python's [math] module that
    [composite_video] calls. *)
Class MathLib : Type := {
  m_sin : Q -> Q;
  m_cos : Q -> Q;
  m_sqrt : Q -> Q;
  m_atan2 : Q -> Q -> Q;
  m_degrees : Q -> Q;
  m_pi : Q
}.

(** The generator [random.Random].  [seeded s] is [random.Random(s)] for an
    integer seed [s]; [random] is [rng.random()], a float in [[0, 1)];
    [randbelow n] is the generator's [_randbelow(n)], an int in [[0, n)], from
    which the library derives [randint], [randrange] and [choice]. *)
Class RandomSource : Type := {
  rng : Type;
  seeded : Z -> rng;
  random : rng -> Q * rng;
  randbelow : Z -> rng -> Z * rng;
  random_range : forall g, 0 <= fst (random g) /\ fst (random g) < 1;
  randbelow_range : forall n g, (0 < n)%Z -> (0 <= fst (randbelow n g) < n)%Z
}.

(** Code that draws from the generator and may raise. *)
Definition Rand `{RandomSource} (A : Type) : Type := rng -> Py.result (A * rng).

Section RandMonad.
Context `{RS : RandomSource}.

Definition ret {A} (a : A) : Rand A := fun g => Py.Ok (a, g).

Definition rbind {A B} (c : Rand A) (k : A -> Rand B) : Rand B :=
  fun g => match c g with
           | Py.Ok (a, g') => k a g'
           | Py.Raise e => Py.Raise e
           end.

Definition lift {A} (r : Py.result A) : Rand A :=
  fun g => match r with
           | Py.Ok a => Py.Ok (a, g)
           | Py.Raise e => Py.Raise e
           end.

(** [rng.random()] *)
Definition rng_random : Rand Q := fun g => Py.Ok (random g).

(** [rng.uniform(a, b)] is [a + (b - a) * self.random()]. *)
Definition rng_uniform (a b : Q) : Rand Q :=
  rbind rng_random (fun r => ret (a + (b - a) * r)).

(** [rng.randrange(n)] *)
Definition rng_randrange (n : Z) : Rand Z := fun g => Py.Ok (randbelow n g).

(** [rng.randint(a, b)] is [randrange(a, b + 1)]. *)
Definition rng_randint (a b : Z) : Rand Z :=
  rbind (rng_randrange (b + 1 - a)) (fun k => ret (a + k)%Z).

(** [rng.choice(seq)] is [seq[self._randbelow(len(seq))]]. *)
Definition rng_choice {A} (seq : list A) : Rand A :=
  rbind (rng_randrange (Z.of_nat (List.length seq)))
        (fun k => lift (Py.index seq k)).

(** [for p in range(start, start + n): s = body(p, s)] *)
Fixpoint for_range_from {S} (start n : nat) (body : nat -> S -> Rand S) (s : S)
  : Rand S :=
  match n with
  | O => ret s
  | Datatypes.S n' =>
    rbind (body start s) (fun s' => for_range_from (Datatypes.S start) n' body s')
  end.

Definition for_range {S} (n : nat) (body : nat -> S -> Rand S) (s : S) : Rand S :=
  for_range_from 0 n body s.
End RandMonad.

Notation "x <~ c1 ;; c2" := (rbind c1 (fun x => c2))
  (at level 61, c1 at next level, right associativity).
Notation "' pat <~ c1 ;; c2" := (rbind c1 (fun x => let pat := x in c2))
  (at level 61, pat pattern, c1 at next level, right associativity).

(** ** The data of a render job *)

(** A raster image: its size and its pixel data. *)
Record Image : Type := {
  size : Z * Z;
  pixels : list Z
}.

(** The per-character settings dict, one optional entry per recognised key. *)
Record CharSettings : Type := {
  s_scale : option Q;
  s_scale_variation : option Q;
  s_rotation : option Q;
  s_position_x : option Q;
  s_position_y : option Q;
  s_fixed_position : option bool;
  s_micro_movement : option Q;
  s_move_range : option Q;
  s_path_type : option string;
  s_path_speed : option Q;
  s_breathe_amount : option Q;
  s_breathe_speed : option Q;
  s_rotation_speed : option Q;
  s_tilt_factor : option Q
}.

(** The empty dict [{}]. *)
Definition no_settings : CharSettings :=
  {| s_scale := None; s_scale_variation := None; s_rotation := None;
     s_position_x := None; s_position_y := None; s_fixed_position := None;
     s_micro_movement := None; s_move_range := None; s_path_type := None;
     s_path_speed := None; s_breathe_amount := None; s_breathe_speed := None;
     s_rotation_speed := None; s_tilt_factor := None |}.

(** [d.get(key, default)] *)
Definition get {A} (entry : option A) (default : A) : A :=
  match entry with Some v => v | None => default end.

(** [character_settings]: a dict from the avatar's index to its settings. *)
Definition SettingsMap : Type := list (nat * CharSettings).

Fixpoint lookup (m : SettingsMap) (i : nat) : option CharSettings :=
  match m with
  | [] => None
  | (k, v) :: m' => if Nat.eqb k i then Some v else lookup m' i
  end.

(** The [motion_data] dict of one avatar (ai.py 377-388). *)
Record MotionData : Type := {
  scale_base : Q;
  scale_target : Q;
  angle_base : Q;
  control_points : list point;
  breathe_amount : Q;
  breathe_speed : Q;
  pulse_amount : Q;
  pulse_speed : Q;
  rotation_speed : Q;
  path_type : string
}.

(** [l[i] = v] *)
Definition setitem {A} (l : list A) (i : Z) (v : A) : Py.result (list A) :=
  let n := Z.of_nat (List.length l) in
  let j := if (i <? 0)%Z then (i + n)%Z else i in
  if ((j <? 0) || (n <=? j))%Z then Py.Raise Py.IndexError
  else Py.Ok (firstn (Z.to_nat j) l ++ v :: skipn (Datatypes.S (Z.to_nat j)) l).

(** The optional settings-enrichment collaborator ([smpl_avatar], imported
    at ai.py 16-20): whether the import succeeded, and the function it
    provides, which returns enriched settings or raises.  It is kept as an
    interface: what is proved below holds for every such function, or is
    stated for the case that the import failed. *)
Class Enhancer : Type := {
  SMPL_AVAILABLE : bool;
  enhance_character_animation :
    CharSettings -> Image -> string -> option Z -> Py.result CharSettings
}.

(** ** Path generation (ai.py 120-389) *)

Section PathGenerator.
Context `{ML : MathLib} `{RS : RandomSource}.
Variables width height : Z.

Definition margin : Q := 0.15 * inject_Z (Z.min width height).

(** [max(margin, min(width - margin, px))] and the same for [py]. *)
Definition clamp_x (px : Q) : Q :=
  Py.max margin (Py.min (inject_Z width - margin) px).
Definition clamp_y (py : Q) : Q :=
  Py.max margin (Py.min (inject_Z height - margin) py).

(** Fixed position: eight micro-movement points (ai.py 153-170). *)
Definition fixed_micro_path (cs : CharSettings) (base_x base_y : Q)
  : Rand (list point) :=
  let num_points := 8%nat in
  for_range num_points (fun p control_points =>
    let t_offset := inject_Z (Z.of_nat p) / inject_Z (Z.of_nat num_points) in
    r1 <~ rng_random ;;
    r2 <~ rng_random ;;
    let noise_x :=
      m_sin (t_offset * 6.28 + r1 * 10) * m_sin (t_offset * 9.42 + r2 * 10) in
    r3 <~ rng_random ;;
    r4 <~ rng_random ;;
    let noise_y :=
      m_sin (t_offset * 7.85 + r3 * 10) * m_sin (t_offset * 5.67 + r4 * 10) in
    let micro_move :=
      get (s_micro_movement cs) (inject_Z (Z.min width height) * 0.02) in
    let px := base_x + noise_x * micro_move in
    let py := base_y + noise_y * micro_move in
    ret (control_points ++ [(px, py)])) [].

(** One anchor of the circular path (ai.py 187-194): the angle it assigns
    and the clamped point. *)
Definition circle_anchor (base_x base_y move_range : Q) (num_points : Z)
           (p : nat) (r : Q) : Q * point :=
  let angle := inject_Z (Z.of_nat p) * 2 * m_pi / inject_Z num_points in
  let radius := move_range * (0.7 + r * 0.3) in
  let px := base_x + m_cos angle * radius in
  let py := base_y + m_sin angle * radius in
  (angle, (clamp_x px, clamp_y py)).

(** The loops below carry the local variable [angle] next to the list they
    build: the source rebinds it, and [motion_data] reads it afterwards. *)
Definition circle_anchors (base_x base_y move_range : Q) (num_points : Z)
           (angle : Q) : Rand (list point * Q) :=
  for_range (Z.to_nat num_points) (fun p '(anchor_points, _) =>
    r <~ rng_random ;;
    let '(angle, pt) := circle_anchor base_x base_y move_range num_points p r in
    ret (anchor_points ++ [pt], angle)) ([], angle).

(** Figure-8 path (ai.py 196-206). *)
Definition figure8_anchors (base_x base_y move_range : Q) (num_points : Z)
           (angle : Q) : Rand (list point * Q) :=
  for_range (Z.to_nat num_points) (fun p '(anchor_points, _) =>
    let angle := inject_Z (Z.of_nat p) * 2 * m_pi / inject_Z num_points in
    r <~ rng_random ;;
    let radius := move_range * (0.7 + r * 0.3) in
    let px := base_x + m_sin (angle * 2) * radius * 0.5 in
    let py := base_y + m_sin angle * radius in
    ret (anchor_points ++ [(clamp_x px, clamp_y py)], angle)) ([], angle).

(** Horizontal wave (ai.py 208-220); it draws nothing. *)
Definition wave_anchors (base_x base_y move_range : Q) (num_points : Z)
  : Rand (list point) :=
  for_range (Z.to_nat num_points) (fun p anchor_points =>
    let t := inject_Z (Z.of_nat p) / inject_Z num_points in
    let wave_x := move_range * m_sin (t * 2 * m_pi * 2) in
    let wave_y := move_range * 0.3 * m_sin (t * 2 * m_pi * 4) in
    let px := base_x + wave_x in
    let py := base_y + wave_y in
    ret (anchor_points ++ [(clamp_x px, clamp_y py)])) [].

(** One intermediate point between two key points (ai.py 250-268). *)
Definition organic_intermediate (move_range : Q) (k1 k2 : point) (t r : Q)
  : point :=
  let '(x1, y1) := k1 in
  let '(x2, y2) := k2 in
  let perpendicular_dist := move_range * 0.2 * (r - 0.5) in
  let dx := x2 - x1 in
  let dy := y2 - y1 in
  let perp_x := - dy in
  let perp_y := dx in
  let length := m_sqrt (perp_x ^ 2 + perp_y ^ 2) in
  let '(perp_x, perp_y) :=
    if Py.gtb length 0 then (perp_x / length, perp_y / length)
    else (perp_x, perp_y) in
  let ix := x1 + (x2 - x1) * t + perp_x * perpendicular_dist in
  let iy := y1 + (y2 - y1) * t + perp_y * perpendicular_dist in
  (clamp_x ix, clamp_y iy).

(** Organic path (ai.py 222-268). *)
Definition organic_anchors (base_x base_y move_range : Q) (angle : Q)
  : Rand (list point * Q) :=
  let anchor_points := [(base_x, base_y)] in
  '(key_points, angle) <~
    for_range 3 (fun _ '(key_points, _) =>
      r <~ rng_random ;;
      let angle := r * 2 * m_pi in
      r' <~ rng_random ;;
      let distance := move_range * (0.5 + r' * 0.5) in
      let px := base_x + m_cos angle * distance in
      let py := base_y + m_sin angle * distance in
      ret (key_points ++ [(clamp_x px, clamp_y py)], angle)) ([], angle) ;;
  anchor_points <~
    for_range (List.length key_points) (fun j anchor_points =>
      kj <~ lift (Py.index key_points (Z.of_nat j)) ;;
      let anchor_points := anchor_points ++ [kj] in
      let next_j := ((Z.of_nat j + 1) mod Z.of_nat (List.length key_points))%Z in
      k1 <~ lift (Py.index key_points (Z.of_nat j)) ;;
      k2 <~ lift (Py.index key_points next_j) ;;
      n <~ rng_randint 1 2 ;;
      for_range (Z.to_nat n) (fun _ anchor_points =>
        t <~ rng_random ;;
        r <~ rng_random ;;
        ret (anchor_points ++ [organic_intermediate move_range k1 k2 t r]))
        anchor_points) anchor_points ;;
  ret (anchor_points, angle).

(** One coordinate of the Catmull-Rom interpolation (ai.py 289-301). *)
Definition catmull_rom (a0 a1 a2 a3 t : Q) : Q :=
  let t2 := t * t in
  let t3 := t2 * t in
  0.5 * ((2 * a1) +
         (- a0 + a2) * t +
         (2 * a0 - 5 * a1 + 4 * a2 - a3) * t2 +
         (- a0 + 3 * a1 - 3 * a2 + a3) * t3).

(** The points one anchor contributes: the anchor, then the interpolated
    points for [s] in [range(1, num_segments)], each clamped. *)
Definition spline_segment (num_segments : nat) (points : list point) (j : nat)
  : Py.result (list point) :=
  let n := Z.of_nat (List.length points) in
  p0 <- Py.index points ((Z.of_nat j - 1) mod n)%Z ;;;
  p1 <- Py.index points (Z.of_nat j) ;;;
  p2 <- Py.index points ((Z.of_nat j + 1) mod n)%Z ;;;
  p3 <- Py.index points ((Z.of_nat j + 2) mod n)%Z ;;;
  Py.Ok (p1 :: map (fun s =>
               let t := inject_Z (Z.of_nat s) / inject_Z (Z.of_nat num_segments) in
               let x := catmull_rom (fst p0) (fst p1) (fst p2) (fst p3) t in
               let y := catmull_rom (snd p0) (snd p1) (snd p2) (snd p3) t in
               (clamp_x x, clamp_y y))
             (seq 1 (num_segments - 1))).

Fixpoint spline_loop (num_segments : nat) (points : list point) (js : list nat)
         (control_points : list point) : Py.result (list point) :=
  match js with
  | [] => Py.Ok control_points
  | j :: js' =>
    seg <- spline_segment num_segments points j ;;;
    spline_loop num_segments points js' (control_points ++ seg)
  end.

(** Anchor points to control points (ai.py 270-307 with [num_segments = 4],
    and again 334-365 with [num_segments = 5]). *)
Definition spline_path (num_segments : nat) (points : list point)
  : Py.result (list point) :=
  spline_loop num_segments points (seq 0 (List.length points)) [].

(** No base position in the settings: a random closed path
    (ai.py 308-365). *)
Definition random_path : Rand (list point) :=
  num_key_points <~ rng_randint 4 6 ;;
  key_points <~
    for_range (Z.to_nat num_key_points) (fun _ key_points =>
      px <~ rng_uniform margin (inject_Z width - margin) ;;
      py <~ rng_uniform margin (inject_Z height - margin) ;;
      ret (key_points ++ [(px, py)])) [] ;;
  first <~ lift (Py.index key_points 0) ;;
  last <~ lift (Py.index key_points (-1)) ;;
  let dist :=
    m_sqrt ((fst first - fst last) ^ 2 + (snd first - snd last) ^ 2) in
  key_points <~
    (if Py.gtb dist (inject_Z (Z.min width height) * 0.2) then
       let '(last_x, last_y) := last in
       let '(first_x, first_y) := first in
       let loop_factor := 0.2 in
       lift (setitem key_points (-1)
               (first_x + (last_x - first_x) * loop_factor,
                first_y + (last_y - first_y) * loop_factor))
     else ret key_points) ;;
  lift (spline_path 5 key_points).

(** A base position in the settings and [fixed_position] false: the
    anchors of the chosen style (ai.py 171-268).  Returns the anchor points,
    the local [angle] and the local [path_type]. *)
Definition styled_anchors (cs : CharSettings) (base_x base_y angle : Q)
  : Rand (list point * Q * string) :=
  let move_range := get (s_move_range cs) 0.4 * inject_Z (Z.min width height) in
  num_points <~ rng_randint 6 9 ;;
  c <~ rng_choice ["circle"; "figure8"; "organic"; "wave"]%string ;;
  let path_type := get (s_path_type cs) c in
  '(anchor_points, angle) <~
    (if String.eqb path_type "circle" then
       circle_anchors base_x base_y move_range num_points angle
     else if String.eqb path_type "figure8" then
       figure8_anchors base_x base_y move_range num_points angle
     else if String.eqb path_type "wave" then
       a <~ wave_anchors base_x base_y move_range num_points ;; ret (a, angle)
     else
       organic_anchors base_x base_y move_range angle) ;;
  ret (anchor_points, angle, path_type).

(** The anchors, then the spline through them (ai.py 270-307). *)
Definition styled_path (cs : CharSettings) (base_x base_y angle : Q)
  : Rand (list point * Q * string) :=
  '(anchor_points, angle, path_type) <~
    styled_anchors cs base_x base_y angle ;;
  control_points <~ lift (spline_path 4 anchor_points) ;;
  ret (control_points, angle, path_type).

(** The body of the loop over the avatars (ai.py 137-389), after the
    settings have been looked up.  [locals_path_type] is the local variable
    [path_type] as an earlier iteration left it ([None] when it is not in
    [locals()]); the body returns it updated. *)
Definition build_motion (char_settings : CharSettings)
           (locals_path_type : option string)
  : Rand (MotionData * option string) :=
  u <~ rng_uniform 0.35 0.6 ;;
  let scale0 := get (s_scale char_settings) u in
  u <~ rng_uniform 0.8 1.25 ;;
  let scale_variation := get (s_scale_variation char_settings) u in
  let scale1 := scale0 * scale_variation in
  u <~ rng_uniform (-8) 8 ;;
  let angle := get (s_rotation char_settings) u in
  '(control_points, angle, locals_path_type) <~
    match s_position_x char_settings, s_position_y char_settings with
    | Some base_x, Some base_y =>
      if get (s_fixed_position char_settings) false then
        cps <~ fixed_micro_path char_settings base_x base_y ;;
        ret (cps, angle, locals_path_type)
      else
        '(cps, angle, path_type) <~ styled_path char_settings base_x base_y angle ;;
        ret (cps, angle, Some path_type)
    | _, _ =>
      cps <~ random_path ;;
      ret (cps, angle, locals_path_type)
    end ;;
  u <~ rng_uniform 0.02 0.05 ;;
  let breathe_amount := get (s_breathe_amount char_settings) u in
  u <~ rng_uniform 0.8 1.3 ;;
  let breathe_speed := get (s_breathe_speed char_settings) u in
  let pulse_amount := breathe_amount * 0.3 in
  let pulse_speed := breathe_speed * 2.7 in
  u <~ rng_uniform 0.7 1.3 ;;
  ret ({| scale_base := scale0;
          scale_target := scale1;
          angle_base := angle;
          control_points := control_points;
          breathe_amount := breathe_amount;
          breathe_speed := breathe_speed;
          pulse_amount := pulse_amount;
          pulse_speed := pulse_speed;
          rotation_speed := get (s_rotation_speed char_settings) u;
          path_type := get locals_path_type "organic"%string |},
       locals_path_type).

Context `{EN : Enhancer}.
Variable character_settings : SettingsMap.
Variable text_prompt : string.
Variable seed : option Z.

(** The settings of avatar [i] as the loop body sees them (ai.py 122-135):
    looked up, then enhanced when the collaborator is there and does not
    fail. *)
Definition settings_of (i : nat) (av : Image) : CharSettings :=
  let char_settings := get (lookup character_settings i) no_settings in
  if SMPL_AVAILABLE then
    match enhance_character_animation char_settings av text_prompt seed with
    | Py.Ok enhanced => enhanced
    | Py.Raise _ => char_settings
    end
  else char_settings.

(** [for i, av in enumerate(avatars): ... motions.append(motion_data)] *)
Fixpoint build_motions_from (i : nat) (avatars : list Image)
         (locals_path_type : option string) (motions : list MotionData)
  : Rand (list MotionData) :=
  match avatars with
  | [] => ret motions
  | av :: rest =>
    '(motion_data, locals_path_type) <~
      build_motion (settings_of i av) locals_path_type ;;
    build_motions_from (Datatypes.S i) rest locals_path_type
                       (motions ++ [motion_data])
  end.

Definition build_motions (avatars : list Image) : Rand (list MotionData) :=
  build_motions_from 0 avatars None [].
End PathGenerator.

(** ** Frame rendering (ai.py 428-560) *)

(** What the code needs to know of Pillow: [im.resize(size)], the image
    [im.thumbnail(size)] leaves, and the size of
    [im.rotate(angle, expand=True)] for an image of a given size. *)
Class ImageLib : Type := {
  resize : Image -> Z * Z -> Image;
  thumbnail : Image -> Z * Z -> Image;
  rotated_size : Z * Z -> Q -> Z * Z
}.

(** One [alpha_composite] onto the frame: which avatar, the size it was
    resized to, the angle it was rotated by, the position [(x, y)] sampled on
    its path, and the paste coordinates. *)
Record Layer : Type := {
  sprite : nat;
  resized_to : Z * Z;
  rotated_by : Q;
  position : point;
  pasted_at : Z * Z
}.

(** A frame: the background and the layers composited onto it, first to
    last. *)
Record Frame : Type := {
  background : Image;
  layers : list Layer
}.

(** [sorted_avatars.sort(key=lambda x: x[2])]: ascending and stable. *)
Fixpoint insert_by_key {A} (x : A * Q) (l : list (A * Q)) : list (A * Q) :=
  match l with
  | [] => [x]
  | y :: l' =>
    if Py.ltb (snd y) (snd x) then y :: insert_by_key x l' else x :: y :: l'
  end.

Fixpoint sort_by_key {A} (l : list (A * Q)) : list (A * Q) :=
  match l with
  | [] => []
  | x :: l' => insert_by_key x (sort_by_key l')
  end.

(** [enumerate(l)] *)
Definition enumerate {A} (l : list A) : list (nat * A) :=
  combine (seq 0 (List.length l)) l.

Section FrameCompositor.
Context `{ML : MathLib} `{IL : ImageLib}.
Variable avatars : list Image.
Variable motions : list MotionData.
Variable character_settings : SettingsMap.

(** [all('control_points' in motions[i] and motions[i]['control_points']
    for i in range(len(avatars)))], evaluated left to right. *)
Fixpoint all_have_points (indices : list nat) : Py.result bool :=
  match indices with
  | [] => Py.Ok true
  | i :: rest =>
    motion <- Py.index motions (Z.of_nat i) ;;;
    match control_points motion with
    | [] => Py.Ok false
    | _ => all_have_points rest
    end
  end.

(** The first pass (ai.py 441-444): every entry gets the [y] of its path
    sampled at the frame's time [t]. *)
Fixpoint with_depth_keys (t : Q) (entries : list (nat * Image))
  : Py.result (list ((nat * Image) * Q)) :=
  match entries with
  | [] => Py.Ok []
  | (i, _) :: rest =>
    motion <- Py.index motions (Z.of_nat i) ;;;
    pos <- get_path_position (control_points motion) t ;;;
    av <- Py.index avatars (Z.of_nat i) ;;;
    keyed <- with_depth_keys t rest ;;;
    Py.Ok (((i, av), snd pos) :: keyed)
  end.

(** The order in which a frame composites its avatars (ai.py 436-447). *)
Definition sorted_avatars (t : Q) : Py.result (list (nat * Image)) :=
  let sorted_avatars := enumerate avatars in
  sortable <- all_have_points (seq 0 (List.length avatars)) ;;;
  if sortable then
    keyed <- with_depth_keys t sorted_avatars ;;;
    Py.Ok (map fst (sort_by_key keyed))
  else Py.Ok sorted_avatars.

(** The sampling parameter of the paste position (ai.py 454-463). *)
Definition eased_time (char_settings : CharSettings) (t : Q) : Q :=
  let path_speed := get (s_path_speed char_settings) 1.0 in
  let t_adjusted := Py.mod1 (t * path_speed * 1.5) in
  ease_in_out t_adjusted.

(** The anisotropic scale factors [(sx, sy)] (ai.py 486-506). *)
Definition scale_factors (motion : MotionData) (t : Q) : Q * Q :=
  let breathe :=
    breathe_amount motion * m_sin (2 * m_pi * t * breathe_speed motion) in
  let pulse :=
    pulse_amount motion * m_sin (2 * m_pi * t * pulse_speed motion + 0.7) in
  let micro :=
    breathe_amount motion * 0.1 * m_sin (2 * m_pi * t * 3.7 + 1.3) in
  let scale_t := 0.5 - 0.5 * m_cos (m_pi * t) in
  let base_scale :=
    scale_base motion + (scale_target motion - scale_base motion) * scale_t in
  let sx := base_scale * (1.0 + breathe + pulse + micro) in
  let sy := base_scale * (1.0 + (breathe * 0.8) + pulse + (micro * 1.2)) in
  (sx, sy).

(** The rotation angle (ai.py 469-534). *)
Definition anim_angle_of (motion : MotionData) (char_settings : CharSettings)
           (t : Q) (next_pos prev_pos : point) : Q :=
  let dir_x := fst next_pos - fst prev_pos in
  let dir_y := snd next_pos - snd prev_pos in
  let dir_length := m_sqrt (dir_x ^ 2 + dir_y ^ 2) in
  let '(dir_x, dir_y) :=
    if Py.gtb dir_length 0.001 then (dir_x / dir_length, dir_y / dir_length)
    else (dir_x, dir_y) in
  let speed :=
    m_sqrt ((fst next_pos - fst prev_pos) ^ 2 +
            (snd next_pos - snd prev_pos) ^ 2) * 25 in
  let dir_angle :=
    if ((1 <? Z.of_nat (List.length (control_points motion)))%Z
        && Py.gtb speed 0.1)%bool then
      let movement_angle := m_degrees (m_atan2 dir_y dir_x) in
      let base_tilt := get (s_tilt_factor char_settings) 0.15 in
      let speed_factor := Py.min 1.0 (speed / 10) in
      let tilt_factor := base_tilt * (0.5 + 0.5 * speed_factor) in
      movement_angle * tilt_factor
    else 0 in
  let oscillation := 2 * m_sin (2 * m_pi * t * 0.7) in
  angle_base motion +
  dir_angle +
  angle_base motion * m_sin (2 * m_pi * t * rotation_speed motion) * 0.3 +
  oscillation.

(** The target pixel size [(aw, ah)] (ai.py 537-538). *)
Definition target_size (av : Image) (motion : MotionData) (t : Q) : Z * Z :=
  let '(w, h) := size av in
  let '(sx, sy) := scale_factors motion t in
  (Py.int (inject_Z w * sx), Py.int (inject_Z h * sy)).

(** The body of the loop over [sorted_avatars] (ai.py 449-555): [None] when
    the avatar is skipped with [continue], else the layer it composites. *)
Definition render_sprite (t : Q) (i : nat) (av : Image)
  : Py.result (option Layer) :=
  motion <- Py.index motions (Z.of_nat i) ;;;
  let char_settings := get (lookup character_settings i) no_settings in
  let t_eased := eased_time char_settings t in
  pos <- get_path_position (control_points motion) t_eased ;;;
  let '(x, y) := pos in
  let delta := 0.02 in
  next_pos <- get_path_position (control_points motion)
                                (Py.mod1 (t_eased + delta)) ;;;
  prev_pos <- get_path_position (control_points motion)
                                (Py.mod1 (t_eased - delta)) ;;;
  let anim_angle := anim_angle_of motion char_settings t next_pos prev_pos in
  let '(aw, ah) := target_size av motion t in
  if ((aw <? 5) || (ah <? 5))%Z then Py.Ok None
  else
    let rot := rotated_size (aw, ah) anim_angle in
    let paste_x := Py.int (x - inject_Z (fst rot / 2)%Z) in
    let paste_y := Py.int (y - inject_Z (snd rot / 2)%Z) in
    Py.Ok (Some {| sprite := i;
                   resized_to := (aw, ah);
                   rotated_by := anim_angle;
                   position := (x, y);
                   pasted_at := (paste_x, paste_y) |}).

Fixpoint render_sprites (t : Q) (order : list (nat * Image))
         (frame : list Layer) : Py.result (list Layer) :=
  match order with
  | [] => Py.Ok frame
  | (i, av) :: rest =>
    r <- render_sprite t i av ;;;
    match r with
    | None => render_sprites t rest frame
    | Some layer => render_sprites t rest (frame ++ [layer])
    end
  end.

(** The normalised time of frame [f] (ai.py 431). *)
Definition frame_time (n_frames f : Z) : Q :=
  inject_Z f / inject_Z (if (1 <? n_frames)%Z then n_frames - 1 else 1)%Z.

(** One iteration of the loop over the frames, up to the frame it saves. *)
Definition render_frame (bg : Image) (n_frames f : Z) : Py.result Frame :=
  let t := frame_time n_frames f in
  order <- sorted_avatars t ;;;
  composited <- render_sprites t order [] ;;;
  Py.Ok {| background := bg; layers := composited |}.
End FrameCompositor.

(** ** Files, the encoder and [composite_video] (ai.py 92-589) *)

Local Open Scope string_scope.

(** [str(n)] and the format [{f:05d}]. *)
Definition str_of_nat (n : nat) : string :=
  NilEmpty.string_of_uint (Nat.to_uint n).

Definition str_of_Z (z : Z) : string :=
  NilZero.string_of_int (Z.to_int z).

Fixpoint zeros (n : nat) : string :=
  match n with
  | O => ""
  | Datatypes.S n' => "0" ++ zeros n'
  end.

Definition format_05d (f : nat) : string :=
  let s := str_of_nat f in
  zeros (5 - String.length s) ++ s.

(** [os.path.join(a, b)] for a relative [b]. *)
Definition path_join (a b : string) : string := a ++ "/" ++ b.

(** The arguments of the one [ffmpeg] run (ai.py 566-587). *)
Record EncoderCall : Type := {
  input_pattern : string;
  framerate : Z;
  output_path : string;
  vcodec : string;
  pix_fmt : string;
  r : Z;
  crf : Z;
  preset : string;
  profile : string;
  level : string;
  movflags : string;
  tune : string;
  x264_params : string
}.

Inductive FileContent : Type :=
| Png (frame : Frame)
| Mp4 (call : EncoderCall).

Section CompositeVideo.
Context `{ML : MathLib} `{RS : RandomSource} `{IL : ImageLib} `{EN : Enhancer}.

(** The part of the machine [composite_video] reads and writes: the state
    an unseeded [random.Random()] starts from, [tempfile.gettempdir()], the
    suffix [mkdtemp] picks, the directories and files on disk, the encoder
    runs so far and whether the encoder exits with success. *)
Record World : Type := {
  os_entropy : rng;
  tempdir : string;
  mkdtemp_suffix : string;
  directories : list string;
  files : list (string * FileContent);
  encoder_runs : list EncoderCall;
  encoder_succeeds : bool
}.

(** [tempfile.mkdtemp(prefix=...)] *)
Definition mkdtemp (prefix : string) (w : World) : string * World :=
  let d := path_join (tempdir w) (prefix ++ mkdtemp_suffix w) in
  (d, {| os_entropy := os_entropy w; tempdir := tempdir w;
         mkdtemp_suffix := mkdtemp_suffix w;
         directories := directories w ++ [d];
         files := files w;
         encoder_runs := encoder_runs w;
         encoder_succeeds := encoder_succeeds w |}).

Definition write_file (path : string) (c : FileContent) (w : World) : World :=
  {| os_entropy := os_entropy w; tempdir := tempdir w;
     mkdtemp_suffix := mkdtemp_suffix w;
     directories := directories w;
     files := files w ++ [(path, c)];
     encoder_runs := encoder_runs w;
     encoder_succeeds := encoder_succeeds w |}.

(** [ffmpeg...run(quiet=True)]: the run is recorded; it writes the output
    file, or raises when the encoder fails. *)
Definition run_encoder (call : EncoderCall) (w : World)
  : Py.result unit * World :=
  let w' := {| os_entropy := os_entropy w; tempdir := tempdir w;
               mkdtemp_suffix := mkdtemp_suffix w;
               directories := directories w;
               files := files w;
               encoder_runs := encoder_runs w ++ [call];
               encoder_succeeds := encoder_succeeds w |} in
  if encoder_succeeds w then
    (Py.Ok tt, write_file (output_path call) (Mp4 call) w')
  else (Py.Raise Py.FfmpegError, w').

Definition encoder_call (frames_dir out_path : string) (fps : Z) : EncoderCall :=
  {| input_pattern := path_join frames_dir "f_%05d.png";
     framerate := fps;
     output_path := out_path;
     vcodec := "libx264";
     pix_fmt := "yuv420p";
     r := fps;
     crf := 17;
     preset := "slow";
     profile := "high";
     level := "4.2";
     movflags := "faststart";
     tune := "film";
     x264_params := "keyint=25:no-deblock=0:deblock=0,0:no-scenecut" |}.

(** [for f in range(n_frames)]: render, then save as [f_{f:05d}.png]. *)
Fixpoint render_frames (avatars : list Image) (motions : list MotionData)
         (character_settings : SettingsMap) (bg : Image) (frames_dir : string)
         (n_frames : Z) (fs : list nat) (w : World) : Py.result unit * World :=
  match fs with
  | [] => (Py.Ok tt, w)
  | f :: rest =>
    match render_frame avatars motions character_settings bg n_frames
                       (Z.of_nat f) with
    | Py.Raise e => (Py.Raise e, w)
    | Py.Ok frame =>
      let frame_path := path_join frames_dir ("f_" ++ format_05d f ++ ".png") in
      render_frames avatars motions character_settings bg frames_dir n_frames
                    rest (write_file frame_path (Png frame) w)
    end
  end.

(** The first stage (ai.py 106-389): the generator is created from the
    seed and the motion data of every avatar is built.  Returns the local
    [motions] and the generator as the stage leaves it. *)
Definition build_stage (avatars : list Image) (size : Z * Z) (seed : option Z)
           (character_settings : option SettingsMap) (prompt : option string)
           (w : World) : Py.result (list MotionData * rng) :=
  let '(width, height) := size in
  let g := match seed with
           | Some s => seeded s
           | None => os_entropy w
           end in
  let character_settings := get character_settings [] in
  let text_prompt := get prompt "" in
  build_motions width height character_settings text_prompt seed avatars g.

Definition composite_video (bg : Image) (avatars : list Image)
           (duration_s fps : Z) (size : Z * Z) (seed : option Z)
           (character_settings : option SettingsMap) (prompt : option string)
           (w : World) : Py.result string * World :=
  let n_frames := (duration_s * fps)%Z in
  match build_stage avatars size seed character_settings prompt w with
  | Py.Raise e => (Py.Raise e, w)
  | Py.Ok (motions, g) =>
    let '(frames_dir, w) := mkdtemp "frames_" w in
    let bg := resize bg size in
    match render_frames avatars motions (get character_settings []) bg
                        frames_dir n_frames (seq 0 (Z.to_nat n_frames)) w with
    | (Py.Raise e, w) => (Py.Raise e, w)
    | (Py.Ok _, w) =>
      let '(k, g) := randbelow 1000000 g in
      let out_path := path_join (tempdir w) ("scene_" ++ str_of_Z k ++ ".mp4") in
      match run_encoder (encoder_call frames_dir out_path fps) w with
      | (Py.Raise e, w) => (Py.Raise e, w)
      | (Py.Ok _, w) => (Py.Ok out_path, w)
      end
    end
  end.

(** The control-point paths of a list of motion data. *)
Definition paths_of (motions : list MotionData) : list (list point) :=
  map control_points motions.
End CompositeVideo.

(** ** The [/generate] endpoint ([generate_video], main.py 277-365) *)

Module Main.

(** The columns of [models.Character] that [generate_video] reads; of the
    JSON column [meta], the two keys it reads. *)
Record Character : Type := {
  id : Z;
  cutout_path : string;
  edited_path : option string;
  scale : option Q;
  rotation : option Q;
  fixed_position : option bool;
  move_range : option Q;
  breathe_amount : option Q;
  breathe_speed : option Q;
  tilt_factor : option Q;
  path_type : option string;
  meta_position_x : option Q;
  meta_position_y : option Q
}.

(** [schemas.GenerateRequest]; [character_settings] is keyed by [str(id)]. *)
Record GenerateRequest : Type := {
  prompt : string;
  character_ids : list Z;
  duration_seconds : Z;
  width : Z;
  height : Z;
  fps : Z;
  seed : option Z;
  character_settings : option (list (string * CharSettings))
}.

Fixpoint lookup_str {A} (m : list (string * A)) (k : string) : option A :=
  match m with
  | [] => None
  | (k', v) :: m' => if String.eqb k' k then Some v else lookup_str m' k
  end.

(** [x is not None and x != d] *)
Definition unless (d : Q) (x : option Q) : option Q :=
  match x with
  | Some v => if Qeq_bool v d then None else Some v
  | None => None
  end.

(** The settings taken from the database row (main.py 315-341). *)
Definition stored_settings (ch : Character) : CharSettings :=
  let both := match meta_position_x ch, meta_position_y ch with
              | Some _, Some _ => true
              | _, _ => false
              end in
  {| s_scale := unless 1.0 (scale ch);
     s_scale_variation := None;
     s_rotation := unless 0.0 (rotation ch);
     s_position_x := if both then meta_position_x ch else None;
     s_position_y := if both then meta_position_y ch else None;
     s_fixed_position := fixed_position ch;
     s_micro_movement := None;
     s_move_range := move_range ch;
     s_path_type := path_type ch;
     s_path_speed := None;
     s_breathe_amount := breathe_amount ch;
     s_breathe_speed := breathe_speed ch;
     s_rotation_speed := None;
     s_tilt_factor := tilt_factor ch |}.

Definition is_some {A} (o : option A) : bool :=
  match o with Some _ => true | None => false end.

(** [if settings:] a dict is true when it has an entry. *)
Definition nonempty (s : CharSettings) : bool :=
  is_some (s_scale s) || is_some (s_scale_variation s) || is_some (s_rotation s)
  || is_some (s_position_x s) || is_some (s_position_y s)
  || is_some (s_fixed_position s) || is_some (s_micro_movement s)
  || is_some (s_move_range s) || is_some (s_path_type s)
  || is_some (s_path_speed s) || is_some (s_breathe_amount s)
  || is_some (s_breathe_speed s) || is_some (s_rotation_speed s)
  || is_some (s_tilt_factor s).

(** [os.path.basename] *)
Fixpoint basename_from (acc s : string) : string :=
  match s with
  | EmptyString => acc
  | String c s' =>
    if Ascii.eqb c "/"%char then basename_from "" s'
    else basename_from (acc ++ String c "") s'
  end.
Definition basename (s : string) : string := basename_from "" s.

Section Endpoint.
Context `{ML : MathLib} `{RS : RandomSource} `{IL : ImageLib} `{EN : Enhancer}.

(** What the endpoint reads of its surroundings: the rows of the
    [characters] table, [os.path.exists], [Image.open(...).convert('RGBA')],
    the background generator and [BASE_DIR]. *)
Record Server : Type := {
  characters : list Character;
  path_exists : string -> bool;
  open_image : string -> Image;
  generate_background : string -> Z -> Z -> option Z -> Image;
  BASE_DIR : string
}.

(** The loop over the loaded characters (main.py 302-344). *)
Fixpoint load_avatars (srv : Server) (req : GenerateRequest) (i : nat)
         (chars : list Character) (avatars : list Image)
         (char_settings : SettingsMap) : list Image * SettingsMap :=
  match chars with
  | [] => (avatars, char_settings)
  | ch :: rest =>
    let img_path :=
      match edited_path ch with
      | Some e => if (negb (String.eqb e "") && path_exists srv e)%bool then e
                  else cutout_path ch
      | None => cutout_path ch
      end in
    let im := thumbnail (open_image srv img_path) (1024, 1024)%Z in
    let avatars := (avatars ++ [im])%list in
    let requested :=
      match character_settings req with
      | Some m => lookup_str m (str_of_Z (id ch))
      | None => None
      end in
    let char_settings :=
      match requested with
      | Some s => ((i, s) :: char_settings)%list
      | None =>
        let settings := stored_settings ch in
        if nonempty settings then ((i, settings) :: char_settings)%list
        else char_settings
      end in
    load_avatars srv req (Datatypes.S i) rest avatars char_settings
  end.

(** [os.replace(src, dst)] *)
Definition replace_file (src dst : string) (w : World) : World :=
  let moved := filter (fun e => String.eqb (fst e) src) (files w) in
  let kept :=
    filter (fun e => negb (String.eqb (fst e) src || String.eqb (fst e) dst))
           (files w) in
  {| os_entropy := os_entropy w; tempdir := tempdir w;
     mkdtemp_suffix := mkdtemp_suffix w;
     directories := directories w;
     files := (kept ++ map (fun e => (dst, snd e)) moved)%list;
     encoder_runs := encoder_runs w;
     encoder_succeeds := encoder_succeeds w |}.

(** [os.makedirs(d, exist_ok=True)] *)
Definition makedirs (d : string) (w : World) : World :=
  if existsb (String.eqb d) (directories w) then w
  else {| os_entropy := os_entropy w; tempdir := tempdir w;
          mkdtemp_suffix := mkdtemp_suffix w;
          directories := (directories w ++ [d])%list;
          files := files w;
          encoder_runs := encoder_runs w;
          encoder_succeeds := encoder_succeeds w |}.

Definition generate_video (srv : Server) (req : GenerateRequest) (w : World)
  : Py.result string * World :=
  if negb ((10 <=? duration_seconds req)%Z && (duration_seconds req <=? 25)%Z)
  then (Py.Raise (Py.HTTPException 400 "duration_seconds must be 10-25"), w)
  else
    let chars :=
      filter (fun ch => existsb (Z.eqb (id ch)) (character_ids req))
             (characters srv) in
    match chars with
    | [] => (Py.Raise (Py.HTTPException 400 "No valid characters found"), w)
    | _ =>
      let '(avatars, char_settings) := load_avatars srv req 0 chars [] [] in
      let bg := generate_background srv (prompt req) (width req) (height req)
                                    (seed req) in
      match composite_video bg avatars (duration_seconds req) (fps req)
                            (width req, height req) (seed req)
                            (Some char_settings) (Some (prompt req)) w with
      | (Py.Raise e, w) => (Py.Raise e, w)
      | (Py.Ok out_path, w) =>
        let renders_dir := path_join (path_join (BASE_DIR srv) "storage") "renders" in
        let w := makedirs renders_dir w in
        let fname := basename out_path in
        let final_path := path_join renders_dir fname in
        (Py.Ok final_path, replace_file out_path final_path w)
      end
    end.
End Endpoint.

End Main.

(** * Properties *)

Local Close Scope string_scope.
Local Open Scope Q_scope.

(** ** Python arithmetic *)

Lemma ltb_lt (a b : Q) : Py.ltb a b = true <-> a < b.
Proof. unfold Py.ltb, Qlt. apply Z.ltb_lt. Qed.

Lemma ltb_ge (a b : Q) : Py.ltb a b = false <-> b <= a.
Proof. unfold Py.ltb, Qle. apply Z.ltb_ge. Qed.

Lemma int_nonneg (q : Q) : 0 <= q -> Py.int q = Qfloor q.
Proof.
  destruct q as [n d]. unfold Qle, Py.int, Qfloor. simpl. intros H.
  apply Z.quot_div_nonneg; lia.
Qed.

Lemma int_nonpos (q : Q) : q <= 0 -> Py.int q = Qceiling q.
Proof.
  destruct q as [n d]. unfold Qle, Py.int, Qceiling, Qfloor. simpl. intros H.
  replace n with (- - n)%Z at 1 by lia.
  rewrite Z.quot_opp_l by lia.
  f_equal. apply Z.quot_div_nonneg; lia.
Qed.

(** [int] does not see which fraction represents the number. *)
Lemma int_comp (a b : Q) : a == b -> Py.int a = Py.int b.
Proof.
  intros E. destruct (Qlt_le_dec a 0) as [Hneg | Hpos].
  - rewrite !int_nonpos by (rewrite <- ?E; lra). now rewrite E.
  - rewrite !int_nonneg by (rewrite <- ?E; lra). now rewrite E.
Qed.

(** Truncation moves toward zero by less than one. *)
Lemma int_bounds_nonneg (q : Q) :
  0 <= q -> inject_Z (Py.int q) <= q /\ q < inject_Z (Py.int q) + 1.
Proof.
  intros H. rewrite int_nonneg by assumption. split.
  - apply Qfloor_le.
  - pose proof (Qlt_floor q) as L. rewrite inject_Z_plus in L. exact L.
Qed.

Lemma int_bounds_nonpos (q : Q) :
  q <= 0 -> inject_Z (Py.int q) - 1 < q /\ q <= inject_Z (Py.int q).
Proof.
  intros H. rewrite int_nonpos by assumption. split.
  - pose proof (Qceiling_lt q) as L. unfold Z.sub in L.
    rewrite inject_Z_plus, inject_Z_opp in L. exact L.
  - apply Qle_ceiling.
Qed.

Lemma inject_Z_le_iff (a b : Z) : inject_Z a <= inject_Z b <-> (a <= b)%Z.
Proof. rewrite <- Zle_Qle. reflexivity. Qed.

Lemma inject_Z_lt_iff (a b : Z) : inject_Z a < inject_Z b <-> (a < b)%Z.
Proof. rewrite <- Zlt_Qlt. reflexivity. Qed.

(** An integer strictly between [z - 1] and [z + 1] is [z]. *)
Lemma int_unique (q : Q) (z : Z) :
  0 <= q -> inject_Z z <= q -> q < inject_Z z + 1 -> Py.int q = z.
Proof.
  intros H0 H1 H2. destruct (int_bounds_nonneg q H0) as [L U].
  assert (inject_Z (Py.int q) < inject_Z (z + 1)) as A
      by (rewrite inject_Z_plus; change (inject_Z 1) with 1; lra).
  assert (inject_Z z < inject_Z (Py.int q + 1)) as B
      by (rewrite inject_Z_plus; change (inject_Z 1) with 1; lra).
  rewrite <- Zlt_Qlt in A. rewrite <- Zlt_Qlt in B. lia.
Qed.

Lemma int_add_one (t : Q) : 0 <= t -> Py.int (t + 1) = (Py.int t + 1)%Z.
Proof.
  intros H. destruct (int_bounds_nonneg t H) as [L U].
  apply int_unique; rewrite ?inject_Z_plus; change (inject_Z 1) with 1; lra.
Qed.

Lemma mod1_range (q : Q) : 0 <= Py.mod1 q /\ Py.mod1 q < 1.
Proof.
  unfold Py.mod1. pose proof (Qfloor_le q) as L. pose proof (Qlt_floor q) as U.
  rewrite inject_Z_plus in U. change (inject_Z 1) with 1 in U. lra.
Qed.

Lemma cube (s : Q) : s ^ 3 == s * s * s.
Proof. simpl. ring. Qed.

Lemma square (s : Q) : s ^ 2 == s * s.
Proof. simpl. ring. Qed.

(** The ease maps the unit interval into itself. *)
Lemma ease_in_out_range (s : Q) :
  0 <= s -> s <= 1 -> 0 <= ease_in_out s /\ ease_in_out s <= 1.
Proof.
  intros H0 H1. unfold ease_in_out.
  destruct (Py.ltb s 0.5) eqn:E.
  - apply ltb_lt in E. rewrite cube.
    assert (0 <= s * s) by nra. assert (s * s <= 1 # 4) by nra.
    assert (0 <= s * s * s) by nra. assert (s * s * s <= 1 # 8) by nra.
    lra.
  - apply ltb_ge in E.
    set (u := -2 * s + 2). assert (0 <= u) by (unfold u; lra).
    assert (u <= 1) by (unfold u; lra).
    assert (u ^ 3 / 2 == (1 # 2) * (u * u * u)) as D by (simpl; field).
    rewrite D.
    assert (0 <= u * u) by nra. assert (u * u <= 1) by nra.
    assert (0 <= u * u * u) by nra. assert (u * u * u <= 1) by nra.
    lra.
Qed.

(** ** Indexing *)

Lemma index_nat {A} (l : list A) (i : nat) (a : A) :
  nth_error l i = Some a -> Py.index l (Z.of_nat i) = Py.Ok a.
Proof.
  intros H. unfold Py.index.
  destruct (Z.of_nat i <? 0)%Z eqn:E; [apply Z.ltb_lt in E; lia |].
  rewrite E, Nat2Z.id, H. reflexivity.
Qed.

Lemma index_in_range {A} (l : list A) (i : Z) :
  (- Z.of_nat (List.length l) <= i < Z.of_nat (List.length l))%Z ->
  exists a, Py.index l i = Py.Ok a /\
            nth_error l (Z.to_nat (i mod Z.of_nat (List.length l))) = Some a.
Proof.
  intros R. unfold Py.index.
  set (n := Z.of_nat (List.length l)) in *.
  assert (i mod n = if (i <? 0)%Z then i + n else i)%Z as M.
  { destruct (i <? 0)%Z eqn:E.
    - apply Z.ltb_lt in E. symmetry. apply Z.mod_unique with (q := (-1)%Z); lia.
    - apply Z.ltb_ge in E. apply Z.mod_small. lia. }
  rewrite M. set (j := if (i <? 0)%Z then (i + n)%Z else i).
  assert (0 <= j < n)%Z as J
      by (unfold j; destruct (i <? 0)%Z eqn:E;
          [apply Z.ltb_lt in E | apply Z.ltb_ge in E]; lia).
  destruct (j <? 0)%Z eqn:E; [apply Z.ltb_lt in E; lia |].
  destruct (nth_error l (Z.to_nat j)) as [a |] eqn:N.
  - exists a. split; reflexivity.
  - apply nth_error_None in N. unfold n in J. lia.
Qed.

Lemma index_is_ok {A} (l : list A) (i : Z) :
  (- Z.of_nat (List.length l) <= i < Z.of_nat (List.length l))%Z ->
  exists a, Py.index l i = Py.Ok a.
Proof.
  intros R. destruct (index_in_range l i R) as [a [E _]]. now exists a.
Qed.

(** ** Rounding to the binary64 format *)

Lemma two_not_zero : ~ 2 == 0.
Proof. discriminate. Qed.

Lemma Z_pow_Q (e : Z) : (0 <= e)%Z -> inject_Z (2 ^ e) == 2 ^ e.
Proof. intros H. rewrite Zpower_Qpower by exact H. reflexivity. Qed.

Lemma ilog2_spec (x : Q) :
  0 < x -> 2 ^ ilog2 x <= x /\ x < 2 ^ (ilog2 x + 1).
Proof.
  intros P. destruct x as [n d]. unfold ilog2. cbn [Qnum Qden].
  assert (0 < n)%Z as N by (unfold Qlt in P; simpl in P; lia).
  set (a := Z.log2 n). set (b := Z.log2 (Z.pos d)).
  destruct (Z.log2_spec n N) as [A0 A1]. fold a in A0, A1.
  destruct (Z.log2_spec (Z.pos d) (Pos2Z.is_pos d)) as [B0 B1].
  fold b in B0, B1.
  assert (0 <= a)%Z as PA by apply Z.log2_nonneg.
  assert (0 <= b)%Z as PB by apply Z.log2_nonneg.
  assert (n # d == inject_Z n / inject_Z (Z.pos d)) as X by apply Qmake_Qdiv.
  assert (0 < inject_Z (Z.pos d)) as DP by (unfold Qlt; simpl; lia).
  assert (2 ^ a <= inject_Z n) as QA0
      by (rewrite <- Z_pow_Q by exact PA; rewrite <- Zle_Qle; exact A0).
  assert (inject_Z n < 2 ^ (a + 1)) as QA1
      by (rewrite <- Z_pow_Q by lia; rewrite <- Zlt_Qlt;
          replace (a + 1)%Z with (Z.succ a) by lia; exact A1).
  assert (2 ^ b <= inject_Z (Z.pos d)) as QB0
      by (rewrite <- Z_pow_Q by exact PB; rewrite <- Zle_Qle; exact B0).
  assert (inject_Z (Z.pos d) < 2 ^ (b + 1)) as QB1
      by (rewrite <- Z_pow_Q by lia; rewrite <- Zlt_Qlt;
          replace (b + 1)%Z with (Z.succ b) by lia; exact B1).
  assert (0 < 2 ^ b) as PB2 by (apply Qpower_0_lt; reflexivity).
  assert (0 < 2 ^ (b + 1)) as PB3 by (apply Qpower_0_lt; reflexivity).
  assert (0 < 2 ^ a) as PA2 by (apply Qpower_0_lt; reflexivity).
  (* the quotient lies strictly between 2^(a-b-1) and 2^(a-b+1) *)
  assert (2 ^ (a - b - 1) < (n # d)) as Lo.
  { rewrite X. replace (a - b - 1)%Z with (a - (b + 1))%Z by lia.
    rewrite Qpower_minus by exact two_not_zero.
    apply Qlt_shift_div_l; [exact DP |].
    assert (2 ^ a / 2 ^ (b + 1) * inject_Z (Z.pos d) < 2 ^ a); [| lra].
    assert (2 ^ a / 2 ^ (b + 1) * inject_Z (Z.pos d)
            == 2 ^ a * (inject_Z (Z.pos d) / 2 ^ (b + 1))) as -> by (field; lra).
    assert (inject_Z (Z.pos d) / 2 ^ (b + 1) < 1)
      by (apply Qlt_shift_div_r; [exact PB3 | lra]).
    nra. }
  assert ((n # d) < 2 ^ (a - b + 1)) as Hi.
  { rewrite X. replace (a - b + 1)%Z with (a + 1 - b)%Z by lia.
    rewrite Qpower_minus by exact two_not_zero.
    apply Qlt_shift_div_r; [exact DP |].
    assert (2 ^ (a + 1) <= 2 ^ (a + 1) / 2 ^ b * inject_Z (Z.pos d)); [| lra].
    assert (2 ^ (a + 1) / 2 ^ b * inject_Z (Z.pos d)
            == 2 ^ (a + 1) * (inject_Z (Z.pos d) / 2 ^ b)) as -> by (field; lra).
    assert (1 <= inject_Z (Z.pos d) / 2 ^ b)
      by (apply Qle_shift_div_l; [exact PB2 | lra]).
    assert (0 < 2 ^ (a + 1)) by (apply Qpower_0_lt; reflexivity).
    nra. }
  destruct (Qle_bool (2 ^ (a - b)) (n # d)) eqn:T.
  - apply Qle_bool_iff in T. split; [exact T | exact Hi].
  - assert (~ 2 ^ (a - b) <= (n # d)) as T'
        by (intros C; apply Qle_bool_iff in C; congruence).
    apply Qnot_le_lt in T'. split; [apply Qlt_le_weak; exact Lo |].
    replace (a - b - 1 + 1)%Z with (a - b)%Z by lia. exact T'.
Qed.

Lemma round_half_even_near (y : Q) :
  - (1 # 2) <= inject_Z (round_half_even y) - y /\
  inject_Z (round_half_even y) - y <= 1 # 2.
Proof.
  unfold round_half_even.
  pose proof (Qfloor_le y) as F0. pose proof (Qlt_floor y) as F1.
  rewrite inject_Z_plus in F1. change (inject_Z 1) with 1 in F1.
  destruct (Qcompare (y - inject_Z (Qfloor y)) (1 # 2)) eqn:C.
  - apply Qeq_alt in C.
    destruct (Z.even (Qfloor y)); rewrite ?inject_Z_plus;
      change (inject_Z 1) with 1; split; lra.
  - apply Qlt_alt in C. split; lra.
  - apply Qgt_alt in C. rewrite inject_Z_plus. change (inject_Z 1) with 1.
    split; lra.
Qed.

Lemma round_half_even_above (y : Q) (z : Z) :
  inject_Z z <= y -> (z <= round_half_even y)%Z.
Proof.
  intros H. assert (z <= Qfloor y)%Z as F.
  { rewrite <- (Qfloor_Z z). apply Qfloor_resp_le. exact H. }
  unfold round_half_even.
  destruct (Qcompare (y - inject_Z (Qfloor y)) (1 # 2)); [destruct (Z.even _) | |]; lia.
Qed.

(** Rounding a positive number changes it by at most one part in
    [2 ^ 53]. *)
Lemma nearest_binary64_error (x : Q) :
  0 < x ->
  x * (1 - (1 # 2 ^ 53)) <= nearest_binary64 x /\
  nearest_binary64 x <= x * (1 + (1 # 2 ^ 53)).
Proof.
  intros P. destruct (ilog2_spec x P) as [L _].
  unfold nearest_binary64.
  destruct x as [n d]. destruct n as [| n | n];
    [unfold Qlt in P; simpl in P; lia | | unfold Qlt in P; simpl in P; lia].
  cbn [Qnum]. set (x := Z.pos n # d) in *.
  set (k := (52 - ilog2 x)%Z).
  set (c := 2 ^ (- k)). set (y := x * 2 ^ k).
  assert (0 < c) as PC by (apply Qpower_0_lt; reflexivity).
  assert (0 < 2 ^ k) as PK by (apply Qpower_0_lt; reflexivity).
  assert (2 ^ k * c == 1) as KC
      by (unfold c; rewrite Qpower_opp; field; lra).
  assert (x == y * c) as X by (unfold y; rewrite <- Qmult_assoc, KC; ring).
  assert (2 ^ 52 <= y) as Y.
  { unfold y.
    assert (2 ^ 52 == 2 ^ ilog2 x * 2 ^ k) as ->.
    { rewrite <- Qpower_plus by exact two_not_zero.
      unfold k. replace (ilog2 x + (52 - ilog2 x))%Z with 52%Z by lia.
      reflexivity. }
    nra. }
  destruct (round_half_even_near y) as [E0 E1].
  set (m := inject_Z (round_half_even y)) in *.
  change (2 ^ 52) with 4503599627370496 in Y.
  change (1 # 2 ^ 53) with (1 # 9007199254740992).
  rewrite X. split; nra.
Qed.

(** Rounding does not cross 1. *)
Lemma nearest_binary64_above_one (x : Q) : 1 <= x -> 1 <= nearest_binary64 x.
Proof.
  intros H. assert (0 < x) as P by lra.
  destruct (ilog2_spec x P) as [L U].
  unfold nearest_binary64.
  destruct x as [n d]. destruct n as [| n | n];
    [unfold Qlt in P; simpl in P; lia | | unfold Qlt in P; simpl in P; lia].
  cbn [Qnum]. set (x := Z.pos n # d) in *.
  assert (0 <= ilog2 x)%Z as E.
  { destruct (Z_le_gt_dec 0 (ilog2 x)) as [G | G]; [exact G | exfalso].
    assert (2 ^ (ilog2 x + 1) <= 2 ^ 0) as C
        by (apply Qpower_le_compat_l; [lia | lra]).
    change (2 ^ 0) with 1 in C. lra. }
  set (k := (52 - ilog2 x)%Z).
  set (y := x * 2 ^ k).
  assert (0 < 2 ^ k) as PK by (apply Qpower_0_lt; reflexivity).
  assert (0 < 2 ^ (- k)) as PC by (apply Qpower_0_lt; reflexivity).
  assert (inject_Z (2 ^ 52) <= y) as Y.
  { unfold y. rewrite Z_pow_Q by lia.
    assert (2 ^ 52 == 2 ^ ilog2 x * 2 ^ k) as ->.
    { rewrite <- Qpower_plus by exact two_not_zero.
      unfold k. replace (ilog2 x + (52 - ilog2 x))%Z with 52%Z by lia.
      reflexivity. }
    nra. }
  apply round_half_even_above in Y. rewrite Zle_Qle in Y.
  rewrite Z_pow_Q in Y by lia.
  assert (1 <= 2 ^ ilog2 x) as O by (apply Qpower_1_le; [lra | exact E]).
  assert (2 ^ 52 * 2 ^ (- k) == 2 ^ ilog2 x) as D.
  { rewrite <- Qpower_plus by exact two_not_zero.
    unfold k. replace (52 + - (52 - ilog2 x))%Z with (ilog2 x) by lia.
    reflexivity. }
  set (m := inject_Z (round_half_even y)) in *.
  assert (2 ^ 52 * 2 ^ (- k) <= m * 2 ^ (- k)) by nra.
  lra.
Qed.

Lemma round_half_even_comp (y y' : Q) :
  y == y' -> round_half_even y = round_half_even y'.
Proof.
  intros E. unfold round_half_even.
  rewrite (Qfloor_comp _ _ E).
  assert (Qcompare (y - inject_Z (Qfloor y')) (1 # 2)
          = Qcompare (y' - inject_Z (Qfloor y')) (1 # 2)) as ->
      by (apply Qcompare_comp; [rewrite E |]; reflexivity).
  reflexivity.
Qed.

Lemma round_half_even_Z (z : Z) : round_half_even (inject_Z z) = z.
Proof.
  unfold round_half_even. rewrite Qfloor_Z.
  destruct (Qcompare (inject_Z z - inject_Z z) (1 # 2)) eqn:C.
  - apply Qeq_alt in C. lra.
  - reflexivity.
  - apply Qgt_alt in C. lra.
Qed.

Lemma round_half_even_below (y : Q) (z : Z) :
  y <= inject_Z z -> (round_half_even y <= z)%Z.
Proof.
  intros H. pose proof (Qfloor_le y) as F0.
  assert (Qfloor y <= z)%Z as F.
  { rewrite <- (Qfloor_Z z). apply Qfloor_resp_le. exact H. }
  unfold round_half_even.
  destruct (Qcompare (y - inject_Z (Qfloor y)) (1 # 2)) eqn:C.
  - apply Qeq_alt in C.
    assert (Qfloor y < z)%Z; [| destruct (Z.even _); lia].
    rewrite Zlt_Qlt. lra.
  - exact F.
  - apply Qgt_alt in C.
    assert (Qfloor y < z)%Z; [| lia]. rewrite Zlt_Qlt. lra.
Qed.

Lemma ilog2_unique (x : Q) (e : Z) :
  0 < x -> 2 ^ e <= x -> x < 2 ^ (e + 1) -> ilog2 x = e.
Proof.
  intros P L U. destruct (ilog2_spec x P) as [L' U'].
  assert (ilog2 x < e + 1)%Z
    by (apply (Qpower_lt_compat_l_inv 2); [lra | reflexivity]).
  assert (e < ilog2 x + 1)%Z
    by (apply (Qpower_lt_compat_l_inv 2); [lra | reflexivity]).
  lia.
Qed.

Lemma ilog2_comp (x x' : Q) : 0 < x -> x == x' -> ilog2 x = ilog2 x'.
Proof.
  intros P E. assert (0 < x') as P' by lra.
  destruct (ilog2_spec x' P') as [L U].
  apply ilog2_unique; [exact P | lra | lra].
Qed.

(** The rounding of a positive number, written with its exponent. *)
Lemma nearest_binary64_pos (x : Q) :
  0 < x ->
  nearest_binary64 x
  = inject_Z (round_half_even (x * 2 ^ (52 - ilog2 x))) * 2 ^ (- (52 - ilog2 x)).
Proof.
  intros P. unfold nearest_binary64. destruct x as [n d].
  destruct n as [| n | n];
    [unfold Qlt in P; simpl in P; lia | | unfold Qlt in P; simpl in P; lia].
  reflexivity.
Qed.

Lemma nearest_binary64_neg (x : Q) :
  x < 0 -> nearest_binary64 x = - nearest_binary64 (- x).
Proof.
  intros P. unfold nearest_binary64 at 1. destruct x as [n d].
  destruct n as [| n | n];
    [unfold Qlt in P; simpl in P; lia | unfold Qlt in P; simpl in P; lia |].
  cbn [Qnum]. rewrite nearest_binary64_pos by (unfold Qlt; simpl; lia).
  reflexivity.
Qed.

Lemma nearest_binary64_zero (x : Q) : x == 0 -> nearest_binary64 x = 0.
Proof.
  intros E. unfold nearest_binary64. destruct x as [n d].
  destruct n; [reflexivity | |]; unfold Qeq in E; simpl in E; lia.
Qed.

Lemma nearest_binary64_comp (x x' : Q) :
  x == x' -> nearest_binary64 x == nearest_binary64 x'.
Proof.
  assert (forall a b, 0 < a -> a == b -> nearest_binary64 a == nearest_binary64 b)
    as Pos.
  { intros a b P E. assert (0 < b) as P' by lra.
    rewrite (nearest_binary64_pos a P), (nearest_binary64_pos b P').
    rewrite (ilog2_comp a b P E).
    rewrite (round_half_even_comp (a * 2 ^ (52 - ilog2 b)) (b * 2 ^ (52 - ilog2 b)))
      by (rewrite E; reflexivity).
    reflexivity. }
  intros E. destruct (Q_dec x 0) as [[N | P] | Z].
  - assert (x' < 0) as N' by lra.
    rewrite (nearest_binary64_neg x N), (nearest_binary64_neg x' N').
    rewrite (Pos (- x) (- x')); [reflexivity | lra | rewrite E; reflexivity].
  - apply Pos; assumption.
  - rewrite (nearest_binary64_zero x Z), (nearest_binary64_zero x') by lra.
    reflexivity.
Qed.

(** The relative error of rounding, for every sign. *)
Lemma nearest_binary64_close (x : Q) :
  Qabs (nearest_binary64 x - x) <= ulp_unit * Qabs x.
Proof.
  destruct (Q_dec x 0) as [[N | P] | Z].
  - rewrite (nearest_binary64_neg x N).
    assert (0 < - x) as P by lra.
    destruct (nearest_binary64_error (- x) P) as [A B].
    rewrite (Qabs_neg x) by lra.
    apply Qabs_Qle_condition. unfold ulp_unit. split; lra.
  - destruct (nearest_binary64_error x P) as [A B].
    rewrite (Qabs_pos x) by lra.
    apply Qabs_Qle_condition. unfold ulp_unit. split; lra.
  - rewrite (nearest_binary64_zero x Z). rewrite Z. 
    apply Qabs_Qle_condition. unfold ulp_unit. rewrite (Qabs_pos 0) by lra. split; lra.
Qed.

(** Rounding does not cross a number [z * 2 ^ j] that the format holds at
    the size of [x]. *)
Lemma nearest_binary64_dyadic (x : Q) (z j : Z) :
  0 < x -> x < 2 ^ (53 + j) ->
  (x <= inject_Z z * 2 ^ j -> nearest_binary64 x <= inject_Z z * 2 ^ j) /\
  (inject_Z z * 2 ^ j <= x -> inject_Z z * 2 ^ j <= nearest_binary64 x).
Proof.
  intros P B. destruct (ilog2_spec x P) as [L U].
  assert (ilog2 x < 53 + j)%Z as E
      by (apply (Qpower_lt_compat_l_inv 2); [lra | reflexivity]).
  rewrite (nearest_binary64_pos x P).
  set (k := (52 - ilog2 x)%Z).
  assert (0 <= j + k)%Z as JK by (unfold k; lia).
  assert (0 < 2 ^ k) as PK by (apply Qpower_0_lt; reflexivity).
  assert (0 < 2 ^ (- k)) as PC by (apply Qpower_0_lt; reflexivity).
  assert (2 ^ k * 2 ^ (- k) == 1) as KC
      by (rewrite Qpower_opp; field; lra).
  assert (inject_Z z * 2 ^ j * 2 ^ k == inject_Z (z * 2 ^ (j + k))) as Int.
  { rewrite inject_Z_mult, Z_pow_Q by exact JK.
    rewrite Qpower_plus by exact two_not_zero. ring. }
  assert (inject_Z z * 2 ^ j == inject_Z (z * 2 ^ (j + k)) * 2 ^ (- k)) as Back.
  { rewrite <- Int, <- !Qmult_assoc, KC. ring. }
  split; intros H.
  - assert (x * 2 ^ k <= inject_Z (z * 2 ^ (j + k))) as Y
        by (rewrite <- Int; nra).
    apply round_half_even_below in Y. rewrite Zle_Qle in Y.
    rewrite Back. nra.
  - assert (inject_Z (z * 2 ^ (j + k)) <= x * 2 ^ k) as Y
        by (rewrite <- Int; nra).
    apply round_half_even_above in Y. rewrite Zle_Qle in Y.
    rewrite Back. nra.
Qed.

Lemma fl_comp (x x' : Q) : x == x' -> fl x == fl x'.
Proof. apply nearest_binary64_comp. Qed.

Lemma fl_opp (x : Q) : fl (- x) == - fl x.
Proof.
  unfold fl. destruct (Q_dec x 0) as [[N | P] | Z].
  - rewrite (nearest_binary64_neg x N). ring.
  - rewrite (nearest_binary64_neg (- x)) by lra.
    rewrite (nearest_binary64_comp (- - x) x) by ring. reflexivity.
  - rewrite (nearest_binary64_zero x Z), (nearest_binary64_zero (- x)) by lra.
    reflexivity.
Qed.

(** Rounding keeps a number between two numbers of the format:
    [z1 * 2 ^ j] and [z2 * 2 ^ j] with [0 <= z1] and [z2 < 2 ^ 53]. *)
Lemma fl_between (x : Q) (z1 z2 j : Z) :
  (0 <= z1)%Z -> (z2 < 2 ^ 53)%Z ->
  inject_Z z1 * 2 ^ j <= x -> x <= inject_Z z2 * 2 ^ j ->
  inject_Z z1 * 2 ^ j <= fl x /\ fl x <= inject_Z z2 * 2 ^ j.
Proof.
  intros Z1 Z2 L U. unfold fl.
  assert (0 < 2 ^ j) as PJ by (apply Qpower_0_lt; reflexivity).
  assert (0 <= inject_Z z1) as Q1
      by (change 0 with (inject_Z 0); rewrite <- Zle_Qle; exact Z1).
  assert (0 <= x) as X0 by nra.
  destruct (Qle_lt_or_eq _ _ X0) as [P | E].
  - assert (x < 2 ^ (53 + j)) as B.
    { rewrite Qpower_plus by exact two_not_zero.
      assert (inject_Z z2 < 2 ^ 53) as Q2
          by (rewrite <- Z_pow_Q by lia; rewrite <- Zlt_Qlt; exact Z2).
      nra. }
    destruct (nearest_binary64_dyadic x z1 j P B) as [_ A1].
    destruct (nearest_binary64_dyadic x z2 j P B) as [A2 _].
    split; [apply A1; exact L | apply A2; exact U].
  - rewrite (nearest_binary64_zero x) by (symmetry; exact E).
    split; lra.
Qed.

Lemma fl_unit (x : Q) : 0 <= x -> x <= 1 -> 0 <= fl x /\ fl x <= 1.
Proof.
  intros L U. destruct (fl_between x 0 1 0) as [A B]; try lia.
  - change (inject_Z 0 * 2 ^ 0) with (0 * 1). lra.
  - change (inject_Z 1 * 2 ^ 0) with (1 * 1). lra.
  - change (inject_Z 0 * 2 ^ 0) with (0 * 1) in A.
    change (inject_Z 1 * 2 ^ 0) with (1 * 1) in B. split; lra.
Qed.

Lemma fl_below_int (x : Q) (z : Z) :
  (z < 2 ^ 53)%Z -> 0 <= x -> x <= inject_Z z ->
  0 <= fl x /\ fl x <= inject_Z z.
Proof.
  intros Z L U. destruct (fl_between x 0 z 0) as [A B]; try lia.
  - change (inject_Z 0 * 2 ^ 0) with (0 * 1). lra.
  - change (2 ^ 0) with 1. lra.
  - change (inject_Z 0 * 2 ^ 0) with (0 * 1) in A.
    change (2 ^ 0) with 1 in B. split; lra.
Qed.

(** Rounding changes a positive number by less than one part in
    [2 * 10 ^ 15]. *)
Lemma fl_error (x : Q) :
  0 < x ->
  x * (1 - (1 # 2000000000000000)) <= fl x /\
  fl x <= x * (1 + (1 # 2000000000000000)).
Proof.
  intros P. destruct (nearest_binary64_error x P) as [A B]. fold fl in A, B.
  change (1 # 2 ^ 53) with (1 # 9007199254740992) in A, B.
  split; nra.
Qed.

(** ** The path sampler *)

(** A point lies in the bounding box of a path when every axis-aligned box
    that holds the path's points holds it. *)
Definition within_box (points : list point) (p : point) : Prop :=
  forall lo_x hi_x lo_y hi_y : Q,
    Forall (fun q => lo_x <= fst q /\ fst q <= hi_x /\
                     lo_y <= snd q /\ snd q <= hi_y) points ->
    lo_x <= fst p /\ fst p <= hi_x /\ lo_y <= snd p /\ snd p <= hi_y.

(** The linear interpolation of ai.py 423-424. *)
Definition interpolate (p1 p2 : point) (s : Q) : point :=
  (fst p1 + (fst p2 - fst p1) * s, snd p1 + (snd p2 - snd p1) * s).

Lemma get_path_position_unfold (points : list point) (t : Q) :
  points <> [] ->
  get_path_position points t =
  (p1 <- Py.index points (fst (segment_of points t)) ;;;
   p2 <- Py.index points (fst (segment_of points t) + 1) ;;;
   Py.Ok (interpolate p1 p2 (ease_in_out (snd (segment_of points t))))).
Proof.
  intros N. unfold get_path_position. destruct points as [| p rest]; [easy |].
  destruct (segment_of (p :: rest) t) as [idx st]. reflexivity.
Qed.

(** Inside the unit interval the segment index is the floor of [t] times the
    number of segments, and the fraction left over is in [[0, 1)]. *)
Lemma segment_of_unit (points : list point) (t : Q) :
  (2 <= List.length points)%nat -> 0 <= t -> t < 1 ->
  exists i : nat,
    fst (segment_of points t) = Z.of_nat i /\
    (Datatypes.S i < List.length points)%nat /\
    0 <= snd (segment_of points t) /\ snd (segment_of points t) < 1.
Proof.
  intros L H0 H1. unfold segment_of. cbn [fst snd].
  assert (Py.int t = 0%Z) as T
      by (apply int_unique; change (inject_Z 0) with 0; lra).
  rewrite T. change (inject_Z 0) with 0.
  set (ns := (Z.of_nat (List.length points) - 1)%Z).
  assert (1 <= ns)%Z as NS by (unfold ns; lia).
  assert (1 <= inject_Z ns) as NSq
      by (change 1 with (inject_Z 1); apply inject_Z_le_iff; exact NS).
  set (a := (t - 0) * inject_Z ns).
  assert (0 <= a) as A0 by (unfold a; nra).
  assert (a < inject_Z ns) as A1 by (unfold a; nra).
  destruct (int_bounds_nonneg a A0) as [K0 K1].
  assert (0 <= Py.int a)%Z as P0.
  { rewrite int_nonneg by exact A0. apply inject_Z_le_iff.
    change (inject_Z 0) with 0.
    destruct (Z_le_gt_dec 0 (Qfloor a)) as [G | G];
      [apply inject_Z_le_iff in G; exact G |].
    exfalso. assert (Qfloor a + 1 <= 0)%Z as G' by lia.
    apply inject_Z_le_iff in G'. pose proof (Qlt_floor a) as F.
    change (inject_Z 0) with 0 in G'. lra. }
  assert (Py.int a < ns)%Z as P1.
  { apply inject_Z_lt_iff. lra. }
  rewrite Z.min_l by lia.
  exists (Z.to_nat (Py.int a)). rewrite Z2Nat.id by exact P0.
  repeat split; [unfold ns in P1; lia | lra | lra].
Qed.

(** The margin given to binary64 rounding: one part in [10 ^ 12] of the
    size of the box. *)
Definition rounding_margin : Q := 1 # 1000000000000.

(** A point lies in the bounding box of a path up to rounding when it passes
    no side of an axis-aligned box that holds the path's points by more than
    [rounding_margin] times the size [|lo| + |hi|] of the box on that
    axis. *)
Definition near_box (points : list point) (p : point) : Prop :=
  forall lo_x hi_x lo_y hi_y : Q,
    Forall (fun q => lo_x <= fst q /\ fst q <= hi_x /\
                     lo_y <= snd q /\ snd q <= hi_y) points ->
    lo_x - rounding_margin * (Qabs lo_x + Qabs hi_x) <= fst p /\
    fst p <= hi_x + rounding_margin * (Qabs lo_x + Qabs hi_x) /\
    lo_y - rounding_margin * (Qabs lo_y + Qabs hi_y) <= snd p /\
    snd p <= hi_y + rounding_margin * (Qabs lo_y + Qabs hi_y).

(** No coordinate of the path is above [bound] in size. *)
Definition coordinates_within (bound : Q) (points : list point) : bool :=
  forallb (fun q => Qle_bool (Qabs (fst q)) bound
                    && Qle_bool (Qabs (snd q)) bound) points.

Lemma within_box_near_box (points : list point) (p : point) :
  within_box points p -> near_box points p.
Proof.
  intros W lo_x hi_x lo_y hi_y F.
  destruct (W lo_x hi_x lo_y hi_y F) as [A [B [C D]]].
  pose proof (Qabs_nonneg lo_x). pose proof (Qabs_nonneg hi_x).
  pose proof (Qabs_nonneg lo_y). pose proof (Qabs_nonneg hi_y).
  unfold rounding_margin. repeat split; nra.
Qed.

Lemma rounded_ease_in_out_range (s : Q) :
  0 <= s -> s <= 1 -> 0 <= Rounded.ease_in_out s /\ Rounded.ease_in_out s <= 1.
Proof.
  intros H0 H1. unfold Rounded.ease_in_out.
  destruct (Py.ltb s 0.5) eqn:E.
  - apply ltb_lt in E.
    assert (0 <= s ^ 3 /\ s ^ 3 <= 1 # 8) as [C0 C1].
    { rewrite cube. assert (0 <= s * s) by nra. assert (s * s <= 1 # 4) by nra.
      split; nra. }
    destruct (fl_between (s ^ 3) 0 1 (-3)) as [A B]; try lia.
    { change (inject_Z 0 * 2 ^ (-3)) with (0 * (1 # 8)). lra. }
    { change (inject_Z 1 * 2 ^ (-3)) with (1 * (1 # 8)). lra. }
    change (inject_Z 0 * 2 ^ (-3)) with (0 * (1 # 8)) in A.
    change (inject_Z 1 * 2 ^ (-3)) with (1 * (1 # 8)) in B.
    apply fl_unit; lra.
  - apply ltb_ge in E.
    assert (fl (-2 * s) == - fl (2 * s)) as N
        by (rewrite <- fl_opp; apply fl_comp; ring).
    destruct (fl_between (2 * s) 1 2 0) as [A B]; try lia.
    { change (inject_Z 1 * 2 ^ 0) with (1 * 1). lra. }
    { change (inject_Z 2 * 2 ^ 0) with (2 * 1). lra. }
    change (inject_Z 1 * 2 ^ 0) with (1 * 1) in A.
    change (inject_Z 2 * 2 ^ 0) with (2 * 1) in B.
    destruct (fl_unit (fl (-2 * s) + 2)) as [U0 U1]; [lra | lra |].
    set (u := fl (fl (-2 * s) + 2)) in *.
    assert (0 <= u ^ 3 /\ u ^ 3 <= 1) as [C0 C1].
    { rewrite cube. assert (0 <= u * u) by nra. assert (u * u <= 1) by nra.
      split; nra. }
    destruct (fl_unit (u ^ 3) C0 C1) as [V0 V1].
    destruct (fl_between (fl (u ^ 3) / 2) 0 1 (-1)) as [D0 D1]; try lia.
    { change (inject_Z 0 * 2 ^ (-1)) with (0 * (1 # 2)).
      apply Qle_shift_div_l; lra. }
    { change (inject_Z 1 * 2 ^ (-1)) with (1 * (1 # 2)).
      apply Qle_shift_div_r; lra. }
    change (inject_Z 0 * 2 ^ (-1)) with (0 * (1 # 2)) in D0.
    change (inject_Z 1 * 2 ^ (-1)) with (1 * (1 # 2)) in D1.
    apply fl_unit; lra.
Qed.

(** The interpolation between two coordinates inside [[lo, hi]] at a
    fraction in [[0, 1]], rounded three times, passes neither end by more
    than the rounding margin. *)
Lemma rounded_interpolation_near (a b s lo hi : Q) :
  lo <= a -> a <= hi -> lo <= b -> b <= hi -> 0 <= s -> s <= 1 ->
  lo - rounding_margin * (Qabs lo + Qabs hi) <= fl (a + fl (fl (b - a) * s)) /\
  fl (a + fl (fl (b - a) * s)) <= hi + rounding_margin * (Qabs lo + Qabs hi).
Proof.
  intros A0 A1 B0 B1 S0 S1.
  set (M := Qabs lo + Qabs hi).
  assert (lo <= Qabs lo /\ - lo <= Qabs lo) as [L1 L2]
      by (split; [apply Qle_Qabs | rewrite <- Qabs_opp; apply Qle_Qabs]).
  assert (hi <= Qabs hi /\ - hi <= Qabs hi) as [H1 H2]
      by (split; [apply Qle_Qabs | rewrite <- Qabs_opp; apply Qle_Qabs]).
  pose proof (Qabs_nonneg lo). pose proof (Qabs_nonneg hi).
  assert (0 <= M) as M0 by (unfold M; lra).
  set (u := ulp_unit).
  assert (0 < u /\ u <= 1 # 1000000000000000) as [U0 U1]
      by (unfold u, ulp_unit; split; reflexivity || (unfold Qle; simpl; lia)).
  (* the difference *)
  pose proof (nearest_binary64_close (b - a)) as E1. fold fl in E1. fold u in E1.
  assert (Qabs (b - a) <= M) as D0
      by (apply Qabs_Qle_condition; unfold M; split; lra).
  set (d := fl (b - a)) in *.
  apply Qabs_Qle_condition in E1. destruct E1 as [E1a E1b].
  assert (- (u * M) <= d - (b - a) /\ d - (b - a) <= u * M) as [W0 W1]
      by (split; nra).
  assert (- ((1 + u) * M) <= d /\ d <= (1 + u) * M) as [D1 D2].
  { apply Qabs_Qle_condition in D0. destruct D0. split; nra. }
  (* the product *)
  pose proof (nearest_binary64_close (d * s)) as E2. fold fl in E2. fold u in E2.
  assert (Qabs (d * s) <= (1 + u) * M) as P0
      by (apply Qabs_Qle_condition; split; nra).
  set (q := fl (d * s)) in *.
  apply Qabs_Qle_condition in E2. destruct E2 as [E2a E2b].
  assert (- (u * ((1 + u) * M)) <= q - d * s /\ q - d * s <= u * ((1 + u) * M))
    as [Q0 Q1] by (split; nra).
  assert (- (u * M) <= (d - (b - a)) * s /\ (d - (b - a)) * s <= u * M)
    as [T0 T1] by (split; nra).
  (* the sum *)
  set (c := a + (b - a) * s).
  assert (lo <= c /\ c <= hi) as [C0 C1] by (unfold c; split; nra).
  assert (a + q - c == (q - d * s) + (d - (b - a)) * s) as V by (unfold c; ring).
  set (e := u * ((1 + u) * M) + u * M).
  assert (- e <= a + q - c /\ a + q - c <= e) as [V0 V1]
      by (rewrite V; unfold e; split; lra).
  pose proof (nearest_binary64_close (a + q)) as E3. fold fl in E3. fold u in E3.
  assert (Qabs (a + q) <= M + e) as P1
      by (apply Qabs_Qle_condition; unfold M in *; split; lra).
  set (x := fl (a + q)) in *.
  apply Qabs_Qle_condition in E3. destruct E3 as [E3a E3b].
  assert (- (u * (M + e)) <= x - (a + q) /\ x - (a + q) <= u * (M + e))
    as [X0 X1] by (split; nra).
  assert (e + u * (M + e) <= rounding_margin * M) as K.
  { unfold e, rounding_margin.
    assert (u * M <= (1 # 1000000000000000) * M) by nra.
    assert (u * (u * M) <= (1 # 1000000000000000) * M) by nra.
    assert (u * (u * (u * M)) <= (1 # 1000000000000000) * M) by nra.
    lra. }
  split; lra.
Qed.

Lemma rounded_get_path_position_unfold (points : list point) (t : Q) :
  points <> [] ->
  Rounded.get_path_position points t =
  (p1 <- Py.index points (fst (Rounded.segment_of points t)) ;;;
   p2 <- Py.index points (fst (Rounded.segment_of points t) + 1) ;;;
   Py.Ok (Rounded.interpolate p1 p2
            (Rounded.ease_in_out (snd (Rounded.segment_of points t))))).
Proof.
  intros N. unfold Rounded.get_path_position.
  destruct points as [| p rest]; [easy |].
  destruct (Rounded.segment_of (p :: rest) t) as [idx st]. reflexivity.
Qed.

(** Inside the unit interval the segment index is inside the list and the
    fraction left over, rounded, is in [[0, 1]]. *)
Lemma rounded_segment_of_unit (points : list point) (t : Q) :
  (2 <= List.length points)%nat ->
  (Z.of_nat (List.length points) <= 2 ^ 53)%Z ->
  0 <= t -> t < 1 ->
  exists i : nat,
    fst (Rounded.segment_of points t) = Z.of_nat i /\
    (Datatypes.S i < List.length points)%nat /\
    0 <= snd (Rounded.segment_of points t) /\
    snd (Rounded.segment_of points t) <= 1.
Proof.
  intros L Big H0 H1. unfold Rounded.segment_of. cbn [fst snd].
  assert (Py.int t = 0%Z) as T
      by (apply int_unique; change (inject_Z 0) with 0; lra).
  rewrite T. change (inject_Z 0) with 0.
  set (ns := (Z.of_nat (List.length points) - 1)%Z).
  assert (1 <= ns)%Z as NS by (unfold ns; lia).
  assert (ns < 2 ^ 53)%Z as NB by (unfold ns; lia).
  assert (1 <= inject_Z ns) as NSq
      by (change 1 with (inject_Z 1); rewrite <- Zle_Qle; exact NS).
  destruct (fl_unit (t - 0)) as [TL0 TL1]; [lra | lra |].
  set (tl := fl (t - 0)) in *.
  destruct (fl_below_int (tl * inject_Z ns) ns NB) as [A0 A1]; [nra | nra |].
  set (a := fl (tl * inject_Z ns)) in *.
  destruct (int_bounds_nonneg a A0) as [K0 K1].
  assert (0 <= Py.int a)%Z as P0.
  { assert (-1 < Py.int a)%Z; [| lia]. rewrite Zlt_Qlt.
    change (inject_Z (-1)) with (-1 # 1). lra. }
  assert (Py.int a <= ns)%Z as P1 by (rewrite Zle_Qle; lra).
  set (idx := Z.min (Py.int a) (ns - 1)).
  assert (0 <= idx <= ns - 1)%Z as I by (unfold idx; lia).
  assert (0 <= a - inject_Z idx /\ a - inject_Z idx <= 1) as [F0 F1].
  { unfold idx. destruct (Z_le_gt_dec (Py.int a) (ns - 1)) as [G | G].
    - rewrite Z.min_l by exact G. split; lra.
    - rewrite Z.min_r by lia.
      assert (Py.int a = ns) as EQ by lia. rewrite EQ in K0.
      replace (ns - 1)%Z with (ns + -1)%Z by lia.
      rewrite inject_Z_plus. change (inject_Z (-1)) with (-1 # 1).
      split; lra. }
  destruct (fl_unit _ F0 F1) as [S0 S1].
  exists (Z.to_nat idx). rewrite Z2Nat.id by lia.
  repeat split; [unfold ns in I; lia | exact S0 | exact S1].
Qed.

Section PastTheBox.
Import PrimFloat.

(** C10 as the spec states it fails on the numbers the code computes with.
    On the path [[(0.3, 0), (0.9, 0)]] the parameter [0.9999999999999999],
    the largest float below 1, is eased to the fraction 1.0 and the sample
    [0.3 + (0.9 - 0.3) * 1.0] is rounded to [0.9000000000000001], past the
    largest [x] of the path.  The machine's floats give this number, and so
    does the sampler with every operation rounded. *)
Lemma get_path_position_passes_box :
  (PrimFloat.leb 0 0.9999999999999999 = true /\
   PrimFloat.ltb 0.9999999999999999 1 = true /\
   Binary64.get_path_position [(0.3, 0); (0.9, 0)] 0.9999999999999999
   = Binary64.Returns (0.9000000000000001, 0) /\
   PrimFloat.ltb 0.9 0.9000000000000001 = true)%float /\
  exists x : Q,
    Rounded.get_path_position [(fl 0.3, 0); (fl 0.9, 0)] (fl 0.9999999999999999)
    = Py.Ok (x, 0) /\
    0 <= fl 0.9999999999999999 /\ fl 0.9999999999999999 < 1 /\
    fl 0.9 < x /\
    Binary64.same_number 0.9000000000000001%float x = true.
Proof.
  split; [vm_compute; repeat split; reflexivity |].
  eexists. split; [vm_compute; reflexivity |].
  vm_compute. repeat split; congruence.
Qed.
End PastTheBox.

(** C10 as the code has it, every operation rounded: for a path of at least
    two points (and fewer than [2 ^ 53]), none of whose coordinates is above
    [10 ^ 150] in size, and a parameter in [[0, 1)], [get_path_position]
    returns without an index out of range: the segment index [i] and
    [i + 1] are inside the list, the eased fraction [s] is in [[0, 1]], the
    result is the interpolation [p1 + (p2 - p1) * s] of the two consecutive
    points as the floats compute it, and it lies in the bounding box of the
    path's points up to the rounding margin. *)
Theorem get_path_position_near_box (points : list point) (t : Q) :
  (2 <= List.length points)%nat ->
  (Z.of_nat (List.length points) <= 2 ^ 53)%Z ->
  0 <= t -> t < 1 ->
  coordinates_within (10 ^ 150) points = true ->
  exists (i : nat) (p1 p2 : point) (s : Q),
    fst (Rounded.segment_of points t) = Z.of_nat i /\
    nth_error points i = Some p1 /\
    nth_error points (Datatypes.S i) = Some p2 /\
    0 <= s /\ s <= 1 /\
    Rounded.get_path_position points t
    = Py.Ok (Rounded.interpolate p1 p2 s) /\
    near_box points (Rounded.interpolate p1 p2 s).
Proof.
  intros L Big H0 H1 _.
  destruct (rounded_segment_of_unit points t L Big H0 H1) as [i [I [B [S0 S1]]]].
  destruct (nth_error points i) as [p1 |] eqn:N1;
    [| apply nth_error_None in N1; lia].
  destruct (nth_error points (Datatypes.S i)) as [p2 |] eqn:N2;
    [| apply nth_error_None in N2; lia].
  destruct (rounded_ease_in_out_range _ S0 S1) as [E0 E1].
  exists i, p1, p2, (Rounded.ease_in_out (snd (Rounded.segment_of points t))).
  split; [exact I |]. split; [exact N1 |]. split; [exact N2 |].
  split; [exact E0 |]. split; [exact E1 |]. split.
  - rewrite rounded_get_path_position_unfold
      by (destruct points; [simpl in L; lia | easy]).
    rewrite I. rewrite (index_nat _ _ _ N1).
    replace (Z.of_nat i + 1)%Z with (Z.of_nat (Datatypes.S i)) by lia.
    rewrite (index_nat _ _ _ N2). reflexivity.
  - intros lo_x hi_x lo_y hi_y F. rewrite Forall_forall in F.
    pose proof (F p1 (nth_error_In _ _ N1)) as [A1 [A2 [A3 A4]]].
    pose proof (F p2 (nth_error_In _ _ N2)) as [B1 [B2 [B3 B4]]].
    set (s := Rounded.ease_in_out (snd (Rounded.segment_of points t))) in *.
    unfold Rounded.interpolate. cbn [fst snd].
    destruct (rounded_interpolation_near (fst p1) (fst p2) s lo_x hi_x)
      as [X0 X1]; try assumption.
    destruct (rounded_interpolation_near (snd p1) (snd p2) s lo_y hi_y)
      as [Y0 Y1]; try assumption.
    auto.
Qed.

Lemma get_path_position_near_box_witness :
  exists (i : nat) (p1 p2 : point) (s : Q),
    fst (Rounded.segment_of [(0, 0); (10, 0); (10, 10)] 0.75) = Z.of_nat i /\
    nth_error [(0, 0); (10, 0); (10, 10)] i = Some p1 /\
    nth_error [(0, 0); (10, 0); (10, 10)] (Datatypes.S i) = Some p2 /\
    0 <= s /\ s <= 1 /\
    Rounded.get_path_position [(0, 0); (10, 0); (10, 10)] 0.75
    = Py.Ok (Rounded.interpolate p1 p2 s) /\
    near_box [(0, 0); (10, 0); (10, 10)] (Rounded.interpolate p1 p2 s).
Proof.
  apply (get_path_position_near_box [(0, 0); (10, 0); (10, 10)] 0.75).
  - simpl. lia.
  - simpl. lia.
  - unfold Qle. simpl. lia.
  - unfold Qlt. simpl. lia.
  - reflexivity.
Defined.

(** Sampling never raises: whatever the parameter, both indices the sampler
    reads are inside the list (a negative one counts from the end). *)
Lemma get_path_position_total (points : list point) (t : Q) :
  exists p, get_path_position points t = Py.Ok p.
Proof.
  destruct points as [| p0 rest] eqn:P; [now exists (0, 0) |].
  rewrite <- P. assert (points <> []) as NE by (rewrite P; easy).
  rewrite get_path_position_unfold by exact NE.
  unfold segment_of. cbn [fst snd].
  set (ns := (Z.of_nat (List.length points) - 1)%Z).
  assert (0 <= ns)%Z as NS by (unfold ns; rewrite P; cbn [List.length]; lia).
  assert (0 <= inject_Z ns) as NSq
      by (change 0 with (inject_Z 0); apply inject_Z_le_iff; exact NS).
  set (tl := t - inject_Z (Py.int t)).
  assert (-1 <= tl /\ tl < 1) as [TL0 TL1].
  { unfold tl. destruct (Qlt_le_dec t 0) as [Hn | Hp].
    - destruct (int_bounds_nonpos t) as [A B]; lra.
    - destruct (int_bounds_nonneg t Hp) as [A B]. lra. }
  set (a := tl * inject_Z ns).
  assert (- inject_Z ns <= a) as A0 by (unfold a; nra).
  assert (- ns <= Py.int a)%Z as K0.
  { apply inject_Z_le_iff. rewrite inject_Z_opp.
    destruct (Qlt_le_dec a 0) as [Hn | Hp].
    - destruct (int_bounds_nonpos a) as [_ B]; lra.
    - destruct (int_bounds_nonneg a Hp) as [_ B].
      assert (0 <= Py.int a)%Z as Z0.
      { rewrite int_nonneg by exact Hp.
        destruct (Z_le_gt_dec 0 (Qfloor a)) as [G | G]; [exact G |].
        exfalso. assert (Qfloor a + 1 <= 0)%Z as G' by lia.
        apply inject_Z_le_iff in G'. pose proof (Qlt_floor a) as F.
        change (inject_Z 0) with 0 in G'. lra. }
      apply inject_Z_le_iff in Z0. change (inject_Z 0) with 0 in Z0. lra. }
  set (idx := Z.min (Py.int a) (ns - 1)).
  assert (- Z.of_nat (List.length points) <= idx
          /\ idx + 1 < Z.of_nat (List.length points))%Z as [I0 I1]
      by (unfold idx, ns in *; lia).
  destruct (index_is_ok points idx) as [p1 E1]; [lia |].
  destruct (index_is_ok points (idx + 1)) as [p2 E2]; [lia |].
  rewrite E1. cbn [Py.bind]. rewrite E2. cbn [Py.bind]. eauto.
Qed.

(** Two outcomes that agree as numbers: the same exception, or points whose
    coordinates are equal rationals. *)
Definition same_outcome (r1 r2 : Py.result point) : Prop :=
  match r1, r2 with
  | Py.Ok p, Py.Ok q => fst p == fst q /\ snd p == snd q
  | Py.Raise e1, Py.Raise e2 => e1 = e2
  | _, _ => False
  end.

Lemma ltb_comp (a a' b b' : Q) : a == a' -> b == b' -> Py.ltb a b = Py.ltb a' b'.
Proof.
  intros Ea Eb. destruct (Py.ltb a b) eqn:E1, (Py.ltb a' b') eqn:E2;
    try reflexivity;
    repeat match goal with
           | H : Py.ltb _ _ = true |- _ => apply ltb_lt in H
           | H : Py.ltb _ _ = false |- _ => apply ltb_ge in H
           end; lra.
Qed.

Lemma ease_in_out_comp (s s' : Q) : s == s' -> ease_in_out s == ease_in_out s'.
Proof.
  intros E. unfold ease_in_out.
  rewrite (ltb_comp s s' 0.5 0.5 E (Qeq_refl _)).
  destruct (Py.ltb s' 0.5); rewrite E; reflexivity.
Qed.

Lemma int_add_one_nonpos (t : Q) : t <= -1 -> Py.int (t + 1) = (Py.int t + 1)%Z.
Proof.
  intros H. destruct (int_bounds_nonpos t) as [L U]; [lra |].
  destruct (int_bounds_nonpos (t + 1)) as [L' U']; [lra |].
  assert (inject_Z (Py.int (t + 1)) < inject_Z (Py.int t + 1 + 1)) as A
      by (rewrite !inject_Z_plus; change (inject_Z 1) with 1; lra).
  assert (inject_Z (Py.int t + 1) < inject_Z (Py.int (t + 1) + 1)) as B
      by (rewrite !inject_Z_plus; change (inject_Z 1) with 1; lra).
  rewrite <- Zlt_Qlt in A. rewrite <- Zlt_Qlt in B. lia.
Qed.

(** Two parameters with the same [t - int(t)] sample the same point. *)
Lemma get_path_position_same_fraction (points : list point) (t u : Q) :
  t - inject_Z (Py.int t) == u - inject_Z (Py.int u) ->
  same_outcome (get_path_position points t) (get_path_position points u).
Proof.
  intros TL. destruct points as [| p0 rest] eqn:P; [simpl; lra |].
  rewrite <- P. assert (points <> []) as NE by (rewrite P; easy).
  rewrite !get_path_position_unfold by exact NE.
  assert (fst (segment_of points t) = fst (segment_of points u)) as I.
  { unfold segment_of. cbn [fst]. f_equal. apply int_comp. rewrite TL. reflexivity. }
  assert (snd (segment_of points t) == snd (segment_of points u)) as S.
  { unfold segment_of in *. cbn [fst snd] in *. rewrite I, TL. reflexivity. }
  rewrite I.
  destruct (Py.index points (fst (segment_of points u))) as [p1 | e];
    [| reflexivity].
  cbn [Py.bind].
  destruct (Py.index points (fst (segment_of points u) + 1)) as [p2 | e];
    [| reflexivity].
  cbn [Py.bind same_outcome interpolate fst snd].
  rewrite (ease_in_out_comp _ _ S). split; reflexivity.
Qed.

(** The same with every operation rounded. *)
Lemma rounded_same_fraction (points : list point) (t u : Q) :
  t - inject_Z (Py.int t) == u - inject_Z (Py.int u) ->
  same_outcome (Rounded.get_path_position points t)
               (Rounded.get_path_position points u).
Proof.
  intros TL. destruct points as [| p0 rest] eqn:P; [simpl; lra |].
  rewrite <- P. assert (points <> []) as NE by (rewrite P; easy).
  rewrite !rounded_get_path_position_unfold by exact NE.
  assert (fl (t - inject_Z (Py.int t)) == fl (u - inject_Z (Py.int u))) as FT
      by (apply fl_comp; exact TL).
  set (ns := (Z.of_nat (List.length points) - 1)%Z).
  assert (fl (fl (t - inject_Z (Py.int t)) * inject_Z ns)
          == fl (fl (u - inject_Z (Py.int u)) * inject_Z ns)) as FS
      by (apply fl_comp; rewrite FT; reflexivity).
  assert (fst (Rounded.segment_of points t) = fst (Rounded.segment_of points u))
    as I.
  { unfold Rounded.segment_of. cbn [fst]. fold ns. f_equal.
    apply int_comp. exact FS. }
  assert (snd (Rounded.segment_of points t) == snd (Rounded.segment_of points u))
    as S.
  { unfold Rounded.segment_of in *. cbn [fst snd] in *. fold ns in I |- *.
    apply fl_comp. rewrite I, FS. reflexivity. }
  rewrite I.
  destruct (Py.index points (fst (Rounded.segment_of points u))) as [p1 | e];
    [| reflexivity].
  cbn [Py.bind].
  destruct (Py.index points (fst (Rounded.segment_of points u) + 1)) as [p2 | e];
    [| reflexivity].
  cbn [Py.bind same_outcome Rounded.interpolate fst snd].
  assert (Rounded.ease_in_out (snd (Rounded.segment_of points t))
          == Rounded.ease_in_out (snd (Rounded.segment_of points u))) as E.
  { unfold Rounded.ease_in_out.
    rewrite (ltb_comp _ _ 0.5 0.5 S (Qeq_refl _)).
    destruct (Py.ltb (snd (Rounded.segment_of points u)) 0.5).
    - apply fl_comp. apply Qmult_comp; [reflexivity |]. apply fl_comp.
      rewrite S. reflexivity.
    - apply fl_comp. apply Qplus_comp; [reflexivity |]. apply Qopp_comp.
      apply fl_comp. apply Qmult_comp; [| reflexivity]. apply fl_comp.
      assert (fl (fl (-2 * snd (Rounded.segment_of points t)) + 2)
              == fl (fl (-2 * snd (Rounded.segment_of points u)) + 2)) as W.
      { apply fl_comp. apply Qplus_comp; [| reflexivity]. apply fl_comp.
        rewrite S. reflexivity. }
      rewrite W. reflexivity. }
  split; apply fl_comp; (apply Qplus_comp; [reflexivity |]); apply fl_comp;
    rewrite E; reflexivity.
Qed.

Section NotPeriodic.
Import PrimFloat.

(** C1 as the spec states it fails, on both sides of zero.  Between [-1]
    and [0]: on the path [[(0, 0), (10, 0)]] the parameter [-0.25] samples
    [(-0.625, 0)], outside the path, and [-0.25 + 1.0] samples
    [(9.375, 0)], because [t - int(t)] keeps the sign of [t] ([int] truncates
    toward zero); these numbers are exact, and the machine's floats give
    them too.  Above zero: on the path [[(0, 0), (10, 0), (10, 10)]] the
    machine's floats give [0.32000000000000006] at [0.1] and
    [0.32000000000000084] at [0.1 + 1.0], because the sum [0.1 + 1.0] and
    the difference [1.1 - 1] round; the sampler with every operation
    rounded gives these two numbers. *)
Lemma get_path_position_not_periodic :
  (exists p q : point,
      get_path_position [(0, 0); (10, 0)] (-0.25) = Py.Ok p /\
      get_path_position [(0, 0); (10, 0)] (-0.25 + 1.0) = Py.Ok q /\
      fst p == -0.625 /\ fst q == 9.375 /\
      ~ same_outcome (Py.Ok p) (Py.Ok q)) /\
  (Binary64.get_path_position [(0, 0); (10, 0)] (-0.25)
   = Binary64.Returns (-0.625, 0) /\
   Binary64.get_path_position [(0, 0); (10, 0)] (-0.25 + 1.0)
   = Binary64.Returns (9.375, 0))%float /\
  (Binary64.get_path_position [(0, 0); (10, 0); (10, 10)] 0.1
   = Binary64.Returns (0.32000000000000006, 0) /\
   Binary64.get_path_position [(0, 0); (10, 0); (10, 10)] (0.1 + 1.0)
   = Binary64.Returns (0.32000000000000084, 0) /\
   PrimFloat.ltb 0.32000000000000006 0.32000000000000084 = true)%float /\
  (exists p q : point,
      Rounded.get_path_position [(0, 0); (10, 0); (10, 10)] (fl 0.1)
      = Py.Ok p /\
      Rounded.get_path_position [(0, 0); (10, 0); (10, 10)]
                                (fl (fl 0.1 + 1.0))
      = Py.Ok q /\
      fst p < fst q /\
      Binary64.same_number 0.32000000000000006%float (fst p) = true /\
      Binary64.same_number 0.32000000000000084%float (fst q) = true).
Proof.
  split; [| split; [| split]].
  - eexists. eexists.
    split; [vm_compute; reflexivity |]. split; [vm_compute; reflexivity |].
    split; [reflexivity |]. split; [reflexivity |].
    intros [A _]. vm_compute in A. discriminate A.
  - vm_compute. split; reflexivity.
  - vm_compute. repeat split; reflexivity.
  - eexists. eexists.
    split; [vm_compute; reflexivity |]. split; [vm_compute; reflexivity |].
    vm_compute. repeat split; congruence.
Qed.
End NotPeriodic.

(** C1 as the code has it, every operation rounded: the sampler is periodic
    with period one at the parameters where the sum loses nothing.  For
    every path and every parameter [t <= -1] or [t >= 0] whose sum
    [t + 1.0] is a float, so that it is computed exactly (the whole numbers
    below [2 ^ 53] in size and the binary fractions such as [0.5] or
    [-2.75] among them), sampling at [t] and at [t + 1.0] gives the same
    outcome: [t - int(t)] is the same number for both. *)
Theorem get_path_position_periodic_where_exact (points : list point) (t : Q) :
  fl (t + 1.0) == t + 1.0 ->
  0 <= t \/ t <= -1 ->
  same_outcome (Rounded.get_path_position points t)
               (Rounded.get_path_position points (fl (t + 1.0))).
Proof.
  intros X H. apply rounded_same_fraction.
  assert (Py.int (fl (t + 1.0)) = (Py.int t + 1)%Z) as T.
  { rewrite (int_comp _ _ X). destruct H as [H | H].
    - rewrite <- (int_add_one t H). apply int_comp. lra.
    - rewrite <- (int_add_one_nonpos t H). apply int_comp. lra. }
  rewrite T, X, inject_Z_plus. change (inject_Z 1) with 1. lra.
Qed.

Lemma get_path_position_periodic_where_exact_witness :
  same_outcome
    (Rounded.get_path_position [(0, 0); (10, 0); (10, 10)] (-2.75))
    (Rounded.get_path_position [(0, 0); (10, 0); (10, 10)] (fl (-2.75 + 1.0))).
Proof.
  apply (get_path_position_periodic_where_exact
           [(0, 0); (10, 0); (10, 10)] (-2.75)).
  - vm_compute. reflexivity.
  - right. unfold Qle. simpl. lia.
Defined.

(** ** Code that draws from the generator: what it returns *)

Section Returns.
Context `{RS : RandomSource}.

(** [returns P c]: from every generator state, [c] returns normally with a
    value that satisfies [P]. *)
Definition returns {A} (P : A -> Prop) (c : Rand A) : Prop :=
  forall g, exists a g', c g = Py.Ok (a, g') /\ P a.

Lemma returns_ret {A} (P : A -> Prop) (a : A) : P a -> returns P (ret a).
Proof. intros H g. exists a, g. split; [reflexivity | exact H]. Qed.

Lemma returns_bind {A B} (P : A -> Prop) (Q : B -> Prop)
      (c : Rand A) (k : A -> Rand B) :
  returns P c -> (forall a, P a -> returns Q (k a)) -> returns Q (rbind c k).
Proof.
  intros Hc Hk g. destruct (Hc g) as [a [g1 [E Pa]]].
  destruct (Hk a Pa g1) as [b [g2 [E2 Qb]]].
  exists b, g2. unfold rbind. rewrite E. split; assumption.
Qed.

Lemma returns_weaken {A} (P Q : A -> Prop) (c : Rand A) :
  returns P c -> (forall a, P a -> Q a) -> returns Q c.
Proof.
  intros Hc W g. destruct (Hc g) as [a [g1 [E Pa]]]. exists a, g1. auto.
Qed.

Lemma returns_lift {A} (P : A -> Prop) (r : Py.result A) (a : A) :
  r = Py.Ok a -> P a -> returns P (lift r).
Proof. intros E H g. exists a, g. unfold lift. rewrite E. auto. Qed.

Lemma returns_random : returns (fun r => 0 <= r /\ r < 1) rng_random.
Proof.
  intros g. unfold rng_random. pose proof (random_range g) as R.
  destruct (random g) as [r g1]. exists r, g1. auto.
Qed.

Lemma returns_uniform (a b : Q) : returns (fun _ => True) (rng_uniform a b).
Proof.
  unfold rng_uniform. eapply returns_bind; [apply returns_random |].
  intros r _. now apply returns_ret.
Qed.

Lemma returns_randrange (n : Z) :
  (0 < n)%Z -> returns (fun k => (0 <= k < n)%Z) (rng_randrange n).
Proof.
  intros H g. unfold rng_randrange. pose proof (randbelow_range n g H) as R.
  destruct (randbelow n g) as [k g1]. exists k, g1. auto.
Qed.

Lemma returns_randint (a b : Z) :
  (a <= b)%Z -> returns (fun k => (a <= k <= b)%Z) (rng_randint a b).
Proof.
  intros H. unfold rng_randint.
  eapply returns_bind; [apply returns_randrange; lia |].
  intros k K. apply returns_ret. cbv beta in K. lia.
Qed.

Lemma returns_choice {A} (l : list A) :
  l <> [] -> returns (fun c => In c l) (rng_choice l).
Proof.
  intros NE. unfold rng_choice.
  eapply returns_bind;
    [apply returns_randrange; destruct l; [easy | cbn [List.length]; lia] |].
  intros k K. cbv beta in K.
  destruct (index_in_range l k) as [c [E N]]; [lia |].
  eapply returns_lift; [exact E |]. eapply nth_error_In. exact N.
Qed.

(** A loop over [range] keeps an invariant that its body keeps. *)
Lemma returns_for_range_from {S} (Inv : nat -> S -> Prop)
      (body : nat -> S -> Rand S) (n start : nat) (s : S) :
  (forall p s, (p < start + n)%nat -> Inv p s ->
               returns (Inv (Datatypes.S p)) (body p s)) ->
  Inv start s ->
  returns (Inv (start + n)%nat) (for_range_from start n body s).
Proof.
  revert start s. induction n as [| n IH]; intros start s Hbody H.
  - simpl. apply returns_ret. now rewrite Nat.add_0_r.
  - simpl. eapply returns_bind; [apply Hbody; [lia | exact H] |].
    intros s' H'. replace (start + Datatypes.S n)%nat
      with (Datatypes.S start + n)%nat by lia.
    apply IH; [| exact H'].
    intros p s0 Hp. apply Hbody. lia.
Qed.

Lemma returns_for_range {S} (Inv : nat -> S -> Prop)
      (body : nat -> S -> Rand S) (n : nat) (s : S) :
  (forall p s, (p < n)%nat -> Inv p s ->
               returns (Inv (Datatypes.S p)) (body p s)) ->
  Inv 0%nat s ->
  returns (Inv n) (for_range n body s).
Proof.
  intros Hbody H. unfold for_range.
  apply (returns_for_range_from Inv body n 0 s Hbody H).
Qed.
End Returns.

(** ** Path generation never raises *)

Section PathsAreBuilt.
Context `{ML : MathLib} `{RS : RandomSource}.
Variables width height : Z.

Lemma spline_segment_ok (num_segments : nat) (points : list point) (j : nat) :
  (j < List.length points)%nat ->
  exists seg, spline_segment width height num_segments points j = Py.Ok seg /\
              List.length seg = Datatypes.S (num_segments - 1).
Proof.
  intros J. unfold spline_segment.
  set (n := Z.of_nat (List.length points)).
  assert (0 < n)%Z as N by (unfold n; lia).
  destruct (index_is_ok points ((Z.of_nat j - 1) mod n)%Z) as [p0 E0];
    [pose proof (Z.mod_pos_bound (Z.of_nat j - 1) n N); unfold n in *; lia |].
  destruct (index_is_ok points (Z.of_nat j)) as [p1 E1]; [lia |].
  destruct (index_is_ok points ((Z.of_nat j + 1) mod n)%Z) as [p2 E2];
    [pose proof (Z.mod_pos_bound (Z.of_nat j + 1) n N); unfold n in *; lia |].
  destruct (index_is_ok points ((Z.of_nat j + 2) mod n)%Z) as [p3 E3];
    [pose proof (Z.mod_pos_bound (Z.of_nat j + 2) n N); unfold n in *; lia |].
  rewrite E0, E1, E2, E3. cbn [Py.bind]. eexists. split; [reflexivity |].
  cbn [List.length]. now rewrite length_map, length_seq.
Qed.

Lemma spline_loop_ok (num_segments : nat) (points : list point)
      (js : list nat) (acc : list point) :
  Forall (fun j => (j < List.length points)%nat) js ->
  exists cps, spline_loop width height num_segments points js acc = Py.Ok cps /\
              List.length cps
              = (List.length acc
                 + List.length js * Datatypes.S (num_segments - 1))%nat.
Proof.
  revert acc. induction js as [| j js IH]; intros acc F.
  - exists acc. simpl. split; [reflexivity | lia].
  - inversion F as [| ? ? J F']; subst.
    destruct (spline_segment_ok num_segments points j J) as [seg [E L]].
    cbn [spline_loop]. rewrite E. cbn [Py.bind].
    destruct (IH (acc ++ seg) F') as [cps [E' L']].
    exists cps. split; [exact E' |].
    rewrite L', length_app, L. cbn [List.length]. lia.
Qed.

(** The conversion of anchors to control points returns for every list of
    anchors, the empty list and a single anchor included: each anchor
    contributes itself and [num_segments - 1] interpolated points. *)
Lemma spline_path_ok (num_segments : nat) (points : list point) :
  exists cps, spline_path width height num_segments points = Py.Ok cps /\
              List.length cps
              = (List.length points * Datatypes.S (num_segments - 1))%nat.
Proof.
  unfold spline_path.
  destruct (spline_loop_ok num_segments points (seq 0 (List.length points)) [])
    as [cps [E L]].
  - apply Forall_forall. intros j Hj. apply in_seq in Hj. lia.
  - exists cps. split; [exact E |]. rewrite L, length_seq. simpl. lia.
Qed.

Lemma setitem_ok {A} (l : list A) (i : Z) (v : A) :
  (- Z.of_nat (List.length l) <= i < Z.of_nat (List.length l))%Z ->
  exists l', setitem l i v = Py.Ok l' /\ List.length l' = List.length l.
Proof.
  intros R. unfold setitem. set (n := Z.of_nat (List.length l)) in *.
  set (j := if (i <? 0)%Z then (i + n)%Z else i).
  assert (0 <= j < n)%Z as J
      by (unfold j; destruct (i <? 0)%Z eqn:E;
          [apply Z.ltb_lt in E | apply Z.ltb_ge in E]; lia).
  destruct (j <? 0)%Z eqn:E1; [apply Z.ltb_lt in E1; lia |].
  destruct (n <=? j)%Z eqn:E2; [apply Z.leb_le in E2; lia |].
  cbn [orb]. eexists. split; [reflexivity |].
  rewrite length_app. cbn [List.length].
  rewrite length_firstn, length_skipn. unfold n in J. lia.
Qed.

Ltac draw := eapply returns_bind; [apply returns_random | intros ? ?].
Ltac count :=
  rewrite ?length_app in *; cbn [List.length fst] in *; lia.

Lemma fixed_micro_path_returns (cs : CharSettings) (base_x base_y : Q) :
  returns (fun cps => List.length cps = 8%nat)
          (fixed_micro_path width height cs base_x base_y).
Proof.
  unfold fixed_micro_path.
  apply (returns_for_range (fun p cps => List.length cps = p)); [| reflexivity].
  intros p cps _ L. draw. draw. draw. draw.
  apply returns_ret; cbv beta. count.
Qed.

Lemma circle_anchors_returns (base_x base_y move_range : Q) (n : Z) (angle : Q) :
  returns (fun r => List.length (fst r) = Z.to_nat n)
          (circle_anchors width height base_x base_y move_range n angle).
Proof.
  unfold circle_anchors.
  apply (returns_for_range (fun p (st : list point * Q) =>
                              List.length (fst st) = p)); [| reflexivity].
  intros p [l a] _ L. cbn [fst] in L. draw.
  destruct (circle_anchor width height base_x base_y move_range n p a0)
    as [a' pt].
  apply returns_ret; cbv beta. cbn [fst]. count.
Qed.

Lemma figure8_anchors_returns (base_x base_y move_range : Q) (n : Z) (angle : Q) :
  returns (fun r => List.length (fst r) = Z.to_nat n)
          (figure8_anchors width height base_x base_y move_range n angle).
Proof.
  unfold figure8_anchors.
  apply (returns_for_range (fun p (st : list point * Q) =>
                              List.length (fst st) = p)); [| reflexivity].
  intros p [l a] _ L. cbn [fst] in L. draw.
  apply returns_ret; cbv beta. cbn [fst]. count.
Qed.

Lemma wave_anchors_returns (base_x base_y move_range : Q) (n : Z) :
  returns (fun l => List.length l = Z.to_nat n)
          (wave_anchors width height base_x base_y move_range n).
Proof.
  unfold wave_anchors.
  apply (returns_for_range (fun p (l : list point) => List.length l = p));
    [| reflexivity].
  intros p l _ L. apply returns_ret; cbv beta. count.
Qed.

Lemma organic_anchors_returns (base_x base_y move_range angle : Q) :
  returns (fun r => (7 <= List.length (fst r))%nat)
          (organic_anchors width height base_x base_y move_range angle).
Proof.
  unfold organic_anchors.
  eapply returns_bind.
  - apply (returns_for_range (fun p (st : list point * Q) =>
                                List.length (fst st) = p)); [| reflexivity].
    intros p [l a] _ L. cbn [fst] in L. draw. draw.
    apply returns_ret; cbv beta. cbn [fst]. count.
  - intros [key_points a] K. cbn [fst] in K. cbn beta iota.
    eapply returns_bind.
    + rewrite K.
      apply (returns_for_range (fun j (l : list (Q * Q)) =>
                                  (1 + 2 * j <= List.length l)%nat));
        [| simpl; lia].
      intros j l Hj L.
      destruct (index_is_ok key_points (Z.of_nat j)) as [kj Ej]; [lia |].
      destruct (index_is_ok key_points
                  ((Z.of_nat j + 1) mod Z.of_nat (List.length key_points))%Z)
        as [kn En].
      { pose proof (Z.mod_pos_bound (Z.of_nat j + 1)
                      (Z.of_nat (List.length key_points))). lia. }
      rewrite K in En.
      eapply returns_bind; [eapply returns_lift; [exact Ej | exact I] |].
      intros ? _.
      eapply returns_bind; [eapply returns_lift; [exact Ej | exact I] |].
      intros ? _.
      eapply returns_bind; [eapply returns_lift; [exact En | exact I] |].
      intros ? _.
      eapply returns_bind; [apply (returns_randint 1 2); lia |].
      intros n N. cbv beta in N.
      eapply returns_weaken.
      * apply (returns_for_range
                 (fun k (l' : list point) =>
                    List.length l' = (List.length (l ++ [a0]) + k)%nat));
          [| cbv beta; count].
        intros k l' _ L'. draw. draw. apply returns_ret; cbv beta.
        count.
      * intros l' L'. cbv beta in *. count.
    + intros anchor_points A. apply returns_ret; cbv beta in *. count.
Qed.

Lemma styled_anchors_returns (cs : CharSettings) (base_x base_y angle : Q) :
  returns (fun r => (6 <= List.length (fst (fst r)))%nat)
          (styled_anchors width height cs base_x base_y angle).
Proof.
  unfold styled_anchors.
  eapply returns_bind; [apply (returns_randint 6 9); lia |].
  intros n N. cbv beta in N.
  eapply returns_bind; [apply returns_choice; easy |].
  intros c _.
  eapply returns_bind with (P := fun r => (6 <= List.length (fst r))%nat).
  - destruct (String.eqb _ "circle");
      [eapply returns_weaken; [apply circle_anchors_returns |];
       intros r R; cbv beta in R; lia |].
    destruct (String.eqb _ "figure8");
      [eapply returns_weaken; [apply figure8_anchors_returns |];
       intros r R; cbv beta in R; lia |].
    destruct (String.eqb _ "wave").
    + eapply returns_bind; [apply wave_anchors_returns |].
      intros a A. apply returns_ret; cbv beta. cbn [fst]. cbv beta in A. lia.
    + eapply returns_weaken; [apply organic_anchors_returns |].
      intros r R. cbv beta in R. lia.
  - intros [anchor_points a] A. cbn [fst] in A. apply returns_ret; cbv beta. exact A.
Qed.

Lemma styled_path_returns (cs : CharSettings) (base_x base_y angle : Q) :
  returns (fun r => (24 <= List.length (fst (fst r)))%nat)
          (styled_path width height cs base_x base_y angle).
Proof.
  unfold styled_path.
  eapply returns_bind; [apply styled_anchors_returns |].
  intros [[anchor_points a] pt] A. cbn [fst] in A. cbn beta iota.
  destruct (spline_path_ok 4 anchor_points) as [cps [E L]].
  eapply returns_bind;
    [eapply (returns_lift (fun c => List.length c
                                    = (List.length anchor_points * 4)%nat));
     [exact E | exact L] |].
  intros cps' L'. apply returns_ret; cbv beta in *. count.
Qed.

Lemma random_path_returns :
  returns (fun cps => (20 <= List.length cps)%nat) (random_path width height).
Proof.
  unfold random_path.
  eapply returns_bind; [apply (returns_randint 4 6); lia |].
  intros n N. cbv beta in N.
  eapply returns_bind.
  { apply (returns_for_range (fun p (l : list point) => List.length l = p));
      [| reflexivity].
    intros p l _ L.
    eapply returns_bind; [apply returns_uniform |]. intros px _.
    eapply returns_bind; [apply returns_uniform |]. intros py _.
    apply returns_ret; cbv beta. count. }
  intros key_points K. cbv beta in K.
  destruct (index_is_ok key_points 0) as [first Ef]; [lia |].
  destruct (index_is_ok key_points (-1)) as [last El]; [lia |].
  eapply returns_bind; [eapply returns_lift; [exact Ef | exact I] |].
  intros ? _.
  eapply returns_bind; [eapply returns_lift; [exact El | exact I] |].
  intros ? _.
  eapply returns_bind with (P := fun l => List.length l = Z.to_nat n).
  - destruct (Py.gtb _ _).
    + destruct a0 as [last_x last_y], a as [first_x first_y].
      match goal with
      | |- returns _ (lift (setitem ?l ?i ?v)) =>
        destruct (setitem_ok l i v) as [l' [E L]]; [lia |]
      end.
      eapply returns_lift; [exact E | lia].
    + apply returns_ret; cbv beta. exact K.
  - intros kp L. cbv beta in L.
    destruct (spline_path_ok 5 kp) as [cps [E L']].
    eapply returns_lift; [exact E |]. cbv beta.
    rewrite L', L. simpl. lia.
Qed.

(** The loop body returns a motion whose path has at least eight points. *)
Lemma build_motion_returns (cs : CharSettings) (lp : option string) :
  returns (fun r => (8 <= List.length (control_points (fst r)))%nat)
          (build_motion width height cs lp).
Proof.
  unfold build_motion.
  eapply returns_bind; [apply returns_uniform |]. intros u1 _.
  eapply returns_bind; [apply returns_uniform |]. intros u2 _.
  eapply returns_bind; [apply returns_uniform |]. intros u3 _.
  eapply returns_bind
    with (P := fun r : list point * Q * option string =>
                 (8 <= List.length (fst (fst r)))%nat).
  - destruct (s_position_x cs) as [base_x |];
      [destruct (s_position_y cs) as [base_y |] |].
    + destruct (get (s_fixed_position cs) false).
      * eapply returns_bind; [apply fixed_micro_path_returns |].
        intros cps L. apply returns_ret; cbv beta. cbn [fst]. cbv beta in L. lia.
      * eapply returns_bind; [apply styled_path_returns |].
        intros [[cps a] pt] L. cbn [fst] in L. apply returns_ret; cbv beta. cbn [fst]. lia.
    + eapply returns_bind; [apply random_path_returns |].
      intros cps L. apply returns_ret; cbv beta. cbn [fst]. cbv beta in L. lia.
    + eapply returns_bind; [apply random_path_returns |].
      intros cps L. apply returns_ret; cbv beta. cbn [fst]. cbv beta in L. lia.
  - intros [[cps a] pt] L. cbn [fst] in L. cbn beta iota.
    eapply returns_bind; [apply returns_uniform |]. intros u4 _.
    eapply returns_bind; [apply returns_uniform |]. intros u5 _.
    eapply returns_bind; [apply returns_uniform |]. intros u6 _.
    apply returns_ret; cbv beta. cbn [fst control_points]. exact L.
Qed.
End PathsAreBuilt.

Section StageIsBuilt.
Context `{ML : MathLib} `{RS : RandomSource} `{EN : Enhancer}.

(** A motion whose path can be sampled on segments. *)
Definition has_path (m : MotionData) : Prop :=
  (8 <= List.length (control_points m))%nat.

Lemma build_motions_from_returns (width height : Z) (cs : SettingsMap)
      (text_prompt : string) (seed : option Z) (avatars : list Image) :
  forall (i : nat) (lp : option string) (motions : list MotionData),
    Forall has_path motions ->
    returns (fun ms => List.length ms
                       = (List.length motions + List.length avatars)%nat
                       /\ Forall has_path ms)
            (build_motions_from width height cs text_prompt seed
                                i avatars lp motions).
Proof.
  induction avatars as [| av rest IH]; intros i lp motions F.
  - simpl. apply returns_ret. split; [lia | exact F].
  - cbn [build_motions_from].
    eapply returns_bind; [apply build_motion_returns |].
    intros [m lp'] M. cbn [fst] in M. cbn beta iota.
    eapply returns_weaken.
    + apply IH. apply Forall_app. split; [exact F |].
      constructor; [exact M | constructor].
    + intros ms [L F']. split; [| exact F'].
      rewrite L, length_app. simpl. lia.
Qed.

(** The first stage of [composite_video] never raises, and it builds one
    motion per avatar. *)
Lemma build_stage_returns (avatars : list Image) (size : Z * Z)
      (seed : option Z) (character_settings : option SettingsMap)
      (prompt : option string) (w : World) :
  exists motions g,
    build_stage avatars size seed character_settings prompt w
    = Py.Ok (motions, g) /\
    List.length motions = List.length avatars /\
    Forall has_path motions.
Proof.
  unfold build_stage, build_motions. destruct size as [width height].
  match goal with
  | |- context [build_motions_from ?a ?b ?c ?d ?e ?f ?g ?h ?i ?j] =>
    destruct (build_motions_from_returns a b c d e g f h i
                                         (Forall_nil has_path) j)
      as [ms [g' [E [L F]]]]
  end.
  exists ms, g'. rewrite E. simpl in L. auto.
Qed.
End StageIsBuilt.

(** ** Frame rendering never raises *)

Lemma enumerate_from_spec {A} (l : list A) (s i : nat) (a : A) :
  In (i, a) (combine (seq s (List.length l)) l) <->
  (s <= i)%nat /\ nth_error l (i - s) = Some a.
Proof.
  revert s. induction l as [| x l IH]; intros s; simpl.
  - split; [easy |]. intros [_ H]. destruct (i - s)%nat; discriminate.
  - split.
    + intros [E | H].
      * inversion E; subst. rewrite Nat.sub_diag. split; [lia | reflexivity].
      * apply IH in H. destruct H as [L N]. split; [lia |].
        replace (i - s)%nat with (Datatypes.S (i - Datatypes.S s)) by lia.
        exact N.
    + intros [L N]. destruct (Nat.eq_dec s i) as [-> | NE].
      * rewrite Nat.sub_diag in N. simpl in N. left. congruence.
      * right. apply IH. split; [lia |].
        replace (i - s)%nat with (Datatypes.S (i - Datatypes.S s)) in N by lia.
        exact N.
Qed.

Lemma enumerate_spec {A} (l : list A) (i : nat) (a : A) :
  In (i, a) (enumerate l) <-> nth_error l i = Some a.
Proof.
  unfold enumerate. rewrite enumerate_from_spec, Nat.sub_0_r.
  split; [now intros [_ H] | intros H; split; [lia | exact H]].
Qed.

Lemma insert_by_key_perm {A} (x : A * Q) (l : list (A * Q)) :
  Permutation (insert_by_key x l) (x :: l).
Proof.
  induction l as [| y l IH]; simpl; [reflexivity |].
  destruct (Py.ltb (snd y) (snd x)); [| reflexivity].
  rewrite IH. apply perm_swap.
Qed.

Lemma sort_by_key_perm {A} (l : list (A * Q)) : Permutation (sort_by_key l) l.
Proof.
  induction l as [| x l IH]; simpl; [reflexivity |].
  rewrite insert_by_key_perm. now constructor.
Qed.

(** The sort leaves the keys in ascending order. *)
Lemma insert_by_key_sorted {A} (x : A * Q) (l : list (A * Q)) :
  StronglySorted (fun a b => snd a <= snd b) l ->
  StronglySorted (fun a b => snd a <= snd b) (insert_by_key x l).
Proof.
  induction l as [| y l IH]; intros S; simpl.
  - constructor; constructor.
  - inversion S as [| ? ? S' F]; subst.
    destruct (Py.ltb (snd y) (snd x)) eqn:E.
    + apply ltb_lt in E. constructor; [apply IH; exact S' |].
      apply Forall_forall. intros z Hz.
      apply (Permutation_in _ (insert_by_key_perm x l)) in Hz.
      destruct Hz as [<- | Hz]; [lra |].
      rewrite Forall_forall in F. now apply F.
    + apply ltb_ge in E. constructor; [exact S |].
      constructor; [exact E |].
      apply Forall_forall. intros z Hz. rewrite Forall_forall in F.
      pose proof (F z Hz). lra.
Qed.

Lemma sort_by_key_sorted {A} (l : list (A * Q)) :
  StronglySorted (fun a b => snd a <= snd b) (sort_by_key l).
Proof.
  induction l as [| x l IH]; simpl; [constructor |].
  apply insert_by_key_sorted. exact IH.
Qed.

Section FramesAreRendered.
Context `{ML : MathLib} `{IL : ImageLib}.
Variable avatars : list Image.
Variable motions : list MotionData.
Variable character_settings : SettingsMap.
Hypothesis one_motion_each : List.length motions = List.length avatars.

Lemma all_have_points_ok (indices : list nat) :
  Forall (fun i => (i < List.length motions)%nat) indices ->
  exists b, all_have_points motions indices = Py.Ok b.
Proof.
  induction indices as [| i rest IH]; intros F; [now exists true |].
  inversion F as [| ? ? I F']; subst. cbn [all_have_points].
  destruct (index_is_ok motions (Z.of_nat i)) as [m E]; [lia |].
  rewrite E. cbn [Py.bind].
  destruct (control_points m); [now exists false | apply IH; exact F'].
Qed.

Lemma with_depth_keys_ok (t : Q) (entries : list (nat * Image)) :
  Forall (fun e => nth_error avatars (fst e) = Some (snd e)) entries ->
  exists keyed, with_depth_keys avatars motions t entries = Py.Ok keyed /\
                map fst keyed = entries.
Proof.
  induction entries as [| [i av] rest IH]; intros F; [now exists [] |].
  inversion F as [| ? ? I F']; subst. cbn [fst snd] in I.
  cbn [with_depth_keys].
  assert (i < List.length avatars)%nat as B
      by (apply nth_error_Some; congruence).
  destruct (index_is_ok motions (Z.of_nat i)) as [m E]; [lia |].
  rewrite E. cbn [Py.bind].
  destruct (get_path_position_total (control_points m) t) as [pos P].
  rewrite P. cbn [Py.bind].
  rewrite (index_nat avatars i av I). cbn [Py.bind].
  destruct (IH F') as [keyed [K M]]. rewrite K. cbn [Py.bind].
  eexists. split; [reflexivity |]. cbn [map fst]. now rewrite M.
Qed.

(** The order in which a frame visits the avatars is a rearrangement of
    [enumerate(avatars)]. *)
Lemma sorted_avatars_ok (t : Q) :
  exists order, sorted_avatars avatars motions t = Py.Ok order /\
                Permutation order (enumerate avatars).
Proof.
  unfold sorted_avatars.
  destruct (all_have_points_ok (seq 0 (List.length avatars))) as [b B].
  { apply Forall_forall. intros i Hi. apply in_seq in Hi. lia. }
  rewrite B. cbn [Py.bind]. destruct b; [| now eexists].
  destruct (with_depth_keys_ok t (enumerate avatars)) as [keyed [K M]].
  { apply Forall_forall. intros [i av] Hi. now apply enumerate_spec. }
  rewrite K. cbn [Py.bind]. eexists. split; [reflexivity |].
  rewrite <- M. apply Permutation_map. apply sort_by_key_perm.
Qed.

(** Whether the loop body skips the avatar (ai.py 541). *)
Definition too_small (av : Image) (motion : MotionData) (t : Q) : bool :=
  ((fst (target_size av motion t) <? 5)
   || (snd (target_size av motion t) <? 5))%Z.

Lemma render_sprite_ok (t : Q) (i : nat) (av : Image) (m : MotionData) :
  nth_error motions i = Some m ->
  exists r, render_sprite motions character_settings t i av = Py.Ok r /\
            match r with
            | None => too_small av m t = true
            | Some layer =>
              too_small av m t = false /\ sprite layer = i /\
              resized_to layer = target_size av m t /\
              get_path_position
                (control_points m)
                (eased_time (get (lookup character_settings i) no_settings) t)
              = Py.Ok (position layer)
            end.
Proof.
  intros N. unfold render_sprite. rewrite (index_nat motions i m N).
  cbn [Py.bind].
  match goal with
  | |- context [get_path_position ?p ?u] =>
    destruct (get_path_position_total p u) as [[x y] P]; rewrite P
  end.
  cbn [Py.bind].
  match goal with
  | |- context [get_path_position ?p ?u] =>
    destruct (get_path_position_total p u) as [np P1]; rewrite P1
  end.
  cbn [Py.bind].
  match goal with
  | |- context [get_path_position ?p ?u] =>
    destruct (get_path_position_total p u) as [pp P2]; rewrite P2
  end.
  cbn [Py.bind]. unfold too_small.
  destruct (target_size av m t) as [aw ah]. cbn [fst snd].
  destruct ((aw <? 5) || (ah <? 5))%Z eqn:S.
  - exists None. split; reflexivity.
  - eexists (Some _). split; [reflexivity |].
    cbn [sprite resized_to position]. auto.
Qed.

Lemma render_sprites_ok (t : Q) (order : list (nat * Image)) :
  Forall (fun e => (fst e < List.length motions)%nat) order ->
  forall acc, exists composited,
    render_sprites motions character_settings t order acc = Py.Ok composited /\
    forall layer,
      In layer composited <->
      In layer acc \/
      exists i av, In (i, av) order /\
                   render_sprite motions character_settings t i av
                   = Py.Ok (Some layer).
Proof.
  induction order as [| [i av] rest IH]; intros F acc.
  - exists acc. split; [reflexivity |]. intros layer. split; [auto |].
    intros [H | [i [av [[] _]]]]. exact H.
  - inversion F as [| ? ? I F']; subst. cbn [fst] in I.
    destruct (nth_error motions i) as [m |] eqn:N;
      [| apply nth_error_None in N; lia].
    destruct (render_sprite_ok t i av m N) as [r [E _]].
    cbn [render_sprites]. rewrite E. cbn [Py.bind].
    destruct r as [l |].
    + destruct (IH F' (acc ++ [l])) as [c [Ec Hc]]. exists c.
      split; [exact Ec |]. intros layer. rewrite Hc, in_app_iff. simpl.
      split.
      * intros [[H | [H | []]] | [j [a [H1 H2]]]];
          [now left | subst; right; exists i, av; auto |
           right; exists j, a; auto].
      * intros [H | [j [a [[H1 | H1] H2]]]];
          [now left; left | | right; exists j, a; auto].
        inversion H1; subst. rewrite E in H2. inversion H2; subst.
        left; right; now left.
    + destruct (IH F' acc) as [c [Ec Hc]]. exists c.
      split; [exact Ec |]. intros layer. rewrite Hc. simpl.
      split.
      * intros [H | [j [a [H1 H2]]]]; [now left | right; exists j, a; auto].
      * intros [H | [j [a [[H1 | H1] H2]]]];
          [now left | | right; exists j, a; auto].
        inversion H1; subst. rewrite E in H2. discriminate H2.
Qed.

(** Rendering a frame never raises; what it composites is what the loop
    body yields for the avatars, each visited once. *)
Lemma render_frame_ok (bg : Image) (n_frames f : Z) :
  exists frame,
    render_frame avatars motions character_settings bg n_frames f
    = Py.Ok frame /\
    background frame = bg /\
    forall layer,
      In layer (layers frame) <->
      exists i av, nth_error avatars i = Some av /\
                   render_sprite motions character_settings
                                 (frame_time n_frames f) i av
                   = Py.Ok (Some layer).
Proof.
  unfold render_frame.
  destruct (sorted_avatars_ok (frame_time n_frames f)) as [order [O P]].
  rewrite O. cbn [Py.bind].
  destruct (render_sprites_ok (frame_time n_frames f) order) with (acc := @nil Layer)
    as [c [C H]].
  { apply Forall_forall. intros [i av] Hi. cbn [fst].
    apply (Permutation_in _ P) in Hi. apply enumerate_spec in Hi.
    rewrite one_motion_each. apply nth_error_Some. congruence. }
  rewrite C. cbn [Py.bind]. eexists. split; [reflexivity |].
  split; [reflexivity |]. cbn [layers]. intros layer. rewrite H.
  split.
  - intros [[] | [i [av [Hi R]]]]. exists i, av. split; [| exact R].
    apply enumerate_spec. apply (Permutation_in _ P). exact Hi.
  - intros [i [av [Hi R]]]. right. exists i, av. split; [| exact R].
    apply (Permutation_in _ (Permutation_sym P)). now apply enumerate_spec.
Qed.
End FramesAreRendered.

(** ** A whole run of [composite_video] *)

Section Runs.
Context `{ML : MathLib} `{RS : RandomSource} `{IL : ImageLib} `{EN : Enhancer}.

(** The file name of frame [f] (ai.py 559). *)
Definition frame_path (frames_dir : string) (f : nat) : string :=
  path_join frames_dir ("f_" ++ format_05d f ++ ".png")%string.

(** Two states of the machine that differ at most in their files. *)
Definition same_but_files (w w' : World) : Prop :=
  os_entropy w' = os_entropy w /\ tempdir w' = tempdir w /\
  mkdtemp_suffix w' = mkdtemp_suffix w /\
  directories w' = directories w /\
  encoder_runs w' = encoder_runs w /\
  encoder_succeeds w' = encoder_succeeds w.

Lemma render_frames_ok (avatars : list Image) (motions : list MotionData)
      (cs : SettingsMap) (bg : Image) (frames_dir : string) (n_frames : Z) :
  List.length motions = List.length avatars ->
  forall (fs : list nat) (w : World),
  exists frames w',
    render_frames avatars motions cs bg frames_dir n_frames fs w
    = (Py.Ok tt, w') /\
    List.length frames = List.length fs /\
    files w' = (files w ++ combine (map (frame_path frames_dir) fs)
                                   (map Png frames))%list /\
    same_but_files w w'.
Proof.
  intros L fs. induction fs as [| f rest IH]; intros w.
  - exists [], w. simpl. rewrite app_nil_r. unfold same_but_files. auto 10.
  - cbn [render_frames].
    destruct (render_frame_ok avatars motions cs L bg n_frames (Z.of_nat f))
      as [frame [E _]].
    rewrite E.
    destruct (IH (write_file (frame_path frames_dir f) (Png frame) w))
      as [frames [w' [R [Len [F S]]]]].
    exists (frame :: frames), w'. split; [exact R |].
    split; [simpl; lia |]. split.
    + rewrite F. simpl. rewrite <- app_assoc. reflexivity.
    + exact S.
Qed.

(** [composite_video] gets through the path building and through every
    frame whatever its arguments; only the encoder can make it raise.  The
    state it leaves: the frame directory added, one file per frame, the
    encoder run recorded, and the video when the encoder succeeded. *)
Lemma composite_video_runs (bg : Image) (avatars : list Image)
      (duration_s fps : Z) (size : Z * Z) (seed : option Z)
      (character_settings : option SettingsMap) (prompt : option string)
      (w : World) :
  let frames_dir := path_join (tempdir w) ("frames_" ++ mkdtemp_suffix w)%string in
  let n := Z.to_nat (duration_s * fps) in
  exists (frames : list Frame) (k : Z) (w' : World),
    let out_path :=
      path_join (tempdir w) ("scene_" ++ str_of_Z k ++ ".mp4")%string in
    let call := encoder_call frames_dir out_path fps in
    composite_video bg avatars duration_s fps size seed character_settings
                    prompt w
    = (if encoder_succeeds w then Py.Ok out_path
       else Py.Raise Py.FfmpegError, w') /\
    List.length frames = n /\
    directories w' = (directories w ++ [frames_dir])%list /\
    files w' = (files w
                ++ combine (map (frame_path frames_dir) (seq 0 n))
                           (map Png frames)
                ++ (if encoder_succeeds w then [(out_path, Mp4 call)]
                    else []))%list /\
    encoder_runs w' = (encoder_runs w ++ [call])%list.
Proof.
  intros frames_dir n. unfold composite_video.
  destruct (build_stage_returns avatars size seed character_settings prompt w)
    as [motions [g [B [L _]]]].
  rewrite B. unfold mkdtemp. fold frames_dir.
  match goal with
  | |- context [render_frames ?a ?m ?c ?b ?d ?nf ?fs ?w0] =>
    destruct (render_frames_ok a m c b d nf L fs w0)
      as [frames [w1 [R [Len [F [S1 [S2 [S3 [S4 [S5 S6]]]]]]]]]]
  end.
  fold n in R, Len, F. fold n. rewrite R.
  destruct (randbelow 1000000 g) as [k g'] eqn:K.
  cbn [files directories tempdir encoder_runs encoder_succeeds] in *.
  exists frames, k. unfold run_encoder. rewrite S6, S2.
  rewrite length_seq in Len.
  destruct (encoder_succeeds w); eexists; (split; [reflexivity |]);
    cbn [files directories encoder_runs write_file output_path encoder_call];
    rewrite ?S4, ?S5, ?F, ?app_nil_r, <- ?app_assoc; auto.
Qed.
End Runs.

(** ** Executable instances of the interfaces

    Small stand-ins for the libraries the code runs on, so that the model
    can be evaluated: a linear congruential generator, rational [sin] and
    [cos] taken from the half-angle parametrisation of the circle, an
    integer square root, and images that carry only their size. *)

Definition lcg_modulus : Z := 2147483648.

Definition lcg_step (s : Z) : Z := ((s * 1103515245 + 12345) mod lcg_modulus)%Z.

Lemma lcg_step_range (s : Z) : (0 <= lcg_step s < lcg_modulus)%Z.
Proof. unfold lcg_step. apply Z.mod_pos_bound. reflexivity. Qed.

Lemma lcg_random_range (g : Z) :
  0 <= fst (inject_Z (lcg_step g) / inject_Z lcg_modulus, lcg_step g) /\
  fst (inject_Z (lcg_step g) / inject_Z lcg_modulus, lcg_step g) < 1.
Proof.
  cbn [fst]. pose proof (lcg_step_range g) as [L U].
  apply inject_Z_le_iff in L. apply inject_Z_lt_iff in U.
  change (inject_Z 0) with 0 in L.
  assert (0 < inject_Z lcg_modulus) as M by reflexivity.
  split.
  - apply Qle_shift_div_l; [exact M | lra].
  - apply Qlt_shift_div_r; [exact M | lra].
Qed.

Lemma lcg_randbelow_range (n g : Z) :
  (0 < n)%Z ->
  (0 <= fst ((lcg_step g / 65536) mod n, lcg_step g) < n)%Z.
Proof. intros H. cbn [fst]. apply Z.mod_pos_bound. exact H. Qed.

#[export] Instance lcg : RandomSource := {|
  rng := Z;
  seeded := fun s => (s mod lcg_modulus)%Z;
  random := fun g => (inject_Z (lcg_step g) / inject_Z lcg_modulus, lcg_step g);
  randbelow := fun n g => ((lcg_step g / 65536) mod n, lcg_step g)%Z;
  random_range := lcg_random_range;
  randbelow_range := lcg_randbelow_range
|}.

Definition half_angle_cos (a : Q) : Q :=
  (1 - (a / 2) * (a / 2)) / (1 + (a / 2) * (a / 2)).

Definition half_angle_sin (a : Q) : Q :=
  (2 * (a / 2)) / (1 + (a / 2) * (a / 2)).

Definition sqrt_to_thousandths (q : Q) : Q :=
  inject_Z (Z.sqrt (Qfloor (q * 1000000))) / 1000.

#[export] Instance rational_math : MathLib := {|
  m_sin := half_angle_sin;
  m_cos := half_angle_cos;
  m_sqrt := sqrt_to_thousandths;
  m_atan2 := fun y x => y / (1 + Qabs x + Qabs y);
  m_degrees := fun x => x * 180 / (355 # 113);
  m_pi := 355 # 113
|}.

Lemma rational_math_pythagoras (a : Q) :
  @m_cos rational_math a ^ 2 + @m_sin rational_math a ^ 2 == 1.
Proof.
  cbn [m_cos m_sin rational_math]. unfold half_angle_cos, half_angle_sin.
  set (u := a / 2). assert (0 <= u * u) by nra.
  simpl. field. lra.
Qed.

Lemma rational_math_near_unit_circle (a : Q) :
  Qabs (@m_cos rational_math a ^ 2 + @m_sin rational_math a ^ 2 - 1)
  <= 1 # 1000000000.
Proof.
  apply Qabs_Qle_condition. pose proof (rational_math_pythagoras a) as P.
  split; lra.
Qed.

#[export] Instance sized_images : ImageLib := {|
  resize := fun im sz => {| size := sz; pixels := pixels im |};
  thumbnail := fun im sz =>
    {| size := (Z.min (fst (size im)) (fst sz), Z.min (snd (size im)) (snd sz));
       pixels := pixels im |};
  rotated_size := fun sz _ => (fst sz + snd sz, fst sz + snd sz)%Z
|}.

(** The enrichment collaborator when its import failed. *)
Definition no_smpl : Enhancer := {|
  SMPL_AVAILABLE := false;
  enhance_character_animation := fun cs _ _ _ => Py.Ok cs
|}.

(** ** Determinism of the paths *)

Section Determinism.
Context `{ML : MathLib} `{RS : RandomSource} `{EN : Enhancer}.

Lemma settings_of_unenhanced (cs : SettingsMap) (p : string) (seed : option Z)
      (i : nat) (av : Image) :
  SMPL_AVAILABLE = false ->
  settings_of cs p seed i av = get (lookup cs i) no_settings.
Proof. intros U. unfold settings_of. now rewrite U. Qed.

(** Without the enrichment collaborator the loop over the avatars reads
    neither the images nor the prompt: two lists of the same length give
    the same motions from the same generator state. *)
Lemma build_motions_from_count (width height : Z) (cs : SettingsMap)
      (p1 p2 : string) (seed : option Z) (avatars1 : list Image) :
  SMPL_AVAILABLE = false ->
  forall (avatars2 : list Image) (i : nat) (lp : option string)
         (motions : list MotionData) (g : rng),
    List.length avatars1 = List.length avatars2 ->
    build_motions_from width height cs p1 seed i avatars1 lp motions g
    = build_motions_from width height cs p2 seed i avatars2 lp motions g.
Proof.
  intros U. induction avatars1 as [| a1 rest1 IH];
    intros [| a2 rest2] i lp motions g L; try discriminate L;
      [reflexivity |].
  cbn [build_motions_from]. unfold rbind.
  rewrite !settings_of_unenhanced by exact U.
  destruct (build_motion width height (get (lookup cs i) no_settings) lp g)
    as [[[m lp'] g'] | e]; [| reflexivity].
  apply IH. simpl in L. lia.
Qed.

(** C2: with an integer seed and the enrichment module unavailable, two
    runs of [composite_video] that agree on the seed, the canvas size, the
    number of avatars and [character_settings] build the same motions, so
    every avatar's ['control_points'] list is the same in both runs;
    the avatar images, the prompt and the state of the machine (the
    background, the duration and the frame rate are not even read by this
    stage) make no difference. *)
Theorem composite_video_paths_deterministic
        (avatars1 avatars2 : list Image) (size : Z * Z) (seed : Z)
        (character_settings : option SettingsMap)
        (prompt1 prompt2 : option string) (w1 w2 : World) :
  SMPL_AVAILABLE = false ->
  List.length avatars1 = List.length avatars2 ->
  exists (motions1 motions2 : list MotionData) (g1 g2 : rng),
    build_stage avatars1 size (Some seed) character_settings prompt1 w1
    = Py.Ok (motions1, g1) /\
    build_stage avatars2 size (Some seed) character_settings prompt2 w2
    = Py.Ok (motions2, g2) /\
    paths_of motions1 = paths_of motions2.
Proof.
  intros U L.
  destruct (build_stage_returns avatars1 size (Some seed) character_settings
                                prompt1 w1) as [motions [g [B _]]].
  exists motions, motions, g, g. split; [exact B |]. split; [| reflexivity].
  rewrite <- B. unfold build_stage, build_motions. destruct size as [wd ht].
  symmetry. apply build_motions_from_count; assumption.
Qed.
End Determinism.

(** Concrete data for the examples below. *)
Definition sample_avatar : Image := {| size := (100, 100)%Z; pixels := [] |}.
Definition other_avatar : Image := {| size := (40, 60)%Z; pixels := [1; 2; 3]%Z |}.
Definition sample_background : Image := {| size := (64, 64)%Z; pixels := [] |}.

Definition sample_world (encoder_ok : bool) : @World lcg := {|
  os_entropy := 12345%Z;
  tempdir := "/tmp";
  mkdtemp_suffix := "k3x9";
  directories := ["/tmp"%string];
  files := [];
  encoder_runs := [];
  encoder_succeeds := encoder_ok
|}.

Lemma composite_video_paths_deterministic_witness :
  exists (motions1 motions2 : list MotionData) (g1 g2 : @rng lcg),
    @build_stage rational_math lcg no_smpl [sample_avatar] (768, 432)%Z
                 (Some 42%Z) None (Some "a walk"%string) (sample_world true)
    = Py.Ok (motions1, g1) /\
    @build_stage rational_math lcg no_smpl [other_avatar] (768, 432)%Z
                 (Some 42%Z) None None (sample_world false)
    = Py.Ok (motions2, g2) /\
    paths_of motions1 = paths_of motions2.
Proof.
  apply (@composite_video_paths_deterministic rational_math lcg no_smpl);
    reflexivity.
Defined.

(** ** The frames and the encoder run *)

Lemma names_of_combine {A B} (l1 : list A) (l2 : list B) :
  List.length l1 = List.length l2 -> map fst (combine l1 l2) = l1.
Proof.
  revert l2. induction l1 as [| a l1 IH]; intros [| b l2] L;
    try discriminate L; [reflexivity |].
  simpl. f_equal. apply IH. simpl in L. lia.
Qed.

Section FrameCount.
Context `{ML : MathLib} `{RS : RandomSource} `{IL : ImageLib} `{EN : Enhancer}.

(** C5: with [duration_s = 10] and [fps = 12], [composite_video] writes
    120 frame images into its frame directory, named [f_00000.png] to
    [f_00119.png] in the order of the frame index and nothing else there,
    and then runs the encoder once, with [framerate = 12] on the pattern
    [f_%05d.png] of that directory. *)
Theorem composite_video_frame_count (bg : Image) (avatars : list Image)
        (size : Z * Z) (seed : option Z)
        (character_settings : option SettingsMap) (prompt : option string)
        (w : World) :
  exists (frames : list Frame) (out_path : string) (w' : World),
    snd (composite_video bg avatars 10 12 size seed character_settings
                         prompt w) = w' /\
    List.length frames = 120%nat /\
    files w' = (files w
                ++ combine (map (frame_path
                                   (path_join (tempdir w)
                                      ("frames_" ++ mkdtemp_suffix w)%string))
                                (seq 0 120))
                           (map Png frames)
                ++ (if encoder_succeeds w
                    then [(out_path,
                           Mp4 (encoder_call
                                  (path_join (tempdir w)
                                     ("frames_" ++ mkdtemp_suffix w)%string)
                                  out_path 12))]
                    else []))%list /\
    encoder_runs w'
    = (encoder_runs w
       ++ [encoder_call (path_join (tempdir w)
                           ("frames_" ++ mkdtemp_suffix w)%string)
                        out_path 12])%list /\
    framerate (encoder_call (path_join (tempdir w)
                               ("frames_" ++ mkdtemp_suffix w)%string)
                            out_path 12) = 12%Z /\
    input_pattern (encoder_call (path_join (tempdir w)
                                   ("frames_" ++ mkdtemp_suffix w)%string)
                                out_path 12)
    = path_join (path_join (tempdir w) ("frames_" ++ mkdtemp_suffix w)%string)
                "f_%05d.png" /\
    map format_05d [0; 1; 118; 119]%nat
    = ["00000"; "00001"; "00118"; "00119"]%string.
Proof.
  destruct (composite_video_runs bg avatars 10 12 size seed character_settings
                                 prompt w) as [frames [k [w' [E [L [D [F R]]]]]]].
  exists frames, (path_join (tempdir w) ("scene_" ++ str_of_Z k ++ ".mp4")%string), w'.
  rewrite E. cbn [snd]. change (Z.to_nat (10 * 12)) with 120%nat in *.
  repeat split; assumption || reflexivity.
Qed.

(** C9 as the code has it: the frame directory that [composite_video]
    creates is still there when the function is left, with the frames in
    it, both when it returns the output path and when the encoder raises;
    nothing in the function removes it. *)
Theorem composite_video_keeps_frames_dir (bg : Image) (avatars : list Image)
        (duration_s fps : Z) (size : Z * Z) (seed : option Z)
        (character_settings : option SettingsMap) (prompt : option string)
        (w : World) :
  let run := composite_video bg avatars duration_s fps size seed
                             character_settings prompt w in
  let frames_dir := path_join (tempdir w) ("frames_" ++ mkdtemp_suffix w)%string in
  (exists out_path,
      fst run = if encoder_succeeds w then Py.Ok out_path
                else Py.Raise Py.FfmpegError) /\
  In frames_dir (directories (snd run)) /\
  forall f, (f < Z.to_nat (duration_s * fps))%nat ->
            In (frame_path frames_dir f) (map fst (files (snd run))).
Proof.
  intros run frames_dir. subst run.
  destruct (composite_video_runs bg avatars duration_s fps size seed
                                 character_settings prompt w)
    as [frames [k [w' [E [L [D [F R]]]]]]].
  rewrite E. cbn [fst snd]. split; [eauto |]. split.
  - rewrite D. apply in_or_app. right. now left.
  - intros f Hf. rewrite F, !map_app. apply in_or_app. right.
    apply in_or_app. left.
    rewrite names_of_combine
      by (rewrite !length_map, length_seq; exact (eq_sym L)).
    apply in_map. apply in_seq. lia.
Qed.
End FrameCount.

(** C9 as the spec states it fails on a plain run: one avatar, two frames.
    Whether the encoder succeeds or raises, the directory
    [/tmp/frames_k3x9] that the run created is among the directories it
    leaves. *)
Lemma frames_dir_is_not_removed :
  (exists out_path,
      fst (@composite_video rational_math lcg sized_images no_smpl
             sample_background [sample_avatar] 1 2 (64, 64)%Z (Some 7%Z)
             None None (sample_world true)) = Py.Ok out_path) /\
  In "/tmp/frames_k3x9"%string
     (directories
        (snd (@composite_video rational_math lcg sized_images no_smpl
                sample_background [sample_avatar] 1 2 (64, 64)%Z (Some 7%Z)
                None None (sample_world true)))) /\
  fst (@composite_video rational_math lcg sized_images no_smpl
         sample_background [sample_avatar] 1 2 (64, 64)%Z (Some 7%Z)
         None None (sample_world false)) = Py.Raise Py.FfmpegError /\
  In "/tmp/frames_k3x9"%string
     (directories
        (snd (@composite_video rational_math lcg sized_images no_smpl
                sample_background [sample_avatar] 1 2 (64, 64)%Z (Some 7%Z)
                None None (sample_world false)))).
Proof.
  destruct (@composite_video_runs rational_math lcg sized_images no_smpl
              sample_background [sample_avatar] 1 2 (64, 64)%Z (Some 7%Z)
              None None (sample_world true))
    as [frames [k [w' [E [_ [D _]]]]]].
  destruct (@composite_video_runs rational_math lcg sized_images no_smpl
              sample_background [sample_avatar] 1 2 (64, 64)%Z (Some 7%Z)
              None None (sample_world false))
    as [frames2 [k2 [w2 [E2 [_ [D2 _]]]]]].
  rewrite E, E2. cbn [fst snd sample_world encoder_succeeds].
  split; [eauto |]. rewrite D, D2.
  cbn [sample_world directories tempdir mkdtemp_suffix].
  repeat split; right; left; reflexivity.
Qed.

(** ** The duration check of the endpoint *)

Section Validation.
Context `{ML : MathLib} `{RS : RandomSource} `{IL : ImageLib} `{EN : Enhancer}.

Lemma makedirs_keeps (d d' : string) (w : World) :
  In d (directories w) -> In d (directories (Main.makedirs d' w)).
Proof.
  intros H. unfold Main.makedirs.
  destruct (existsb (String.eqb d') (directories w)); [exact H |].
  cbn [directories]. apply in_or_app. now left.
Qed.

(** C4: a request with [duration_seconds = 5] is answered with the HTTP
    400 error of the duration check and the machine is left as it was: no
    directory, no frame, no encoder run.  A request with
    [duration_seconds = 25] passes that check: without a matching
    character it stops at the next check, and with one it goes on into
    [composite_video], whose frame directory is there afterwards, and ends
    with the path of the video, or with the encoder's error. *)
Theorem generate_video_duration_boundary (srv : Main.Server) (p : string)
        (ids : list Z) (wd ht fp : Z) (sd : option Z)
        (cs : option (list (string * CharSettings))) (w : World) :
  let req d := {| Main.prompt := p; Main.character_ids := ids;
                  Main.duration_seconds := d; Main.width := wd;
                  Main.height := ht; Main.fps := fp; Main.seed := sd;
                  Main.character_settings := cs |} in
  Main.generate_video srv (req 5%Z) w
  = (Py.Raise (Py.HTTPException 400 "duration_seconds must be 10-25"), w) /\
  match filter (fun ch => existsb (Z.eqb (Main.id ch)) ids)
               (Main.characters srv) with
  | [] =>
    Main.generate_video srv (req 25%Z) w
    = (Py.Raise (Py.HTTPException 400 "No valid characters found"), w)
  | _ :: _ =>
    In (path_join (tempdir w) ("frames_" ++ mkdtemp_suffix w)%string)
       (directories (snd (Main.generate_video srv (req 25%Z) w))) /\
    exists final_path,
      fst (Main.generate_video srv (req 25%Z) w)
      = if encoder_succeeds w then Py.Ok final_path
        else Py.Raise Py.FfmpegError
  end.
Proof.
  intros req. split; [reflexivity |].
  unfold Main.generate_video.
  cbn [req Main.duration_seconds Main.character_ids Main.prompt Main.width
           Main.height Main.fps Main.seed Z.leb Z.compare Pos.compare
           Pos.compare_cont andb negb].
  destruct (filter _ (Main.characters srv)) as [| ch chars]; [reflexivity |].
  destruct (Main.load_avatars srv (req 25%Z) 0 (ch :: chars) [] [])
    as [avatars char_settings].
  match goal with
  | |- context [composite_video ?b ?a ?d ?f ?s ?sd ?c ?pr ?w0] =>
    destruct (composite_video_runs b a d f s sd c pr w0)
      as [frames [k [w' [E [_ [D _]]]]]]
  end.
  rewrite E. destruct (encoder_succeeds w); cbn [fst snd].
  - split; [| eauto]. unfold Main.replace_file. cbn [directories].
    apply makedirs_keeps. rewrite D. apply in_or_app. right. now left.
  - split; [| eauto]. rewrite D. apply in_or_app. right. now left.
Qed.
End Validation.

(** ** Sprites too small to draw *)

Section DegenerateSprites.
Context `{ML : MathLib} `{IL : ImageLib}.

(** C6: in every frame, rendering does not raise; an avatar whose target
    size [(int(w * sx), int(h * sy))] has a dimension below 5 contributes
    no layer to the frame, and every other avatar contributes its layer,
    resized to its target size. *)
Theorem degenerate_sprite_is_skipped (avatars : list Image)
        (motions : list MotionData) (character_settings : SettingsMap)
        (bg : Image) (n_frames f : Z) :
  List.length motions = List.length avatars ->
  exists frame,
    render_frame avatars motions character_settings bg n_frames f
    = Py.Ok frame /\
    forall (i : nat) (av : Image) (m : MotionData),
      nth_error avatars i = Some av ->
      nth_error motions i = Some m ->
      if too_small av m (frame_time n_frames f)
      then ~ In i (map sprite (layers frame))
      else exists layer,
          In layer (layers frame) /\ sprite layer = i /\
          resized_to layer = target_size av m (frame_time n_frames f).
Proof.
  intros L.
  destruct (render_frame_ok avatars motions character_settings L bg n_frames f)
    as [frame [E [_ H]]].
  exists frame. split; [exact E |]. intros i av m Ha Hm.
  destruct (render_sprite_ok motions character_settings
                             (frame_time n_frames f) i av m Hm)
    as [r [R P]].
  destruct (too_small av m (frame_time n_frames f)) eqn:S.
  - intros I. apply in_map_iff in I. destruct I as [layer [Sp I]].
    apply H in I. destruct I as [j [av' [Ha' R']]].
    destruct (nth_error motions j) as [m' |] eqn:Hm'.
    + destruct (render_sprite_ok motions character_settings
                                 (frame_time n_frames f) j av' m' Hm')
        as [r' [R1 P']].
      rewrite R' in R1. inversion R1; subst r'.
      destruct P' as [S' [Sj _]]. rewrite Sp in Sj. subst j.
      rewrite Ha in Ha'. inversion Ha'; subst av'.
      rewrite Hm in Hm'. inversion Hm'; subst m'. congruence.
    + apply nth_error_None in Hm'.
      assert (j < List.length avatars)%nat
        by (apply nth_error_Some; congruence). lia.
  - destruct r as [layer |]; [| congruence].
    destruct P as [_ [Sp [Sz _]]]. exists layer. split; [| auto].
    apply H. exists i, av. auto.
Qed.
End DegenerateSprites.

(** A motion without scale animation: unit scale, no breathing, no turn. *)
Definition still_motion (path : list point) : MotionData := {|
  scale_base := 1;
  scale_target := 1;
  angle_base := 0;
  control_points := path;
  breathe_amount := 0;
  breathe_speed := 1;
  pulse_amount := 0;
  pulse_speed := 2.7;
  rotation_speed := 1;
  path_type := "organic"
|}.

Definition tiny_avatar : Image := {| size := (4, 4)%Z; pixels := [] |}.

Lemma degenerate_sprite_is_skipped_witness :
  exists frame,
    @render_frame rational_math sized_images [tiny_avatar; sample_avatar]
                  [still_motion [(10, 10); (20, 20)];
                   still_motion [(30, 30); (40, 40)]]
                  [] sample_background 120 5
    = Py.Ok frame /\
    forall (i : nat) (av : Image) (m : MotionData),
      nth_error [tiny_avatar; sample_avatar] i = Some av ->
      nth_error [still_motion [(10, 10); (20, 20)];
                 still_motion [(30, 30); (40, 40)]] i = Some m ->
      if @too_small rational_math av m (frame_time 120 5)
      then ~ In i (map sprite (layers frame))
      else exists layer,
          In layer (layers frame) /\ sprite layer = i /\
          resized_to layer = @target_size rational_math av m (frame_time 120 5).
Proof.
  apply (@degenerate_sprite_is_skipped rational_math sized_images).
  reflexivity.
Defined.

(** The 4 x 4 avatar is left out of the frame and the other one is drawn. *)
Example tiny_avatar_is_left_out :
  match @render_frame rational_math sized_images [tiny_avatar; sample_avatar]
                      [still_motion [(10, 10); (20, 20)];
                       still_motion [(30, 30); (40, 40)]]
                      [] sample_background 120 5 with
  | Py.Ok frame => map sprite (layers frame) = [1%nat]
                   /\ map resized_to (layers frame) = [(100, 100)%Z]
  | Py.Raise _ => False
  end.
Proof. vm_compute. split; reflexivity. Qed.

(** ** The depth order *)

Section DepthOrder.
Context `{ML : MathLib} `{IL : ImageLib}.

Lemma int_inject_Z (z : Z) : Py.int (inject_Z z) = z.
Proof. unfold Py.int, inject_Z. simpl. apply Z.quot_1_r. Qed.

Lemma still_target_size (av : Image) (path : list point) (t : Q) :
  target_size av (still_motion path) t = size av.
Proof.
  unfold target_size, scale_factors. destruct (size av) as [w h].
  cbn [scale_base scale_target breathe_amount pulse_amount breathe_speed
       pulse_speed still_motion].
  f_equal; (etransitivity; [apply int_comp | apply int_inject_Z]); ring.
Qed.

(** The two paths of the example: the first avatar moves down and back,
    the second stands at [y = 200]. *)
Definition down_and_back : list point := [(100, 100); (100, 300); (100, 100)].
Definition standing : list point := [(200, 200); (200, 200); (200, 200)].

(** C3: the order of compositing is not the order of the positions the
    avatars are pasted at.  In the last of 120 frames the first avatar is
    composited first although it is pasted at [y = 300], below the second
    one at [y = 200]: the sort key is the path sampled at the frame time [t]
    (here [y = 100]), the paste position is the path sampled at the eased
    [(t * path_speed * 1.5) % 1.0]. *)
Theorem depth_order_ignores_paste_position (bg : Image) :
  exists l0 l1 : Layer,
    render_frame [sample_avatar; sample_avatar]
                 [still_motion down_and_back; still_motion standing]
                 [] bg 120 119
    = Py.Ok {| background := bg; layers := [l0; l1] |} /\
    sprite l0 = 0%nat /\ sprite l1 = 1%nat /\
    snd (position l0) == 300 /\ snd (position l1) == 200 /\
    ~ snd (position l0) <= snd (position l1).
Proof.
  unfold render_frame.
  replace (sorted_avatars [sample_avatar; sample_avatar]
             [still_motion down_and_back; still_motion standing]
             (frame_time 120 119))
    with (Py.Ok [(0%nat, sample_avatar); (1%nat, sample_avatar)])
    by (vm_compute; reflexivity).
  cbn [Py.bind render_sprites].
  destruct (render_sprite_ok [still_motion down_and_back; still_motion standing]
              [] (frame_time 120 119) 0 sample_avatar
              (still_motion down_and_back) eq_refl) as [r0 [R0 P0]].
  destruct (render_sprite_ok [still_motion down_and_back; still_motion standing]
              [] (frame_time 120 119) 1 sample_avatar
              (still_motion standing) eq_refl) as [r1 [R1 P1]].
  unfold too_small in P0, P1. rewrite still_target_size in P0, P1.
  rewrite R0. cbn [Py.bind].
  destruct r0 as [l0 |]; [| discriminate P0].
  rewrite R1. cbn [Py.bind].
  destruct r1 as [l1 |]; [| discriminate P1].
  destruct P0 as [_ [S0 [_ G0]]]. destruct P1 as [_ [S1 [_ G1]]].
  exists l0, l1. split; [reflexivity |]. split; [exact S0 |].
  split; [exact S1 |].
  destruct l0 as [s0 size0 angle0 pos0 paste0].
  destruct l1 as [s1 size1 angle1 pos1 paste1].
  cbn [position] in *. vm_compute in G0. vm_compute in G1.
  inversion G0 as [E0]. inversion G1 as [E1]. cbn [snd].
  split; [vm_compute; reflexivity |]. split; [vm_compute; reflexivity |].
  intros C. vm_compute in C. apply C. reflexivity.
Qed.
End DepthOrder.

(** ** Degenerate paths *)

Section AnchorCounts.
Context `{ML : MathLib} `{RS : RandomSource} `{EN : Enhancer}.
Variables width height : Z.


End AnchorCounts.

(** ** The radius of the circular path *)

(** The squared Euclidean distance, and a distance between two bounds
    stated on the squares (the bounds are not negative). *)
Definition dist_sq (p q : point) : Q :=
  (fst p - fst q) ^ 2 + (snd p - snd q) ^ 2.

Definition distance_within (lo hi : Q) (p q : point) : Prop :=
  lo ^ 2 <= dist_sq p q /\ dist_sq p q <= hi ^ 2.

Section CircleRadius.
Context `{ML : MathLib} `{RS : RandomSource}.
Variables width height : Z.
Variables base_x base_y : Q.

Hypothesis near_unit_circle :
  forall a, Qabs (m_cos a ^ 2 + m_sin a ^ 2 - 1) <= 1 # 1000000000.
Hypothesis room_left : margin width height <= base_x - 100.
Hypothesis room_right : base_x + 100 <= inject_Z width - margin width height.
Hypothesis room_top : margin width height <= base_y - 100.
Hypothesis room_bottom : base_y + 100 <= inject_Z height - margin width height.

(** A coordinate [e] of a clamped anchor, measured from the base position,
    against the coordinate [d] before the clamp: the clamp leaves it, or it
    pulls it toward the base position and no closer to it than 100. *)
Definition pulled_in (d e : Q) : Prop :=
  e == d \/ (100 <= e /\ e <= d) \/ (d <= e /\ e <= -100).

Lemma clamp_x_pulls_in (d : Q) :
  pulled_in d (clamp_x width height (base_x + d) - base_x).
Proof.
  unfold pulled_in, clamp_x, Py.max, Py.min.
  destruct (Py.ltb (base_x + d) (inject_Z width - margin width height)) eqn:E1;
    [apply ltb_lt in E1 | apply ltb_ge in E1];
    match goal with
    | |- context [if Py.ltb ?a ?b then _ else _] =>
      destruct (Py.ltb a b) eqn:E2;
        [apply ltb_lt in E2 | apply ltb_ge in E2]
    end.
  - left. lra.
  - right. right. lra.
  - right. left. lra.
  - exfalso. lra.
Qed.

Lemma clamp_y_pulls_in (d : Q) :
  pulled_in d (clamp_y width height (base_y + d) - base_y).
Proof.
  unfold pulled_in, clamp_y, Py.max, Py.min.
  destruct (Py.ltb (base_y + d) (inject_Z height - margin width height)) eqn:E1;
    [apply ltb_lt in E1 | apply ltb_ge in E1];
    match goal with
    | |- context [if Py.ltb ?a ?b then _ else _] =>
      destruct (Py.ltb a b) eqn:E2;
        [apply ltb_lt in E2 | apply ltb_ge in E2]
    end.
  - left. lra.
  - right. right. lra.
  - right. left. lra.
  - exfalso. lra.
Qed.

Lemma pulled_in_square (d e : Q) :
  pulled_in d e -> e * e <= d * d /\ (e == d \/ 10000 <= e * e).
Proof.
  intros [E | [[A B] | [A B]]].
  - split; [rewrite E; lra | left; exact E].
  - split; [nra | right; nra].
  - split; [nra | right; nra].
Qed.

(** A vector within a part in [10 ^ 9] of the unit circle, scaled by a
    radius in [[70, 100]] and then pulled in by the clamp, has a length
    between [70 - 10 ^ -6] and [100 + 10 ^ -6]. *)
Lemma scaled_near_unit_vector (c s radius ex ey : Q) :
  Qabs (c * c + s * s - 1) <= 1 # 1000000000 ->
  70 <= radius -> radius <= 100 ->
  pulled_in (c * radius) ex -> pulled_in (s * radius) ey ->
  (70 - (1 # 1000000)) * (70 - (1 # 1000000)) <= ex * ex + ey * ey /\
  ex * ex + ey * ey <= (100 + (1 # 1000000)) * (100 + (1 # 1000000)).
Proof.
  intros U L H PX PY.
  apply Qabs_Qle_condition in U. destruct U as [U0 U1].
  destruct (pulled_in_square _ _ PX) as [X1 X2].
  destruct (pulled_in_square _ _ PY) as [Y1 Y2].
  assert (0 <= ex * ex) as EX by nra. assert (0 <= ey * ey) as EY by nra.
  set (n := c * c + s * s) in *.
  assert (c * radius * (c * radius) + s * radius * (s * radius)
          == n * (radius * radius)) as D by (unfold n; ring).
  assert (4900 <= radius * radius) as R0 by nra.
  assert (radius * radius <= 10000) as R1 by nra.
  assert (4900 * (1 - (1 # 1000000000)) <= n * (radius * radius)) as D0 by nra.
  assert (n * (radius * radius) <= 10000 * (1 + (1 # 1000000000))) as D1 by nra.
  split.
  - destruct X2 as [X2 | X2]; [| lra].
    destruct Y2 as [Y2 | Y2]; [| lra].
    rewrite X2, Y2, D. lra.
  - lra.
Qed.

Lemma circle_anchor_near (move_range : Q) (num_points : Z) (p : nat) (r : Q) :
  move_range == 100 -> 0 <= r -> r < 1 ->
  distance_within (70 - (1 # 1000000)) (100 + (1 # 1000000))
    (snd (circle_anchor width height base_x base_y move_range num_points p r))
    (base_x, base_y).
Proof.
  intros M R0 R1. unfold circle_anchor. cbn [snd].
  set (angle := inject_Z (Z.of_nat p) * 2 * m_pi / inject_Z num_points).
  set (radius := move_range * (0.7 + r * 0.3)).
  assert (70 <= radius /\ radius <= 100) as [A B]
      by (unfold radius; rewrite M; split; lra).
  assert (Qabs (m_cos angle * m_cos angle + m_sin angle * m_sin angle - 1)
          <= 1 # 1000000000) as U
      by (rewrite <- !square; apply near_unit_circle).
  pose proof (scaled_near_unit_vector _ _ _ _ _ U A B
                (clamp_x_pulls_in (m_cos angle * radius))
                (clamp_y_pulls_in (m_sin angle * radius))) as [D0 D1].
  unfold distance_within, dist_sq. cbn [fst snd].
  rewrite !square. split; [exact D0 | exact D1].
Qed.

Lemma circle_anchors_near (move_range : Q) (n : Z) (angle : Q) :
  move_range == 100 ->
  returns (fun r => List.length (fst r) = Z.to_nat n /\
                    Forall (fun p => distance_within (70 - (1 # 1000000))
                                                     (100 + (1 # 1000000))
                                                     p (base_x, base_y))
                           (fst r))
          (circle_anchors width height base_x base_y move_range n angle).
Proof.
  intros M. unfold circle_anchors.
  apply (returns_for_range
           (fun p (st : list point * Q) =>
              List.length (fst st) = p /\
              Forall (fun q => distance_within (70 - (1 # 1000000))
                                               (100 + (1 # 1000000))
                                               q (base_x, base_y))
                     (fst st))); [| split; [reflexivity | constructor]].
  intros p [l a] _ [L F]. cbn [fst] in L, F.
  eapply returns_bind; [apply returns_random |]. intros r [R0 R1].
  pose proof (circle_anchor_near move_range n p r M R0 R1) as W.
  destruct (circle_anchor width height base_x base_y move_range n p r)
    as [a' pt].
  apply returns_ret. cbn [fst snd] in *. split.
  - rewrite length_app, L. simpl. lia.
  - apply Forall_app. split; [exact F |]. constructor; [exact W | constructor].
Qed.

(** C8 as the code has it: on a canvas of at most 100000 pixels a side, for
    a circle-style sprite with an effective move-range of 100 whose base
    position is at least the margin plus 100 away from every edge of the
    canvas, every anchor lies at a distance between [70 - 10 ^ -6] and
    [100 + 10 ^ -6] from the base position.  This holds from every state of
    the generator, the one reached from seed 7 among them, and for every
    [math.cos] and [math.sin] that give a point within a part in [10 ^ 9]
    of the unit circle, as the binary64 ones do.  The bounds 70 and 100
    themselves are met up to rounding only: the radius is
    [move_range * (0.7 + rng.random() * 0.3)], and the float [0.7] is below
    seven tenths. *)
Theorem circle_anchors_near_radius (cs : CharSettings) (angle : Q) (g : rng) :
  (width <= 100000)%Z -> (height <= 100000)%Z ->
  s_path_type cs = Some "circle"%string ->
  get (s_move_range cs) 0.4 * inject_Z (Z.min width height) == 100 ->
  exists (anchors : list point) (angle' : Q) (g' : rng),
    styled_anchors width height cs base_x base_y angle g
    = Py.Ok (anchors, angle', "circle"%string, g') /\
    (6 <= List.length anchors <= 9)%nat /\
    Forall (fun p => distance_within (70 - (1 # 1000000)) (100 + (1 # 1000000))
                                     p (base_x, base_y)) anchors.
Proof.
  intros _ _ T M.
  assert (returns
            (fun r => snd r = "circle"%string /\
                      (6 <= List.length (fst (fst r)) <= 9)%nat /\
                      Forall (fun p => distance_within (70 - (1 # 1000000))
                                                       (100 + (1 # 1000000))
                                                       p (base_x, base_y))
                             (fst (fst r)))
            (styled_anchors width height cs base_x base_y angle)) as R.
  { unfold styled_anchors. rewrite T. cbn [get].
    eapply returns_bind; [apply (returns_randint 6 9); lia |].
    intros n N. cbv beta in N.
    eapply returns_bind; [apply returns_choice; easy |].
    intros c _. cbn [String.eqb Ascii.eqb Bool.eqb andb].
    eapply returns_bind; [apply (circle_anchors_near _ n angle M) |].
    intros [anchors a] [L F]. cbn [fst] in L, F.
    apply returns_ret. cbn [fst snd]. split; [reflexivity |].
    split; [lia | exact F]. }
  destruct (R g) as [[[anchors a] pt] [g' [E [P [L F]]]]].
  cbn [fst snd] in *. subst pt. exists anchors, a, g'. auto.
Qed.
End CircleRadius.

(** Settings of a circle-style sprite with base position [(x, y)] and
    move-range fraction [0.1]. *)
Definition circle_settings (x y : Q) : CharSettings := {|
  s_scale := None; s_scale_variation := None; s_rotation := None;
  s_position_x := Some x; s_position_y := Some y; s_fixed_position := None;
  s_micro_movement := None; s_move_range := Some 0.1;
  s_path_type := Some "circle"%string;
  s_path_speed := None; s_breathe_amount := None; s_breathe_speed := None;
  s_rotation_speed := None; s_tilt_factor := None
|}.

(** The generator seeded with 7 after the three [uniform] draws that
    [build_motion] makes before the path of the first avatar
    (ai.py 138-142). *)
Definition seed_7_at_path : @rng lcg :=
  snd (@random lcg (snd (@random lcg (snd (@random lcg (@seeded lcg 7)))))).

Lemma circle_anchors_near_radius_witness :
  exists (anchors : list point) (angle' : Q) (g' : @rng lcg),
    @styled_anchors rational_math lcg 1000 1000 (circle_settings 500 500)
                    500 500 0 seed_7_at_path
    = Py.Ok (anchors, angle', "circle"%string, g') /\
    (6 <= List.length anchors <= 9)%nat /\
    Forall (fun p => distance_within (70 - (1 # 1000000)) (100 + (1 # 1000000))
                                     p (500, 500)) anchors.
Proof.
  apply (@circle_anchors_near_radius rational_math lcg 1000 1000 500 500
           rational_math_near_unit_circle).
  - vm_compute. discriminate.
  - vm_compute. discriminate.
  - vm_compute. discriminate.
  - vm_compute. discriminate.
  - lia.
  - lia.
  - reflexivity.
  - vm_compute. reflexivity.
Defined.

(** The anchors among the control points of a path built with
    [num_segments = 4]: every fourth point. *)
Fixpoint every_fourth (l : list point) : list point :=
  match l with
  | a :: _ :: _ :: _ :: rest => a :: every_fourth rest
  | _ => []
  end.

(** C8 as the spec states it fails when the clamping acts.  On a
    1000 x 1000 canvas (margin 150) a circle-style sprite with base position
    [(0, 0)] and an effective move-range of [0.1 * 1000 = 100], built in a run
    with seed 7, has all its anchors clamped into the square
    [[150, 850] x [150, 850]]: each is farther than 100 from the base. *)
Lemma clamped_circle_anchors_are_far :
  get (s_move_range (circle_settings 0 0)) 0.4 * inject_Z (Z.min 1000 1000)
  == 100 /\
  match @build_stage rational_math lcg no_smpl [sample_avatar] (1000, 1000)%Z
                     (Some 7%Z) (Some [(0%nat, circle_settings 0 0)]) None
                     (sample_world true),
        @styled_anchors rational_math lcg 1000 1000 (circle_settings 0 0)
                        0 0 0 seed_7_at_path with
  | Py.Ok ([motion], _), Py.Ok (anchors, _, style, _) =>
    style = "circle"%string /\
    every_fourth (control_points motion) = anchors /\
    anchors <> [] /\
    forallb (fun p => Py.ltb (100 ^ 2) (dist_sq p (0, 0))) anchors = true /\
    ~ Forall (fun p => distance_within 70 100 p (0, 0)) anchors
  | _, _ => False
  end.
Proof.
  split; [vm_compute; reflexivity |]. vm_compute.
  split; [reflexivity |]. split; [reflexivity |].
  split; [discriminate |]. split; [reflexivity |].
  intros F. inversion F as [| p l [_ U] _]. apply U. reflexivity.
Qed.


(** * Further properties of the code *)

(** ** More on the path sampler (ai.py 396-426) *)

(** X2: at every whole-number parameter (0, 1, 2, ... and the negative
    ones) a path that is not empty is sampled at its first point: the depth
    key of the last frame of a clip, where [t = 1], is taken at the start of
    the path. *)
Theorem get_path_position_at_integer (p0 : point) (rest : list point) (z : Z) :
  exists p, get_path_position (p0 :: rest) (inject_Z z) = Py.Ok p /\
            fst p == fst p0 /\ snd p == snd p0.
Proof.
  rewrite get_path_position_unfold by easy.
  unfold segment_of. cbn [fst snd].
  rewrite int_inject_Z.
  set (ns := (Z.of_nat (List.length (p0 :: rest)) - 1)%Z).
  assert (Py.int ((inject_Z z - inject_Z z) * inject_Z ns) = 0%Z) as K
      by (rewrite (int_comp _ 0) by ring; reflexivity).
  rewrite K.
  assert (ease_in_out ((inject_Z z - inject_Z z) * inject_Z ns - inject_Z 0) == 0)
    as E0.
  { rewrite (ease_in_out_comp _ 0) by (change (inject_Z 0) with 0; ring).
    reflexivity. }
  destruct rest as [| p1 rest'].
  - (* one point: the index is -1, both ends are that point *)
    subst ns. cbn [List.length].
    change (Z.min 0 (Z.of_nat 1 - 1 - 1)) with (-1)%Z.
    change (Py.index [p0] (-1)) with (Py.Ok p0).
    change (Py.index [p0] (-1 + 1)) with (Py.Ok p0).
    cbn [Py.bind]. eexists. split; [reflexivity |].
    unfold interpolate. cbn [fst snd]. split; ring.
  - assert (1 <= ns)%Z as NS by (unfold ns; cbn [List.length]; lia).
    rewrite Z.min_l by lia. cbn [Py.index List.length Z.ltb].
    change (Py.index (p0 :: p1 :: rest') 0) with (Py.Ok p0).
    change (Py.index (p0 :: p1 :: rest') (0 + 1)) with (Py.Ok p1).
    cbn [Py.bind]. eexists. split; [reflexivity |].
    unfold interpolate. cbn [fst snd]. rewrite E0. split; ring.
Qed.

(** X3: a path of a single point is sampled at that point, whatever the
    parameter. *)
Theorem get_path_position_single_point (p0 : point) (t : Q) :
  exists p, get_path_position [p0] t = Py.Ok p /\
            fst p == fst p0 /\ snd p == snd p0.
Proof.
  rewrite get_path_position_unfold by easy.
  unfold segment_of. cbn [fst snd List.length].
  change (Z.of_nat 1 - 1)%Z with 0%Z. change (inject_Z 0) with 0.
  rewrite (int_comp ((t - inject_Z (Py.int t)) * 0) 0) by ring.
  change (Py.int 0) with 0%Z. change (Z.min 0 (0 - 1)) with (-1)%Z.
  change (Py.index [p0] (-1)) with (Py.Ok p0).
  change (Py.index [p0] (-1 + 1)) with (Py.Ok p0).
  cbn [Py.bind]. eexists. split; [reflexivity |].
  unfold interpolate. cbn [fst snd]. split; ring.
Qed.

(** ** Paths stay inside the margins (ai.py 144-365) *)

(** The safe area of the canvas: [margin] away from every edge. *)
Definition in_margins (width height : Z) (p : point) : Prop :=
  margin width height <= fst p /\
  fst p <= inject_Z width - margin width height /\
  margin width height <= snd p /\
  snd p <= inject_Z height - margin width height.

(** A point that went through the two clamps. *)
Definition clamped (width height : Z) (p : point) : Prop :=
  exists x y, p = (clamp_x width height x, clamp_y width height y).

Section Margins.
Variables width height : Z.
Hypothesis width_nonneg : (0 <= width)%Z.
Hypothesis height_nonneg : (0 <= height)%Z.

Lemma margin_fits :
  0 <= margin width height /\
  margin width height <= inject_Z width - margin width height /\
  margin width height <= inject_Z height - margin width height.
Proof.
  unfold margin.
  assert (0 <= inject_Z (Z.min width height)) as M0
      by (change 0 with (inject_Z 0); apply inject_Z_le_iff; lia).
  assert (inject_Z (Z.min width height) <= inject_Z width) as MW
      by (apply inject_Z_le_iff; lia).
  assert (inject_Z (Z.min width height) <= inject_Z height) as MH
      by (apply inject_Z_le_iff; lia).
  repeat split; lra.
Qed.

Lemma clamp_range (lo hi v : Q) :
  lo <= hi -> lo <= Py.max lo (Py.min hi v) /\ Py.max lo (Py.min hi v) <= hi.
Proof.
  intros H. unfold Py.max, Py.min.
  destruct (Py.ltb v hi) eqn:E1;
    [apply ltb_lt in E1 | apply ltb_ge in E1];
    match goal with
    | |- _ <= (if Py.ltb ?a ?b then _ else _) /\ _ =>
      destruct (Py.ltb a b) eqn:E2; [apply ltb_lt in E2 | apply ltb_ge in E2]
    end; split; lra.
Qed.

Lemma clamped_in_margins (p : point) :
  clamped width height p -> in_margins width height p.
Proof.
  intros [x [y ->]]. destruct margin_fits as [_ [FW FH]].
  unfold in_margins, clamp_x, clamp_y. cbn [fst snd].
  destruct (clamp_range (margin width height)
              (inject_Z width - margin width height) x FW).
  destruct (clamp_range (margin width height)
              (inject_Z height - margin width height) y FH).
  auto.
Qed.
End Margins.

(** ** The shape of the spline (ai.py 270-307 and 334-365) *)

Section SplineShape.
Variables width height : Z.
Variable num_segments : nat.
Variable points : list point.

(** What one anchor contributes: the anchor itself, then
    [num_segments - 1] clamped points. *)
Definition chunk_of (j : nat) (seg : list point) : Prop :=
  exists p tail,
    nth_error points j = Some p /\ seg = p :: tail /\
    List.length tail = (num_segments - 1)%nat /\
    Forall (clamped width height) tail.

Lemma spline_segment_shape (j : nat) :
  (j < List.length points)%nat ->
  exists seg, spline_segment width height num_segments points j = Py.Ok seg /\
              chunk_of j seg.
Proof.
  intros J. unfold spline_segment.
  set (n := Z.of_nat (List.length points)).
  assert (0 < n)%Z as N by (unfold n; lia).
  destruct (index_is_ok points ((Z.of_nat j - 1) mod n)%Z) as [p0 E0];
    [pose proof (Z.mod_pos_bound (Z.of_nat j - 1) n N); unfold n in *; lia |].
  destruct (nth_error points j) as [p1 |] eqn:N1;
    [| apply nth_error_None in N1; lia].
  pose proof (index_nat points j p1 N1) as E1.
  destruct (index_is_ok points ((Z.of_nat j + 1) mod n)%Z) as [p2 E2];
    [pose proof (Z.mod_pos_bound (Z.of_nat j + 1) n N); unfold n in *; lia |].
  destruct (index_is_ok points ((Z.of_nat j + 2) mod n)%Z) as [p3 E3];
    [pose proof (Z.mod_pos_bound (Z.of_nat j + 2) n N); unfold n in *; lia |].
  rewrite E0, E1, E2, E3. cbn [Py.bind]. eexists. split; [reflexivity |].
  exists p1. eexists. split; [exact N1 |]. split; [reflexivity |]. split.
  - now rewrite length_map, length_seq.
  - apply Forall_forall. intros q Hq. apply in_map_iff in Hq.
    destruct Hq as [s [<- _]]. eexists. eexists. reflexivity.
Qed.

Lemma spline_loop_shape (js : list nat) (acc : list point) :
  Forall (fun j => (j < List.length points)%nat) js ->
  exists segs,
    spline_loop width height num_segments points js acc
    = Py.Ok (acc ++ List.concat segs) /\
    Forall2 chunk_of js segs.
Proof.
  revert acc. induction js as [| j js IH]; intros acc F.
  - exists []. simpl. rewrite app_nil_r. split; [reflexivity | constructor].
  - inversion F as [| ? ? J F']; subst.
    destruct (spline_segment_shape j J) as [seg [E C]].
    cbn [spline_loop]. rewrite E. cbn [Py.bind].
    destruct (IH (acc ++ seg) F') as [segs [E' C']].
    exists (seg :: segs). split; [| constructor; assumption].
    rewrite E'. cbn [List.concat]. now rewrite app_assoc.
Qed.

Lemma spline_path_shape :
  exists segs,
    spline_path width height num_segments points = Py.Ok (List.concat segs) /\
    Forall2 chunk_of (seq 0 (List.length points)) segs.
Proof.
  unfold spline_path.
  destruct (spline_loop_shape (seq 0 (List.length points)) []) as [segs [E C]].
  - apply Forall_forall. intros j Hj. apply in_seq in Hj. lia.
  - exists segs. split; [exact E | exact C].
Qed.

(** Reading a list of chunks at the start of chunk [i]. *)
Lemma nth_error_chunks (segs : list (list point)) :
  forall (s i : nat),
    Forall2 chunk_of (seq s (List.length segs)) segs ->
    (i < List.length segs)%nat ->
    nth_error (List.concat segs) (i * Datatypes.S (num_segments - 1))
    = nth_error points (s + i).
Proof.
  induction segs as [| seg segs IH]; intros s i F I; [simpl in I; lia |].
  cbn [List.length seq] in F. inversion F as [| ? ? ? ? C F']; subst.
  destruct C as [p [tail [N [-> [L _]]]]]. cbn [List.concat].
  destruct i as [| i].
  - simpl. now rewrite Nat.add_0_r.
  - replace (Datatypes.S i * Datatypes.S (num_segments - 1))%nat
      with (List.length (p :: tail) + i * Datatypes.S (num_segments - 1))%nat
      by (cbn [List.length]; lia).
    rewrite nth_error_app2 by lia.
    replace (List.length (p :: tail) + i * Datatypes.S (num_segments - 1)
             - List.length (p :: tail))%nat
      with (i * Datatypes.S (num_segments - 1))%nat by lia.
    rewrite (IH (Datatypes.S s) i F') by (simpl in I; lia).
    f_equal. lia.
Qed.

Lemma chunks_keep (P : point -> Prop) (segs : list (list point)) :
  (forall p, clamped width height p -> P p) ->
  forall js, Forall2 chunk_of js segs ->
             Forall (fun j => forall p, nth_error points j = Some p -> P p) js ->
             Forall P (List.concat segs).
Proof.
  intros HP js F. induction F as [| j seg js segs C F IH]; intros A;
    [constructor |].
  inversion A as [| ? ? Aj A']; subst.
  destruct C as [p [tail [N [-> [_ T]]]]]. cbn [List.concat].
  apply Forall_app. split; [| apply IH; exact A'].
  constructor; [apply Aj; exact N |].
  apply Forall_forall. intros q Hq. apply HP.
  rewrite Forall_forall in T. now apply T.
Qed.
End SplineShape.

(** X4: the spline passes through its anchors.  For every list of anchors
    the conversion returns [num_segments] points per anchor (for
    [num_segments >= 1]), the point at position [j * num_segments] is anchor
    [j] itself, unclamped, and the interpolation formula gives the anchor
    [a1] at [t = 0] and the next anchor [a2] at [t = 1]. *)
Theorem spline_passes_through_anchors (width height : Z) (num_segments : nat)
        (anchors : list point) :
  exists control_points,
    spline_path width height num_segments anchors = Py.Ok control_points /\
    List.length control_points
    = (List.length anchors * Datatypes.S (num_segments - 1))%nat /\
    (forall j, (j < List.length anchors)%nat ->
               nth_error control_points (j * Datatypes.S (num_segments - 1))
               = nth_error anchors j) /\
    (forall a0 a1 a2 a3 : Q,
        catmull_rom a0 a1 a2 a3 0 == a1 /\ catmull_rom a0 a1 a2 a3 1 == a2).
Proof.
  destruct (spline_path_shape width height num_segments anchors) as [segs [E C]].
  destruct (spline_path_ok width height num_segments anchors) as [cps [E' L]].
  rewrite E in E'. inversion E'; subst cps.
  exists (List.concat segs). split; [exact E |]. split; [exact L |]. split.
  - intros j J.
    assert (List.length segs = List.length anchors) as LS.
    { pose proof (Forall2_length C) as H. now rewrite length_seq in H. }
    rewrite <- LS in C, J.
    apply (nth_error_chunks width height num_segments anchors segs 0 j C J).
  - intros a0 a1 a2 a3. unfold catmull_rom. split; field.
Qed.

Ltac step_random := eapply returns_bind; [apply returns_random | intros ? ?].

Section PathsInMargins.
Context `{ML : MathLib} `{RS : RandomSource}.
Variables width height : Z.
Hypothesis width_nonneg : (0 <= width)%Z.
Hypothesis height_nonneg : (0 <= height)%Z.

Lemma returns_uniform_range (a b : Q) :
  a <= b -> returns (fun u => a <= u /\ u <= b) (rng_uniform a b).
Proof.
  intros H. unfold rng_uniform.
  eapply returns_bind; [apply returns_random |].
  intros r [R0 R1]. apply returns_ret. split; nra.
Qed.

Lemma spline_path_keeps (P : point -> Prop) (n : nat) (anchors : list point) :
  (forall p, clamped width height p -> P p) ->
  Forall P anchors ->
  exists cps, spline_path width height n anchors = Py.Ok cps /\
              Forall P cps /\
              List.length cps = (List.length anchors * Datatypes.S (n - 1))%nat.
Proof.
  intros HP F.
  destruct (spline_path_shape width height n anchors) as [segs [E C]].
  destruct (spline_path_ok width height n anchors) as [cps [E' L]].
  rewrite E in E'. inversion E'; subst cps.
  exists (List.concat segs). split; [exact E |]. split; [| exact L].
  apply (chunks_keep width height n anchors P segs HP _ C).
  apply Forall_forall. intros j _ p N. rewrite Forall_forall in F.
  apply F. eapply nth_error_In. exact N.
Qed.

Lemma circle_anchors_clamped (base_x base_y move_range : Q) (n : Z) (angle : Q) :
  returns (fun r => List.length (fst r) = Z.to_nat n /\
                    Forall (clamped width height) (fst r))
          (circle_anchors width height base_x base_y move_range n angle).
Proof.
  unfold circle_anchors.
  apply (returns_for_range
           (fun p (st : list point * Q) =>
              List.length (fst st) = p /\ Forall (clamped width height) (fst st)));
    [| split; [reflexivity | constructor]].
  intros p [l a] _ [L F]. cbn [fst] in L, F. step_random.
  unfold circle_anchor. apply returns_ret. cbn [fst]. split.
  - rewrite length_app, L. simpl. lia.
  - apply Forall_app. split; [exact F |].
    constructor; [| constructor]. eexists. eexists. reflexivity.
Qed.

Lemma figure8_anchors_clamped (base_x base_y move_range : Q) (n : Z) (angle : Q) :
  returns (fun r => List.length (fst r) = Z.to_nat n /\
                    Forall (clamped width height) (fst r))
          (figure8_anchors width height base_x base_y move_range n angle).
Proof.
  unfold figure8_anchors.
  apply (returns_for_range
           (fun p (st : list point * Q) =>
              List.length (fst st) = p /\ Forall (clamped width height) (fst st)));
    [| split; [reflexivity | constructor]].
  intros p [l a] _ [L F]. cbn [fst] in L, F. step_random.
  apply returns_ret. cbn [fst]. split.
  - rewrite length_app, L. simpl. lia.
  - apply Forall_app. split; [exact F |].
    constructor; [| constructor]. eexists. eexists. reflexivity.
Qed.

Lemma wave_anchors_clamped (base_x base_y move_range : Q) (n : Z) :
  returns (fun l => List.length l = Z.to_nat n /\ Forall (clamped width height) l)
          (wave_anchors width height base_x base_y move_range n).
Proof.
  unfold wave_anchors.
  apply (returns_for_range
           (fun p (l : list point) =>
              List.length l = p /\ Forall (clamped width height) l));
    [| split; [reflexivity | constructor]].
  intros p l _ [L F]. apply returns_ret. split.
  - rewrite length_app, L. simpl. lia.
  - apply Forall_app. split; [exact F |].
    constructor; [| constructor]. eexists. eexists. reflexivity.
Qed.

(** X5: on a canvas whose sides are not negative, a sprite with a base
    position and one of the styles circle, figure8 and wave gets a path of
    [4 * n] control points, [n] between 6 and 9, every one of them inside the
    margins: at least 15% of the smaller canvas side away from every edge. *)
Theorem styled_path_within_margins (cs : CharSettings) (base_x base_y angle : Q)
        (style : string) (g : rng) :
  s_path_type cs = Some style ->
  style = "circle"%string \/ style = "figure8"%string \/ style = "wave"%string ->
  exists (control_points : list point) (angle' : Q) (g' : rng) (n : nat),
    styled_path width height cs base_x base_y angle g
    = Py.Ok (control_points, angle', style, g') /\
    Forall (in_margins width height) control_points /\
    (6 <= n <= 9)%nat /\ List.length control_points = (4 * n)%nat.
Proof.
  intros T S.
  assert (returns
            (fun r => snd r = style /\
                      Forall (in_margins width height) (fst (fst r)) /\
                      exists n, (6 <= n <= 9)%nat /\
                                List.length (fst (fst r)) = (4 * n)%nat)
            (styled_path width height cs base_x base_y angle)) as R.
  { unfold styled_path, styled_anchors. rewrite T. cbn [get].
    eapply returns_bind
      with (P := fun r : list point * Q * string =>
                   snd r = style /\
                   Forall (clamped width height) (fst (fst r)) /\
                   exists n : nat, (6 <= n <= 9)%nat /\
                                   List.length (fst (fst r)) = n).
    - eapply returns_bind; [apply (returns_randint 6 9); lia |].
      intros n N. cbv beta in N.
      eapply returns_bind; [apply returns_choice; easy |].
      intros c _.
      eapply returns_bind
        with (P := fun r : list point * Q =>
                     List.length (fst r) = Z.to_nat n /\
                     Forall (clamped width height) (fst r)).
      + destruct S as [-> | [-> | ->]];
          cbn [String.eqb Ascii.eqb Bool.eqb andb].
        * apply circle_anchors_clamped.
        * apply figure8_anchors_clamped.
        * eapply returns_bind; [apply wave_anchors_clamped |].
          intros a A. apply returns_ret. exact A.
      + intros [anchors a] [L F]. cbn [fst] in L, F.
        apply returns_ret. cbn [fst snd]. split; [reflexivity |].
        split; [exact F |]. exists (Z.to_nat n). split; [lia | exact L].
    - intros [[anchors a] pt] [P [F [n [N L]]]]. cbn [fst snd] in *.
      cbn beta iota.
      destruct (spline_path_keeps (in_margins width height) 4 anchors)
        as [cps [E [F' L']]].
      + intros p C. now apply clamped_in_margins.
      + apply Forall_forall. intros p Hp. apply clamped_in_margins; try assumption.
        rewrite Forall_forall in F. now apply F.
      + eapply returns_bind;
          [eapply (returns_lift (fun c => c = cps)); [exact E | reflexivity] |].
        intros c ->. apply returns_ret. cbn [fst snd].
        split; [exact P |]. split; [exact F' |].
        exists n. split; [exact N |]. rewrite L', L. simpl. lia. }
  destruct (R g) as [[[cps a] pt] [g' [E [P [F [n [N L]]]]]]].
  cbn [fst snd] in *. subst pt. exists cps, a, g', n. auto.
Qed.

Lemma Forall_pieces {A} (P : A -> Prop) (l : list A) (j : nat) :
  Forall P l -> Forall P (firstn j l) /\ Forall P (skipn j l).
Proof.
  intros F. rewrite <- (firstn_skipn j l) in F. now apply Forall_app in F.
Qed.

Lemma setitem_keeps {A} (P : A -> Prop) (l : list A) (i : Z) (v : A) :
  (- Z.of_nat (List.length l) <= i < Z.of_nat (List.length l))%Z ->
  Forall P l -> P v ->
  exists l', setitem l i v = Py.Ok l' /\ List.length l' = List.length l /\
             Forall P l'.
Proof.
  intros R F V. unfold setitem. set (n := Z.of_nat (List.length l)) in *.
  set (j := if (i <? 0)%Z then (i + n)%Z else i).
  assert (0 <= j < n)%Z as J
      by (unfold j; destruct (i <? 0)%Z eqn:E;
          [apply Z.ltb_lt in E | apply Z.ltb_ge in E]; lia).
  destruct (j <? 0)%Z eqn:E1; [apply Z.ltb_lt in E1; lia |].
  destruct (n <=? j)%Z eqn:E2; [apply Z.leb_le in E2; lia |].
  cbn [orb]. eexists. split; [reflexivity |]. split.
  - rewrite length_app. cbn [List.length].
    rewrite length_firstn, length_skipn. unfold n in J. lia.
  - apply Forall_app. split; [apply (Forall_pieces P l _ F) |].
    constructor; [exact V | apply (Forall_pieces P l _ F)].
Qed.

Lemma index_keeps {A} (P : A -> Prop) (l : list A) (i : Z) :
  (- Z.of_nat (List.length l) <= i < Z.of_nat (List.length l))%Z ->
  Forall P l -> exists a, Py.index l i = Py.Ok a /\ P a.
Proof.
  intros R F. destruct (index_in_range l i R) as [a [E N]].
  exists a. split; [exact E |]. rewrite Forall_forall in F.
  apply F. eapply nth_error_In. exact N.
Qed.

(** X6: on a canvas whose sides are not negative, a sprite without a base
    position gets a path of [5 * k] control points, [k] between 4 and 6,
    every one of them inside the margins. *)
Theorem random_path_within_margins (g : rng) :
  exists (control_points : list point) (g' : rng) (k : nat),
    random_path width height g = Py.Ok (control_points, g') /\
    Forall (in_margins width height) control_points /\
    (4 <= k <= 6)%nat /\ List.length control_points = (5 * k)%nat.
Proof.
  destruct margin_fits with (width := width) (height := height)
    as [M0 [FW FH]]; try assumption.
  assert (returns
            (fun cps => Forall (in_margins width height) cps /\
                        exists k : nat, (4 <= k <= 6)%nat /\
                                        List.length cps = (5 * k)%nat)
            (random_path width height)) as R.
  { unfold random_path.
    eapply returns_bind; [apply (returns_randint 4 6); lia |].
    intros n N. cbv beta in N.
    eapply returns_bind
      with (P := fun l : list point =>
                   List.length l = Z.to_nat n /\
                   Forall (in_margins width height) l).
    { apply (returns_for_range
               (fun p (l : list point) =>
                  List.length l = p /\ Forall (in_margins width height) l));
        [| split; [reflexivity | constructor]].
      intros p l _ [L F].
      eapply returns_bind; [apply (returns_uniform_range _ _ FW) |].
      intros px [X0 X1].
      eapply returns_bind; [apply (returns_uniform_range _ _ FH) |].
      intros py [Y0 Y1].
      apply returns_ret. split.
      - rewrite length_app, L. simpl. lia.
      - apply Forall_app. split; [exact F |].
        constructor; [| constructor]. unfold in_margins. cbn [fst snd]. auto. }
    intros key_points [K F].
    destruct (index_keeps (in_margins width height) key_points 0)
      as [first [Ef Pf]]; [lia | exact F |].
    destruct (index_keeps (in_margins width height) key_points (-1))
      as [last [El Pl]]; [lia | exact F |].
    eapply returns_bind;
      [eapply (returns_lift (fun a => a = first)); [exact Ef | reflexivity] |].
    intros ? ->.
    eapply returns_bind;
      [eapply (returns_lift (fun a => a = last)); [exact El | reflexivity] |].
    intros ? ->.
    eapply returns_bind
      with (P := fun l : list point =>
                   List.length l = Z.to_nat n /\
                   Forall (in_margins width height) l).
    - destruct (Py.gtb _ _).
      + destruct last as [last_x last_y], first as [first_x first_y].
        destruct Pf as [A1 [A2 [A3 A4]]]. destruct Pl as [B1 [B2 [B3 B4]]].
        cbn [fst snd] in *.
        match goal with
        | |- returns _ (lift (setitem ?l ?i ?v)) =>
          destruct (setitem_keeps (in_margins width height) l i v)
            as [l' [E [L F']]];
            [lia | exact F |
             unfold in_margins; cbn [fst snd]; repeat split; lra |]
        end.
        eapply returns_lift; [exact E |]. split; [lia | exact F'].
      + apply returns_ret. auto.
    - intros kp [L F'].
      destruct (spline_path_keeps (in_margins width height) 5 kp)
        as [cps [E [F'' L']]];
        [intros p C; now apply clamped_in_margins | exact F' |].
      eapply returns_lift; [exact E |]. split; [exact F'' |].
      exists (Z.to_nat n). split; [lia |]. rewrite L', L. simpl. lia. }
  destruct (R g) as [cps [g' [E [F [k [K L]]]]]]. exists cps, g', k. auto.
Qed.

Lemma organic_intermediate_clamped (move_range : Q) (k1 k2 : point) (t r : Q) :
  clamped width height (organic_intermediate width height move_range k1 k2 t r).
Proof.
  unfold organic_intermediate. destruct k1 as [x1 y1], k2 as [x2 y2].
  destruct (Py.gtb _ 0); eexists; eexists; reflexivity.
Qed.

(** The anchors of the organic style: the base position as it is, then
    between 6 and 9 clamped points. *)
Lemma organic_anchors_shape (base_x base_y move_range angle : Q) :
  returns (fun r => exists tail,
               fst r = (base_x, base_y) :: tail /\
               Forall (clamped width height) tail /\
               (6 <= List.length tail <= 9)%nat)
          (organic_anchors width height base_x base_y move_range angle).
Proof.
  unfold organic_anchors.
  eapply returns_bind
    with (P := fun st : list point * Q =>
                 List.length (fst st) = 3%nat /\
                 Forall (clamped width height) (fst st)).
  - apply (returns_for_range
             (fun p (st : list point * Q) =>
                List.length (fst st) = p /\
                Forall (clamped width height) (fst st)));
      [| split; [reflexivity | constructor]].
    intros p [l a] _ [L F]. cbn [fst] in L, F. step_random. step_random.
    apply returns_ret. cbn [fst]. split.
    + rewrite length_app, L. simpl. lia.
    + apply Forall_app. split; [exact F |].
      constructor; [| constructor]. eexists. eexists. reflexivity.
  - intros [key_points a] [K F]. cbn [fst] in K, F. cbn beta iota.
    eapply returns_bind
      with (P := fun l : list point =>
                   exists tail, l = (base_x, base_y) :: tail /\
                                Forall (clamped width height) tail /\
                                (6 <= List.length tail <= 9)%nat).
    + rewrite K.
      eapply returns_weaken.
      * apply (returns_for_range
                 (fun j (l : list point) =>
                    exists tail, l = (base_x, base_y) :: tail /\
                                 Forall (clamped width height) tail /\
                                 (2 * j <= List.length tail <= 3 * j)%nat)).
        2: { exists []. split; [reflexivity |]. split; [constructor | simpl; lia]. }
        intros j l Hj [tail [-> [T L]]].
        destruct (index_keeps (clamped width height) key_points (Z.of_nat j))
          as [kj [Ej Cj]]; [lia | exact F |].
        destruct (index_keeps (clamped width height) key_points
                    ((Z.of_nat j + 1) mod Z.of_nat 3)%Z) as [kn [En Cn]];
          [pose proof (Z.mod_pos_bound (Z.of_nat j + 1) (Z.of_nat 3)); lia
          | exact F |].
        eapply returns_bind;
          [eapply (returns_lift (fun a => a = kj)); [exact Ej | reflexivity] |].
        intros ? ->.
        eapply returns_bind;
          [eapply (returns_lift (fun a => a = kj)); [exact Ej | reflexivity] |].
        intros ? ->.
        eapply returns_bind;
          [eapply (returns_lift (fun a => a = kn)); [exact En | reflexivity] |].
        intros ? ->.
        eapply returns_bind; [apply (returns_randint 1 2); lia |].
        intros n N. cbv beta in N.
        eapply returns_weaken.
        -- apply (returns_for_range
                    (fun k (l' : list point) =>
                       exists tail', l' = (base_x, base_y) :: tail' /\
                                     Forall (clamped width height) tail' /\
                                     List.length tail'
                                     = (List.length tail + 1 + k)%nat)).
           2: { exists (tail ++ [kj]). split; [reflexivity |]. split.
                - apply Forall_app. split; [exact T |].
                  constructor; [exact Cj | constructor].
                - rewrite length_app. simpl. lia. }
           intros k l' _ [tail' [-> [T' L']]]. step_random. step_random.
           apply returns_ret. eexists. split; [reflexivity |]. split.
           ++ apply Forall_app. split; [exact T' |].
              constructor; [apply organic_intermediate_clamped | constructor].
           ++ rewrite length_app, L'. simpl. lia.
        -- intros l' [tail' [-> [T' L']]]. exists tail'.
           split; [reflexivity |]. split; [exact T' | lia].
      * intros l [tail [-> [T L]]]. exists tail. split; [reflexivity |].
        split; [exact T | lia].
    + intros anchors A. apply returns_ret. cbn [fst]. exact A.
Qed.

(** X7: a path_type other than circle, figure8 and wave, known or not,
    gives the organic path.  Its first control point is the base position
    exactly, also when that lies outside the margins; every other control
    point is inside the margins; and the path has between 28 and 40 points. *)
Theorem organic_path_starts_at_base (cs : CharSettings)
        (base_x base_y angle : Q) (style : string) (g : rng) :
  s_path_type cs = Some style ->
  String.eqb style "circle" = false ->
  String.eqb style "figure8" = false ->
  String.eqb style "wave" = false ->
  exists (rest : list point) (angle' : Q) (g' : rng),
    styled_path width height cs base_x base_y angle g
    = Py.Ok ((base_x, base_y) :: rest, angle', style, g') /\
    Forall (in_margins width height) rest /\
    (27 <= List.length rest <= 39)%nat.
Proof.
  intros T S1 S2 S3.
  assert (returns
            (fun r => snd r = style /\
                      exists rest,
                        fst (fst r) = (base_x, base_y) :: rest /\
                        Forall (in_margins width height) rest /\
                        (27 <= List.length rest <= 39)%nat)
            (styled_path width height cs base_x base_y angle)) as R.
  { unfold styled_path, styled_anchors. rewrite T. cbn [get].
    rewrite S1, S2, S3.
    eapply returns_bind
      with (P := fun r : list point * Q * string =>
                   snd r = style /\
                   exists tail,
                     fst (fst r) = (base_x, base_y) :: tail /\
                     Forall (clamped width height) tail /\
                     (6 <= List.length tail <= 9)%nat).
    - eapply returns_bind; [apply (returns_randint 6 9); lia |].
      intros n N.
      eapply returns_bind; [apply returns_choice; easy |].
      intros c _.
      eapply returns_bind; [apply organic_anchors_shape |].
      intros [anchors a] A. cbn [fst] in A.
      apply returns_ret. cbn [fst snd]. split; [reflexivity | exact A].
    - intros [[anchors a] pt] [P [tail [A [F L]]]]. cbn [fst snd] in *.
      subst anchors. cbn beta iota.
      destruct (spline_path_shape width height 4 ((base_x, base_y) :: tail))
        as [segs [E C]].
      destruct (spline_path_ok width height 4 ((base_x, base_y) :: tail))
        as [cps [E' L']].
      rewrite E in E'. inversion E'; subst cps. clear E'.
      cbn [List.length seq] in C.
      inversion C as [| ? seg0 ? segs' C0 C']; subst.
      destruct C0 as [p [t0 [N0 [-> [L0 T0]]]]].
      cbn [nth_error] in N0. inversion N0; subst p.
      eapply returns_bind;
        [eapply (returns_lift (fun c => c = List.concat (((base_x, base_y) :: t0) :: segs')));
         [exact E | reflexivity] |].
      intros c ->. apply returns_ret. cbn [fst snd].
      split; [first [reflexivity | assumption] |].
      exists (t0 ++ List.concat segs'). split; [reflexivity |]. split.
      + apply Forall_app. split.
        * apply Forall_forall. intros q Hq. apply clamped_in_margins;
            try assumption. rewrite Forall_forall in T0. now apply T0.
        * apply (chunks_keep width height 4 ((base_x, base_y) :: tail)
                             (in_margins width height) segs'
                             (fun q Cq => clamped_in_margins width height
                                            width_nonneg height_nonneg q Cq)
                             _ C').
          apply Forall_forall. intros j Hj q Nq. apply in_seq in Hj.
          destruct j as [| j]; [lia |]. cbn [nth_error] in Nq.
          apply clamped_in_margins; try assumption.
          rewrite Forall_forall in F. apply F. eapply nth_error_In. exact Nq.
      + cbn [List.concat] in L'. rewrite <- app_comm_cons in L'.
        cbn [List.length] in L'. simpl in L'. lia. }
  destruct (R g) as [[[cps a] pt] [g' [E [P [rest [C [F L]]]]]]].
  cbn [fst snd] in *. subst pt cps. exists rest, a, g'. auto.
Qed.
End PathsInMargins.

(** ** The motion parameters (ai.py 137-142 and 367-388) *)

(** A parameter that is the setting when there is one, and otherwise lies
    in the range of its random default. *)
Definition setting_or_within (entry : option Q) (lo hi v : Q) : Prop :=
  match entry with
  | Some s => v = s
  | None => lo <= v /\ v < hi
  end.

Section MotionParameters.
Context `{ML : MathLib} `{RS : RandomSource}.
Variables width height : Z.

Lemma returns_uniform_within (entry : option Q) (a b : Q) :
  a < b ->
  returns (fun u => setting_or_within entry a b (get entry u)) (rng_uniform a b).
Proof.
  intros H. unfold rng_uniform.
  eapply returns_bind; [apply returns_random |].
  intros r [R0 R1]. apply returns_ret.
  destruct entry as [s |]; cbn [get setting_or_within]; [reflexivity |].
  split; nra.
Qed.

Lemma path_part_returns (cs : CharSettings) (lp : option string) (angle : Q) :
  returns (fun _ => True)
    (match s_position_x cs, s_position_y cs with
     | Some base_x, Some base_y =>
       if get (s_fixed_position cs) false then
         cps <~ fixed_micro_path width height cs base_x base_y ;;
         ret (cps, angle, lp)
       else
         '(cps, angle, path_type) <~
           styled_path width height cs base_x base_y angle ;;
         ret (cps, angle, Some path_type)
     | _, _ =>
       cps <~ random_path width height ;;
       ret (cps, angle, lp)
     end).
Proof.
  destruct (s_position_x cs) as [base_x |];
    [destruct (s_position_y cs) as [base_y |] |].
  - destruct (get (s_fixed_position cs) false).
    + eapply returns_bind; [apply fixed_micro_path_returns |].
      intros cps _. now apply returns_ret.
    + eapply returns_bind; [apply styled_path_returns |].
      intros [[cps a] pt] _. now apply returns_ret.
  - eapply returns_bind; [apply random_path_returns |].
    intros cps _. now apply returns_ret.
  - eapply returns_bind; [apply random_path_returns |].
    intros cps _. now apply returns_ret.
Qed.

(** X8: every motion that the loop body builds takes each of scale, scale
    variation, breathe amount, breathe speed and rotation speed from the
    settings when the key is there and otherwise from its default range
    ([0.35, 0.6), [0.8, 1.25), [0.02, 0.05), [0.8, 1.3), [0.7, 1.3)); the
    target scale is the base scale times the variation, the pulse amount is
    0.3 times the breathe amount and the pulse speed 2.7 times the breathe
    speed. *)
Theorem build_motion_parameters (cs : CharSettings) (lp : option string)
        (g : rng) :
  exists (m : MotionData) (lp' : option string) (g' : rng) (variation : Q),
    build_motion width height cs lp g = Py.Ok (m, lp', g') /\
    setting_or_within (s_scale cs) 0.35 0.6 (scale_base m) /\
    setting_or_within (s_scale_variation cs) 0.8 1.25 variation /\
    scale_target m = scale_base m * variation /\
    setting_or_within (s_breathe_amount cs) 0.02 0.05 (breathe_amount m) /\
    setting_or_within (s_breathe_speed cs) 0.8 1.3 (breathe_speed m) /\
    setting_or_within (s_rotation_speed cs) 0.7 1.3 (rotation_speed m) /\
    pulse_amount m = breathe_amount m * 0.3 /\
    pulse_speed m = breathe_speed m * 2.7.
Proof.
  assert (returns
            (fun r : MotionData * option string =>
               exists variation,
                 setting_or_within (s_scale cs) 0.35 0.6 (scale_base (fst r)) /\
                 setting_or_within (s_scale_variation cs) 0.8 1.25 variation /\
                 scale_target (fst r) = scale_base (fst r) * variation /\
                 setting_or_within (s_breathe_amount cs) 0.02 0.05
                                   (breathe_amount (fst r)) /\
                 setting_or_within (s_breathe_speed cs) 0.8 1.3
                                   (breathe_speed (fst r)) /\
                 setting_or_within (s_rotation_speed cs) 0.7 1.3
                                   (rotation_speed (fst r)) /\
                 pulse_amount (fst r) = breathe_amount (fst r) * 0.3 /\
                 pulse_speed (fst r) = breathe_speed (fst r) * 2.7)
            (build_motion width height cs lp)) as R.
  { unfold build_motion.
    eapply returns_bind;
      [apply (returns_uniform_within (s_scale cs) 0.35 0.6); reflexivity |].
    intros u1 U1.
    eapply returns_bind;
      [apply (returns_uniform_within (s_scale_variation cs) 0.8 1.25);
       reflexivity |].
    intros u2 U2.
    eapply returns_bind; [apply returns_uniform |]. intros u3 _.
    eapply returns_bind; [apply path_part_returns |].
    intros [[cps a] pt] _. cbn beta iota.
    eapply returns_bind;
      [apply (returns_uniform_within (s_breathe_amount cs) 0.02 0.05);
       reflexivity |].
    intros u4 U4.
    eapply returns_bind;
      [apply (returns_uniform_within (s_breathe_speed cs) 0.8 1.3);
       reflexivity |].
    intros u5 U5.
    eapply returns_bind;
      [apply (returns_uniform_within (s_rotation_speed cs) 0.7 1.3);
       reflexivity |].
    intros u6 U6.
    apply returns_ret. exists (get (s_scale_variation cs) u2).
    cbn [fst scale_base scale_target breathe_amount breathe_speed
         rotation_speed pulse_amount pulse_speed]. auto 10. }
  destruct (R g) as [[m lp'] [g' [E [v P]]]]. cbn [fst] in P.
  exists m, lp', g', v. auto.
Qed.

(** The value the local [angle] holds after the loop of the circular path:
    the angle of the last anchor. *)
Lemma circle_anchors_angle (base_x base_y move_range : Q) (n : Z) (angle : Q) :
  (0 < n)%Z ->
  returns (fun r => snd r = inject_Z (Z.of_nat (Z.to_nat n - 1)) * 2 * m_pi
                           / inject_Z n)
          (circle_anchors width height base_x base_y move_range n angle).
Proof.
  intros N. unfold circle_anchors.
  eapply returns_weaken.
  - apply (returns_for_range
             (fun p (st : list point * Q) =>
                (0 < p)%nat ->
                snd st = inject_Z (Z.of_nat (p - 1)) * 2 * m_pi / inject_Z n)).
    2: { intros H. lia. }
    intros p [l a] _ _. step_random. unfold circle_anchor.
    apply returns_ret. cbn [snd]. intros _.
    replace (Datatypes.S p - 1)%nat with p by lia. reflexivity.
  - intros r H. apply H. lia.
Qed.

(** X9: for a sprite with a base position, not fixed, and the circle style,
    the base angle of the motion is the angle of the last anchor,
    [(n - 1) * 2 * pi / n] for the number [n] of anchors (6 to 9): the
    ['rotation'] setting and its random default are overwritten by the loop
    that builds the anchors, which rebinds the local [angle]. *)
Theorem circle_path_overwrites_rotation (cs : CharSettings) (base_x base_y : Q)
        (lp : option string) (g : rng) :
  s_position_x cs = Some base_x ->
  s_position_y cs = Some base_y ->
  get (s_fixed_position cs) false = false ->
  s_path_type cs = Some "circle"%string ->
  exists (m : MotionData) (g' : rng) (n : Z),
    build_motion width height cs lp g = Py.Ok (m, Some "circle"%string, g') /\
    (6 <= n <= 9)%Z /\
    angle_base m
    = inject_Z (Z.of_nat (Z.to_nat n - 1)) * 2 * m_pi / inject_Z n /\
    path_type m = "circle"%string.
Proof.
  intros PX PY FX PT.
  assert (returns
            (fun r : MotionData * option string =>
               snd r = Some "circle"%string /\
               path_type (fst r) = "circle"%string /\
               exists n, (6 <= n <= 9)%Z /\
                         angle_base (fst r)
                         = inject_Z (Z.of_nat (Z.to_nat n - 1)) * 2 * m_pi
                           / inject_Z n)
            (build_motion width height cs lp)) as R.
  { unfold build_motion. rewrite PX, PY, FX.
    eapply returns_bind; [apply returns_uniform |]. intros u1 _.
    eapply returns_bind; [apply returns_uniform |]. intros u2 _.
    eapply returns_bind; [apply returns_uniform |]. intros u3 _.
    eapply returns_bind
      with (P := fun r : list point * Q * option string =>
                   snd r = Some "circle"%string /\
                   exists n, (6 <= n <= 9)%Z /\
                             snd (fst r)
                             = inject_Z (Z.of_nat (Z.to_nat n - 1)) * 2 * m_pi
                               / inject_Z n).
    - eapply returns_bind
        with (P := fun r : list point * Q * string =>
                     snd r = "circle"%string /\
                     exists n, (6 <= n <= 9)%Z /\
                               snd (fst r)
                               = inject_Z (Z.of_nat (Z.to_nat n - 1)) * 2 * m_pi
                                 / inject_Z n).
      + unfold styled_path, styled_anchors. rewrite PT. cbn [get].
        eapply returns_bind
          with (P := fun r : list point * Q * string =>
                       snd r = "circle"%string /\
                       exists n, (6 <= n <= 9)%Z /\
                                 snd (fst r)
                                 = inject_Z (Z.of_nat (Z.to_nat n - 1)) * 2
                                   * m_pi / inject_Z n).
        * eapply returns_bind; [apply (returns_randint 6 9); lia |].
          intros n N. cbv beta in N.
          eapply returns_bind; [apply returns_choice; easy |].
          intros c _. cbn [String.eqb Ascii.eqb Bool.eqb andb].
          eapply returns_bind; [apply (circle_anchors_angle _ _ _ n); lia |].
          intros [anchors a] A. cbn [snd] in A.
          apply returns_ret. cbn [fst snd]. split; [reflexivity |].
          exists n. auto.
        * intros [[anchors a] pt] [P A]. cbn [fst snd] in *. cbn beta iota.
          destruct (spline_path_ok width height 4 anchors) as [cps [E _]].
          eapply returns_bind;
            [eapply (returns_lift (fun _ => True)); [exact E | exact I] |].
          intros c _. apply returns_ret. cbn [fst snd]. auto.
      + intros [[cps a] pt] [P A]. cbn [fst snd] in *. subst pt.
        apply returns_ret. cbn [fst snd]. auto.
    - intros [[cps a] pt] [P A]. cbn [fst snd] in *. subst pt. cbn beta iota.
      eapply returns_bind; [apply returns_uniform |]. intros u4 _.
      eapply returns_bind; [apply returns_uniform |]. intros u5 _.
      eapply returns_bind; [apply returns_uniform |]. intros u6 _.
      apply returns_ret. cbn [fst snd angle_base path_type get]. auto. }
  destruct (R g) as [[m lp'] [g' [E [P [T [n [N A]]]]]]].
  cbn [fst snd] in *. subst lp'. exists m, g', n. auto.
Qed.
End MotionParameters.

(** Settings with a base position and a style, and nothing else. *)
Definition styled_settings (x y : Q) (style : string) : CharSettings := {|
  s_scale := None; s_scale_variation := None; s_rotation := Some 5;
  s_position_x := Some x; s_position_y := Some y; s_fixed_position := None;
  s_micro_movement := None; s_move_range := None;
  s_path_type := Some style;
  s_path_speed := None; s_breathe_amount := None; s_breathe_speed := None;
  s_rotation_speed := None; s_tilt_factor := None
|}.

Lemma styled_path_within_margins_witness :
  exists (control_points : list point) (angle' : Q) (g' : @rng lcg) (n : nat),
    @styled_path rational_math lcg 768 432 (styled_settings 10 10 "wave")
                 10 10 0 seed_7_at_path
    = Py.Ok (control_points, angle', "wave"%string, g') /\
    Forall (in_margins 768 432) control_points /\
    (6 <= n <= 9)%nat /\ List.length control_points = (4 * n)%nat.
Proof.
  apply (@styled_path_within_margins rational_math lcg 768 432).
  - lia.
  - lia.
  - reflexivity.
  - right. right. reflexivity.
Defined.

Lemma random_path_within_margins_witness :
  exists (control_points : list point) (g' : @rng lcg) (k : nat),
    @random_path rational_math lcg 768 432 seed_7_at_path
    = Py.Ok (control_points, g') /\
    Forall (in_margins 768 432) control_points /\
    (4 <= k <= 6)%nat /\ List.length control_points = (5 * k)%nat.
Proof.
  apply (@random_path_within_margins rational_math lcg 768 432); lia.
Defined.

Lemma organic_path_starts_at_base_witness :
  exists (rest : list point) (angle' : Q) (g' : @rng lcg),
    @styled_path rational_math lcg 768 432 (styled_settings 10 10 "zigzag")
                 10 10 0 seed_7_at_path
    = Py.Ok ((10, 10) :: rest, angle', "zigzag"%string, g') /\
    Forall (in_margins 768 432) rest /\
    (27 <= List.length rest <= 39)%nat.
Proof.
  apply (@organic_path_starts_at_base rational_math lcg 768 432).
  - lia.
  - lia.
  - reflexivity.
  - reflexivity.
  - reflexivity.
  - reflexivity.
Defined.

Lemma circle_path_overwrites_rotation_witness :
  exists (m : MotionData) (g' : @rng lcg) (n : Z),
    @build_motion rational_math lcg 768 432 (styled_settings 300 200 "circle")
                  None (@seeded lcg 7)
    = Py.Ok (m, Some "circle"%string, g') /\
    (6 <= n <= 9)%Z /\
    angle_base m
    = inject_Z (Z.of_nat (Z.to_nat n - 1)) * 2 * @m_pi rational_math
      / inject_Z n /\
    path_type m = "circle"%string.
Proof.
  apply (@circle_path_overwrites_rotation rational_math lcg 768 432
           (styled_settings 300 200 "circle") 300 200); reflexivity.
Defined.

(** ** Time, position and order in a frame (ai.py 429-467) *)

(** X10: with more than one frame the normalised time runs linearly over
    the clip: it is 0 at the first frame, 1 at the last one, strictly
    increasing in the frame index and inside [[0, 1]] for every frame; with
    a single frame it is 0. *)
Theorem frame_time_runs_from_0_to_1 (n_frames : Z) :
  (1 < n_frames)%Z ->
  frame_time n_frames 0 == 0 /\
  frame_time n_frames (n_frames - 1) == 1 /\
  (forall f, (0 <= f < n_frames)%Z ->
             0 <= frame_time n_frames f /\ frame_time n_frames f <= 1) /\
  (forall f f', (f < f')%Z -> frame_time n_frames f < frame_time n_frames f') /\
  frame_time 1 0 == 0.
Proof.
  intros N. unfold frame_time.
  destruct (1 <? n_frames)%Z eqn:E; [| apply Z.ltb_ge in E; lia].
  assert (0 < inject_Z (n_frames - 1)) as P
      by (change 0 with (inject_Z 0); apply inject_Z_lt_iff; lia).
  split; [unfold Qdiv; change (inject_Z 0) with 0; ring |].
  split; [field; lra |].
  split; [| split; [| reflexivity]].
  - intros f [F0 F1].
    assert (0 <= inject_Z f) as A
        by (change 0 with (inject_Z 0); apply inject_Z_le_iff; exact F0).
    assert (inject_Z f <= inject_Z (n_frames - 1)) as B
        by (apply inject_Z_le_iff; lia).
    split.
    + apply Qle_shift_div_l; [exact P | lra].
    + apply Qle_shift_div_r; [exact P | lra].
  - intros f f' F. apply inject_Z_lt_iff in F.
    apply Qlt_shift_div_l; [exact P |].
    setoid_replace (inject_Z f / inject_Z (n_frames - 1) * inject_Z (n_frames - 1))
      with (inject_Z f) by (field; lra).
    exact F.
Qed.

Lemma frame_time_runs_from_0_to_1_witness :
  frame_time 120 0 == 0 /\
  frame_time 120 (120 - 1) == 1 /\
  (forall f, (0 <= f < 120)%Z ->
             0 <= frame_time 120 f /\ frame_time 120 f <= 1) /\
  (forall f f', (f < f')%Z -> frame_time 120 f < frame_time 120 f') /\
  frame_time 1 0 == 0.
Proof.
  apply (frame_time_runs_from_0_to_1 120). reflexivity.
Defined.

(** The eased sampling parameter lies in [[0, 1]]. *)
Lemma eased_time_range (cs : CharSettings) (t : Q) :
  0 <= eased_time cs t /\ eased_time cs t <= 1.
Proof.
  unfold eased_time.
  destruct (mod1_range (t * get (s_path_speed cs) 1.0 * 1.5)) as [A B].
  apply ease_in_out_range; lra.
Qed.

(** A sample inside the unit interval lies in the bounding box; at the
    parameter 1 the sample is the first point of the path. *)
Lemma sample_in_box (points : list point) (t : Q) (p : point) :
  (2 <= List.length points)%nat -> 0 <= t -> t <= 1 ->
  get_path_position points t = Py.Ok p -> within_box points p.
Proof.
  assert (forall u q, (2 <= List.length points)%nat -> 0 <= u -> u < 1 ->
                      get_path_position points u = Py.Ok q ->
                      within_box points q) as Inside.
  { intros u q L H0 H1 G.
    destruct (segment_of_unit points u L H0 H1) as [i [I [B [S0 S1]]]].
    destruct (nth_error points i) as [p1 |] eqn:N1;
      [| apply nth_error_None in N1; lia].
    destruct (nth_error points (Datatypes.S i)) as [p2 |] eqn:N2;
      [| apply nth_error_None in N2; lia].
    destruct (ease_in_out_range (snd (segment_of points u))) as [E0 E1];
      [lra | lra |].
    rewrite get_path_position_unfold in G
      by (destruct points; [simpl in L; lia | easy]).
    rewrite I, (index_nat _ _ _ N1) in G.
    replace (Z.of_nat i + 1)%Z with (Z.of_nat (Datatypes.S i)) in G by lia.
    rewrite (index_nat _ _ _ N2) in G. cbn [Py.bind] in G.
    assert (interpolate p1 p2 (ease_in_out (snd (segment_of points u))) = q)
      as <- by congruence.
    clear G. intros lo_x hi_x lo_y hi_y F. rewrite Forall_forall in F.
    pose proof (F p1 (nth_error_In _ _ N1)) as [A1 [A2 [A3 A4]]].
    pose proof (F p2 (nth_error_In _ _ N2)) as [B1 [B2 [B3 B4]]].
    set (s := ease_in_out (snd (segment_of points u))) in *.
    unfold interpolate. cbn [fst snd]. repeat split; nra. }
  intros L H0 H1 G. destruct (Qlt_le_dec t 1) as [Lt | Ge].
  - exact (Inside t p L H0 Lt G).
  - assert (t == 1) as T by lra.
    assert (Py.int t = 1%Z) as IT by (rewrite (int_comp t 1 T); reflexivity).
    pose proof (get_path_position_same_fraction points t 0) as S.
    rewrite G in S.
    destruct (get_path_position points 0) as [q | e] eqn:G0.
    + assert (within_box points q) as W
          by (apply (Inside 0 q L); [lra | lra | exact G0]).
      destruct S as [SX SY].
      { rewrite IT. change (Py.int 0) with 0%Z.
        change (inject_Z 1) with 1. change (inject_Z 0) with 0. lra. }
      intros lo_x hi_x lo_y hi_y F.
      destruct (W lo_x hi_x lo_y hi_y F) as [A [B [C D]]].
      rewrite SX, SY. auto.
    + exfalso. apply S.
      rewrite IT. change (Py.int 0) with 0%Z.
      change (inject_Z 1) with 1. change (inject_Z 0) with 0. lra.
Qed.

Section SpritePosition.
Context `{ML : MathLib} `{IL : ImageLib}.

(** X11: in every frame, at whatever time, a sprite that is drawn is pasted
    from a position sampled on its path at a parameter in [[0, 1]]: for a
    path of at least two points, none of whose coordinates is above
    [10 ^ 150] in size, the position lies in the bounding box of the path up
    to the rounding margin. *)
Theorem sprite_position_near_path_box (motions : list MotionData)
        (character_settings : SettingsMap) (t : Q) (i : nat) (av : Image)
        (m : MotionData) :
  nth_error motions i = Some m ->
  (2 <= List.length (control_points m))%nat ->
  coordinates_within (10 ^ 150) (control_points m) = true ->
  match render_sprite motions character_settings t i av with
  | Py.Ok (Some layer) => near_box (control_points m) (position layer)
  | Py.Ok None => True
  | Py.Raise _ => True
  end.
Proof.
  intros N L _.
  destruct (render_sprite_ok motions character_settings t i av m N)
    as [r [E P]].
  rewrite E. destruct r as [layer |]; [| exact I].
  destruct P as [_ [_ [_ G]]].
  destruct (eased_time_range (get (lookup character_settings i) no_settings) t)
    as [T0 T1].
  apply within_box_near_box. exact (sample_in_box _ _ _ L T0 T1 G).
Qed.
End SpritePosition.

Lemma sprite_position_near_path_box_witness :
  match @render_sprite rational_math sized_images
          [still_motion down_and_back; still_motion standing] [] (7 # 3)
          0 sample_avatar with
  | Py.Ok (Some layer) => near_box down_and_back (position layer)
  | Py.Ok None => True
  | Py.Raise _ => True
  end.
Proof.
  apply (@sprite_position_near_path_box rational_math sized_images
           [still_motion down_and_back; still_motion standing] [] (7 # 3) 0
           sample_avatar (still_motion down_and_back)).
  - reflexivity.
  - simpl. lia.
  - reflexivity.
Defined.

(** The sort key of avatar [i] in a frame at time [t]: the [y] of its path
    sampled at [t] (ai.py 441-444). *)
Definition frame_y (motions : list MotionData) (t : Q) (i : nat) : Q :=
  match nth_error motions i with
  | Some m =>
    match get_path_position (control_points m) t with
    | Py.Ok p => snd p
    | Py.Raise _ => 0
    end
  | None => 0
  end.

Lemma sorted_map {A B} (R : A -> A -> Prop) (R' : B -> B -> Prop) (f : A -> B)
      (l : list A) :
  (forall a b, In a l -> In b l -> R a b -> R' (f a) (f b)) ->
  StronglySorted R l -> StronglySorted R' (map f l).
Proof.
  intros H S. induction S as [| a l S IH F]; simpl; [constructor |].
  constructor.
  - apply IH. intros x y Hx Hy. apply H; now right.
  - apply Forall_forall. intros y Hy. apply in_map_iff in Hy.
    destruct Hy as [x [<- Hx]]. rewrite Forall_forall in F.
    apply H; [now left | now right | now apply F].
Qed.

Section DepthOrderOfACode.
Variable avatars : list Image.
Variable motions : list MotionData.
Hypothesis one_motion_each : List.length motions = List.length avatars.
Hypothesis paths_not_empty : Forall (fun m => control_points m <> []) motions.

Lemma all_have_points_true (indices : list nat) :
  Forall (fun i => (i < List.length motions)%nat) indices ->
  all_have_points motions indices = Py.Ok true.
Proof.
  induction indices as [| i rest IH]; intros F; [reflexivity |].
  inversion F as [| ? ? I F']; subst. cbn [all_have_points].
  destruct (nth_error motions i) as [m |] eqn:N;
    [| apply nth_error_None in N; lia].
  rewrite (index_nat motions i m N). cbn [Py.bind].
  assert (control_points m <> []) as NE.
  { rewrite Forall_forall in paths_not_empty. apply paths_not_empty.
    eapply nth_error_In. exact N. }
  destruct (control_points m); [easy | apply IH; exact F'].
Qed.

Lemma with_depth_keys_keyed (t : Q) (entries : list (nat * Image)) :
  Forall (fun e => nth_error avatars (fst e) = Some (snd e)) entries ->
  exists keyed, with_depth_keys avatars motions t entries = Py.Ok keyed /\
                map fst keyed = entries /\
                Forall (fun e => snd e = frame_y motions t (fst (fst e))) keyed.
Proof.
  induction entries as [| [i av] rest IH]; intros F.
  - exists []. repeat split; constructor.
  - inversion F as [| ? ? I F']; subst. cbn [fst snd] in I.
    cbn [with_depth_keys].
    assert (i < List.length avatars)%nat as B
        by (apply nth_error_Some; congruence).
    destruct (nth_error motions i) as [m |] eqn:N;
      [| apply nth_error_None in N; lia].
    rewrite (index_nat motions i m N). cbn [Py.bind].
    destruct (get_path_position_total (control_points m) t) as [pos P].
    rewrite P. cbn [Py.bind].
    rewrite (index_nat avatars i av I). cbn [Py.bind].
    destruct (IH F') as [keyed [K [M Y]]]. rewrite K. cbn [Py.bind].
    eexists. split; [reflexivity |]. split; [cbn [map fst]; now rewrite M |].
    constructor; [| exact Y]. cbn [fst snd]. unfold frame_y. now rewrite N, P.
Qed.

(** X12: when every path has a point, as every path that is built has, the
    order in which a frame composites its avatars is a rearrangement of the
    avatars, each once, in ascending order of the [y] of its path sampled at
    the frame's time [t]. *)
Theorem depth_order_by_frame_time (t : Q) :
  exists order,
    sorted_avatars avatars motions t = Py.Ok order /\
    Permutation order (enumerate avatars) /\
    StronglySorted (fun a b => frame_y motions t (fst a)
                               <= frame_y motions t (fst b)) order.
Proof.
  unfold sorted_avatars.
  rewrite all_have_points_true
    by (apply Forall_forall; intros i Hi; apply in_seq in Hi; lia).
  cbn [Py.bind].
  destruct (with_depth_keys_keyed t (enumerate avatars)) as [keyed [K [M Y]]].
  { apply Forall_forall. intros [i av] Hi. now apply enumerate_spec. }
  rewrite K. cbn [Py.bind]. eexists. split; [reflexivity |]. split.
  - rewrite <- M. apply Permutation_map. apply sort_by_key_perm.
  - apply (sorted_map (fun a b : nat * Image * Q => snd a <= snd b));
      [| apply sort_by_key_sorted].
    intros a b Ha Hb H. rewrite Forall_forall in Y.
    apply (Permutation_in _ (sort_by_key_perm keyed)) in Ha.
    apply (Permutation_in _ (sort_by_key_perm keyed)) in Hb.
    rewrite <- (Y a Ha), <- (Y b Hb). exact H.
Qed.
End DepthOrderOfACode.

Lemma depth_order_by_frame_time_witness :
  exists order,
    sorted_avatars [sample_avatar; sample_avatar]
                   [still_motion down_and_back; still_motion standing] (1 # 4)
    = Py.Ok order /\
    Permutation order (enumerate [sample_avatar; sample_avatar]) /\
    StronglySorted
      (fun a b =>
         frame_y [still_motion down_and_back; still_motion standing] (1 # 4)
                 (fst a)
         <= frame_y [still_motion down_and_back; still_motion standing] (1 # 4)
                    (fst b)) order.
Proof.
  apply (depth_order_by_frame_time [sample_avatar; sample_avatar]
           [still_motion down_and_back; still_motion standing]).
  - reflexivity.
  - repeat constructor; discriminate.
Defined.

Section LayersOfAFrame.
Context `{ML : MathLib} `{IL : ImageLib}.
Variable avatars : list Image.
Variable motions : list MotionData.
Variable character_settings : SettingsMap.
Hypothesis one_motion_each : List.length motions = List.length avatars.

(** Whether the loop body draws the entry: its target size is at least 5
    in both dimensions. *)
Definition drawn (t : Q) (e : nat * Image) : bool :=
  match nth_error motions (fst e) with
  | Some m => negb (too_small (snd e) m t)
  | None => false
  end.

Lemma render_sprites_list (t : Q) (order : list (nat * Image)) :
  Forall (fun e => (fst e < List.length motions)%nat) order ->
  forall acc, exists composited,
    render_sprites motions character_settings t order acc
    = Py.Ok (acc ++ composited) /\
    map sprite composited = map fst (filter (drawn t) order).
Proof.
  induction order as [| [i av] rest IH]; intros F acc.
  - exists []. rewrite app_nil_r. split; reflexivity.
  - inversion F as [| ? ? I F']; subst. cbn [fst] in I.
    destruct (nth_error motions i) as [m |] eqn:N;
      [| apply nth_error_None in N; lia].
    destruct (render_sprite_ok motions character_settings t i av m N)
      as [r [E P]].
    cbn [render_sprites filter]. rewrite E. cbn [Py.bind].
    unfold drawn at 1. cbn [fst snd]. rewrite N.
    destruct r as [layer |].
    + destruct P as [S [Sp _]]. rewrite S. cbn [negb].
      destruct (IH F' (acc ++ [layer])) as [c [Ec Mc]].
      exists (layer :: c). split.
      * rewrite Ec, <- app_assoc. reflexivity.
      * cbn [map fst]. now rewrite Sp, Mc.
    + rewrite P. cbn [negb]. apply IH. exact F'.
Qed.

(** X13: the layers of a frame are the avatars whose target size is at
    least 5 in both dimensions, each exactly once, in the order the depth
    sort left them. *)
Theorem layers_follow_depth_order (bg : Image) (n_frames f : Z) :
  exists order frame,
    sorted_avatars avatars motions (frame_time n_frames f) = Py.Ok order /\
    render_frame avatars motions character_settings bg n_frames f
    = Py.Ok frame /\
    map sprite (layers frame)
    = map fst (filter (drawn (frame_time n_frames f)) order).
Proof.
  unfold render_frame.
  destruct (sorted_avatars_ok avatars motions one_motion_each
                              (frame_time n_frames f)) as [order [O P]].
  rewrite O. cbn [Py.bind].
  destruct (render_sprites_list (frame_time n_frames f) order) with (acc := @nil Layer)
    as [c [C M]].
  { apply Forall_forall. intros [i av] Hi. cbn [fst].
    apply (Permutation_in _ P) in Hi. apply enumerate_spec in Hi.
    rewrite one_motion_each. apply nth_error_Some. congruence. }
  rewrite C. cbn [Py.bind app]. exists order. eexists.
  split; [reflexivity |]. split; [reflexivity |]. exact M.
Qed.
End LayersOfAFrame.

Lemma layers_follow_depth_order_witness :
  exists order frame,
    sorted_avatars [tiny_avatar; sample_avatar]
                   [still_motion down_and_back; still_motion standing]
                   (frame_time 120 7) = Py.Ok order /\
    @render_frame rational_math sized_images [tiny_avatar; sample_avatar]
                  [still_motion down_and_back; still_motion standing] []
                  sample_background 120 7 = Py.Ok frame /\
    map sprite (layers frame)
    = map fst (filter (@drawn rational_math
                         [still_motion down_and_back; still_motion standing]
                         (frame_time 120 7)) order).
Proof.
  apply (@layers_follow_depth_order rational_math sized_images
           [tiny_avatar; sample_avatar]
           [still_motion down_and_back; still_motion standing] []).
  reflexivity.
Defined.

(** ** The files of a run (ai.py 391-392, 557-589) *)

(** Reading a frame number back from its zero-padded decimal form. *)
Definition parse_05d (s : string) : option nat :=
  option_map Nat.of_uint (NilEmpty.uint_of_string s).

Fixpoint leading_zeros (k : nat) (d : Decimal.uint) : Decimal.uint :=
  match k with
  | O => d
  | Datatypes.S k' => Decimal.D0 (leading_zeros k' d)
  end.

Lemma uint_of_zeros (k : nat) (s : string) :
  NilEmpty.uint_of_string (zeros k ++ s)%string
  = option_map (leading_zeros k) (NilEmpty.uint_of_string s).
Proof.
  induction k as [| k IH]; cbn [zeros leading_zeros].
  - cbn [String.append]. destruct (NilEmpty.uint_of_string s); reflexivity.
  - cbn [String.append NilEmpty.uint_of_string]. rewrite IH.
    destruct (NilEmpty.uint_of_string s); reflexivity.
Qed.

Lemma of_uint_leading_zeros (k : nat) (d : Decimal.uint) :
  Nat.of_uint (leading_zeros k d) = Nat.of_uint d.
Proof. induction k as [| k IH]; [reflexivity | exact IH]. Qed.

Lemma parse_format_05d (f : nat) : parse_05d (format_05d f) = Some f.
Proof.
  unfold parse_05d, format_05d, str_of_nat. rewrite uint_of_zeros.
  rewrite NilEmpty.usu. cbn [option_map].
  now rewrite of_uint_leading_zeros, DecimalNat.Unsigned.of_to.
Qed.

Lemma string_length_append (a b : string) :
  String.length (a ++ b)%string = (String.length a + String.length b)%nat.
Proof. induction a as [| c a IH]; simpl; [reflexivity | now rewrite IH]. Qed.

Lemma append_cancel_l (a x y : string) :
  (a ++ x)%string = (a ++ y)%string -> x = y.
Proof.
  induction a as [| c a IH]; simpl; intros E; [exact E |].
  apply IH. congruence.
Qed.

Lemma append_cancel_r (s x : string) :
  forall y, (x ++ s)%string = (y ++ s)%string -> x = y.
Proof.
  induction x as [| c x IH]; intros [| c' y] E; simpl in E.
  - reflexivity.
  - apply (f_equal String.length) in E. simpl in E.
    rewrite string_length_append in E. lia.
  - apply (f_equal String.length) in E. simpl in E.
    rewrite string_length_append in E. lia.
  - injection E as -> E. f_equal. now apply IH.
Qed.

Lemma frame_path_injective (frames_dir : string) (f f' : nat) :
  frame_path frames_dir f = frame_path frames_dir f' -> f = f'.
Proof.
  unfold frame_path, path_join. intros E.
  apply append_cancel_l in E. apply (append_cancel_l "/") in E.
  apply (append_cancel_l "f_") in E. apply append_cancel_r in E.
  apply (f_equal parse_05d) in E. rewrite !parse_format_05d in E. congruence.
Qed.

Lemma zeros_length (k : nat) : String.length (zeros k) = k.
Proof. induction k as [| k IH]; simpl; [reflexivity | now rewrite IH]. Qed.

(** X14: the name [f_{f:05d}.png] determines the frame: the five-digit
    form reads back as [f], also for a frame number of more than five
    digits, it is never shorter than five characters, and the paths of the
    frames of a run are pairwise distinct, so that no frame of a run
    overwrites another one. *)
Theorem frame_names_are_distinct (frames_dir : string) (n : nat) :
  (forall f, parse_05d (format_05d f) = Some f) /\
  (forall f, (5 <= String.length (format_05d f))%nat) /\
  NoDup (map (frame_path frames_dir) (seq 0 n)).
Proof.
  split; [exact parse_format_05d |]. split.
  - intros f. unfold format_05d.
    rewrite string_length_append, zeros_length. lia.
  - assert (forall l, NoDup l -> NoDup (map (frame_path frames_dir) l)) as H.
    { induction l as [| a l IH]; intros N; [constructor |].
      inversion N as [| ? ? NI N']; subst. cbn [map]. constructor.
      - intros I. apply in_map_iff in I. destruct I as [b [E I]].
        apply frame_path_injective in E. now subst b.
      - now apply IH. }
    apply H, seq_NoDup.
Qed.

Section Outcome.
Context `{ML : MathLib} `{RS : RandomSource} `{IL : ImageLib} `{EN : Enhancer}.

(** The name of the video: [scene_{k}.mp4] in the temporary directory. *)
Definition scene_path (w : World) (k : Z) : string :=
  path_join (tempdir w) ("scene_" ++ str_of_Z k ++ ".mp4")%string.

(** What a run does once the motions are built: the number [k] of the video
    is the first draw from the generator as the path building left it. *)
Lemma composite_video_from_stage (bg : Image) (avatars : list Image)
      (duration_s fps : Z) (size : Z * Z) (seed : option Z)
      (character_settings : option SettingsMap) (prompt : option string)
      (w : World) (motions : list MotionData) (g : rng) :
  build_stage avatars size seed character_settings prompt w
  = Py.Ok (motions, g) ->
  let frames_dir := path_join (tempdir w) ("frames_" ++ mkdtemp_suffix w)%string in
  let n := Z.to_nat (duration_s * fps) in
  let out_path := scene_path w (fst (randbelow 1000000 g)) in
  let call := encoder_call frames_dir out_path fps in
  exists (frames : list Frame) (w' : World),
    composite_video bg avatars duration_s fps size seed character_settings
                    prompt w
    = (if encoder_succeeds w then Py.Ok out_path
       else Py.Raise Py.FfmpegError, w') /\
    List.length frames = n /\
    directories w' = (directories w ++ [frames_dir])%list /\
    files w' = (files w
                ++ combine (map (frame_path frames_dir) (seq 0 n))
                           (map Png frames)
                ++ (if encoder_succeeds w then [(out_path, Mp4 call)]
                    else []))%list /\
    encoder_runs w' = (encoder_runs w ++ [call])%list.
Proof.
  intros B frames_dir n out_path call. unfold composite_video.
  destruct (build_stage_returns avatars size seed character_settings prompt w)
    as [motions' [g' [B' [L _]]]].
  rewrite B in B'. injection B' as <- <-.
  rewrite B. unfold mkdtemp. fold frames_dir.
  match goal with
  | |- context [render_frames ?a ?m ?c ?b ?d ?nf ?fs ?w0] =>
    destruct (render_frames_ok a m c b d nf L fs w0)
      as [frames [w1 [R [Len [F [S1 [S2 [S3 [S4 [S5 S6]]]]]]]]]]
  end.
  fold n in R, Len, F. fold n. rewrite R.
  unfold out_path, call, out_path, scene_path.
  destruct (randbelow 1000000 g) as [k g''] eqn:K.
  cbn [files directories tempdir encoder_runs encoder_succeeds fst] in *.
  exists frames. unfold run_encoder. rewrite S6, S2.
  rewrite length_seq in Len.
  destruct (encoder_succeeds w); eexists; (split; [reflexivity |]);
    cbn [files directories encoder_runs write_file output_path encoder_call];
    rewrite ?S4, ?S5, ?F, ?app_nil_r, <- ?app_assoc; auto.
Qed.

(** X15: how a run of [composite_video] ends.  When it returns, it returns
    [scene_{k}.mp4] in the temporary directory for a [k] with
    [0 <= k < 1000000], the encoder has succeeded and the video is the last
    file written; when the encoder's error comes out of it, no video was
    written.  In both cases the run has saved [max(0, duration_s * fps)]
    frames, [f_00000.png] onwards, and has run the encoder exactly once, at
    frame rate [fps], also when no frame was saved. *)
Theorem composite_video_outcome (bg : Image) (avatars : list Image)
        (duration_s fps : Z) (size : Z * Z) (seed : option Z)
        (character_settings : option SettingsMap) (prompt : option string)
        (w : World) :
  exists (k : Z) (saved : list (string * FileContent)),
    let frames_dir :=
      path_join (tempdir w) ("frames_" ++ mkdtemp_suffix w)%string in
    let call := encoder_call frames_dir (scene_path w k) fps in
    let run := composite_video bg avatars duration_s fps size seed
                               character_settings prompt w in
    let frames_saved :=
      Z.of_nat (List.length saved) = Z.max 0 (duration_s * fps) /\
      map fst saved
      = map (frame_path frames_dir) (seq 0 (Z.to_nat (duration_s * fps))) in
    let encoder_ran_once :=
      encoder_runs (snd run) = (encoder_runs w ++ [call])%list /\
      framerate call = fps /\ r call = fps in
    (0 <= k < 1000000)%Z /\
    match fst run with
    | Py.Ok path =>
      path = scene_path w k /\ encoder_succeeds w = true /\
      files (snd run) = (files w ++ saved ++ [(path, Mp4 call)])%list /\
      frames_saved /\ encoder_ran_once
    | Py.Raise Py.FfmpegError =>
      encoder_succeeds w = false /\
      files (snd run) = (files w ++ saved)%list /\
      frames_saved /\ encoder_ran_once
    | Py.Raise _ => True
    end.
Proof.
  destruct (build_stage_returns avatars size seed character_settings prompt w)
    as [motions [g [B _]]].
  destruct (composite_video_from_stage bg avatars duration_s fps size seed
              character_settings prompt w motions g B)
    as [frames [w' [E [Len [_ [F R]]]]]].
  exists (fst (randbelow 1000000 g)).
  exists (combine (map (frame_path
                          (path_join (tempdir w)
                                     ("frames_" ++ mkdtemp_suffix w)%string))
                       (seq 0 (Z.to_nat (duration_s * fps))))
                  (map Png frames)).
  cbv zeta. rewrite E. cbn [fst snd].
  split; [apply randbelow_range; lia |].
  assert (List.length (map Png frames)
          = List.length (map (frame_path
                                (path_join (tempdir w)
                                   ("frames_" ++ mkdtemp_suffix w)%string))
                             (seq 0 (Z.to_nat (duration_s * fps))))) as LL
      by (rewrite !length_map, length_seq; exact Len).
  assert (Z.of_nat (List.length
                      (combine (map (frame_path
                                       (path_join (tempdir w)
                                          ("frames_" ++ mkdtemp_suffix w)%string))
                                    (seq 0 (Z.to_nat (duration_s * fps))))
                               (map Png frames)))
          = Z.max 0 (duration_s * fps)) as Count
      by (rewrite length_combine, <- LL, Nat.min_id, length_map, Len; lia).
  assert (map fst (combine (map (frame_path
                                   (path_join (tempdir w)
                                      ("frames_" ++ mkdtemp_suffix w)%string))
                                (seq 0 (Z.to_nat (duration_s * fps))))
                           (map Png frames))
          = map (frame_path (path_join (tempdir w)
                               ("frames_" ++ mkdtemp_suffix w)%string))
                (seq 0 (Z.to_nat (duration_s * fps)))) as Names
      by (apply names_of_combine; now symmetry).
  destruct (encoder_succeeds w).
  - split; [reflexivity |]. split; [reflexivity |]. split; [exact F |].
    split; [split; [exact Count | exact Names] |].
    split; [exact R |]. split; reflexivity.
  - split; [reflexivity |]. split; [rewrite F, app_nil_r; reflexivity |].
    split; [split; [exact Count | exact Names] |].
    split; [exact R |]. split; reflexivity.
Qed.
End Outcome.

Section SameSeed.
Context `{ML : MathLib} `{RS : RandomSource} `{IL : ImageLib} `{EN : Enhancer}.

(** X16: with an integer seed and the enrichment module unavailable, the
    name of the video is fixed by the seed, the canvas size, the number of
    avatars and [character_settings]: two runs that agree on these, on the
    temporary directory and on whether the encoder succeeds come out the
    same, whatever the backgrounds, the avatar images, the prompts, the
    durations and the frame rates; so the second run writes its video over
    the first one's. *)
Theorem same_seed_same_video_name
        (bg1 bg2 : Image) (avatars1 avatars2 : list Image)
        (duration1 duration2 fps1 fps2 : Z) (size : Z * Z) (seed : Z)
        (character_settings : option SettingsMap)
        (prompt1 prompt2 : option string) (w1 w2 : World) :
  SMPL_AVAILABLE = false ->
  List.length avatars1 = List.length avatars2 ->
  tempdir w1 = tempdir w2 ->
  encoder_succeeds w1 = encoder_succeeds w2 ->
  fst (composite_video bg1 avatars1 duration1 fps1 size (Some seed)
                       character_settings prompt1 w1)
  = fst (composite_video bg2 avatars2 duration2 fps2 size (Some seed)
                         character_settings prompt2 w2).
Proof.
  intros U L T S.
  destruct (build_stage_returns avatars1 size (Some seed) character_settings
                                prompt1 w1) as [motions [g [B1 _]]].
  assert (build_stage avatars2 size (Some seed) character_settings prompt2 w2
          = Py.Ok (motions, g)) as B2.
  { rewrite <- B1. unfold build_stage, build_motions. destruct size as [wd ht].
    symmetry. apply build_motions_from_count; assumption. }
  destruct (composite_video_from_stage bg1 avatars1 duration1 fps1 size
              (Some seed) character_settings prompt1 w1 motions g B1)
    as [f1 [w1' [E1 _]]].
  destruct (composite_video_from_stage bg2 avatars2 duration2 fps2 size
              (Some seed) character_settings prompt2 w2 motions g B2)
    as [f2 [w2' [E2 _]]].
  rewrite E1, E2. cbn [fst]. unfold scene_path. now rewrite T, S.
Qed.
End SameSeed.

Lemma same_seed_same_video_name_witness :
  fst (@composite_video rational_math lcg sized_images no_smpl
         sample_background [sample_avatar] 10 12 (768, 432)%Z (Some 42%Z)
         None (Some "a walk"%string) (sample_world true))
  = fst (@composite_video rational_math lcg sized_images no_smpl
           sample_avatar [other_avatar] 25 30 (768, 432)%Z (Some 42%Z)
           None None (sample_world true)).
Proof.
  apply (@same_seed_same_video_name rational_math lcg sized_images no_smpl);
    reflexivity.
Defined.

(** ** The outcomes of [/generate] (main.py 277-371) *)

Fixpoint has_slash (s : string) : bool :=
  match s with
  | EmptyString => false
  | String c s' => (Ascii.eqb c "/" || has_slash s')%bool
  end.

Lemma string_app_assoc (a b c : string) :
  ((a ++ b) ++ c)%string = (a ++ (b ++ c))%string.
Proof. induction a as [| x a IH]; simpl; [reflexivity | now rewrite IH]. Qed.

Lemma has_slash_app (a b : string) :
  has_slash (a ++ b)%string = (has_slash a || has_slash b)%bool.
Proof.
  induction a as [| c a IH]; simpl; [reflexivity |].
  rewrite IH. now rewrite orb_assoc.
Qed.

Lemma basename_from_plain (b : string) :
  forall acc, has_slash b = false ->
              Main.basename_from acc b = (acc ++ b)%string.
Proof.
  induction b as [| c b IH]; intros acc H; cbn [Main.basename_from].
  - clear H. induction acc as [| x acc IHa]; simpl; [reflexivity |].
    now rewrite <- IHa.
  - cbn [has_slash] in H. apply orb_false_iff in H. destruct H as [C H].
    rewrite C, (IH _ H), string_app_assoc. reflexivity.
Qed.

Lemma basename_from_join (a b : string) :
  has_slash b = false ->
  forall acc, Main.basename_from acc (path_join a b) = b.
Proof.
  intros H. unfold path_join.
  induction a as [| c a IH]; intros acc.
  - cbn [String.append Main.basename_from]. cbn.
    now apply (basename_from_plain b EmptyString).
  - cbn [String.append Main.basename_from].
    destruct (Ascii.eqb c "/"); apply IH.
Qed.

(** [os.path.basename(os.path.join(a, b))] is [b] for a name [b] without a
    separator. *)
Lemma basename_join (a b : string) :
  has_slash b = false -> Main.basename (path_join a b) = b.
Proof. intros H. now apply basename_from_join. Qed.

Lemma has_slash_uint (d : Decimal.uint) :
  has_slash (NilEmpty.string_of_uint d) = false.
Proof. induction d; simpl; auto. Qed.

Lemma has_slash_str_of_Z (z : Z) : has_slash (str_of_Z z) = false.
Proof.
  unfold str_of_Z, NilZero.string_of_int, NilZero.string_of_uint.
  destruct (Z.to_int z) as [d | d]; destruct d; cbn [has_slash Ascii.eqb];
    try reflexivity;
    match goal with
    | |- _ = false => first [apply has_slash_uint | idtac]
    end.
Qed.

Lemma scene_name_plain (k : Z) :
  has_slash ("scene_" ++ str_of_Z k ++ ".mp4")%string = false.
Proof.
  rewrite !has_slash_app, has_slash_str_of_Z. reflexivity.
Qed.

Section GenerateOutcomes.
Context `{ML : MathLib} `{RS : RandomSource} `{IL : ImageLib} `{EN : Enhancer}.

(** The rows the query of [generate_video] returns. *)
Definition requested_characters (srv : Main.Server)
           (req : Main.GenerateRequest) : list Main.Character :=
  filter (fun ch => existsb (Z.eqb (Main.id ch)) (Main.character_ids req))
         (Main.characters srv).

(** X17: the answers of [/generate].  A duration below 10 or above 25 is
    answered with the 400 error of the duration check, and a request with a
    duration in range none of whose ids is in the table with the 400 error
    ['No valid characters found'], both with the machine left as it was.
    Whenever any other request is answered with a path, the path is
    [BASE_DIR/storage/renders/scene_{k}.mp4] with [0 <= k < 1000000], the
    encoder has succeeded and the video is the file at that path. *)
Theorem generate_video_outcomes (srv : Main.Server)
        (req : Main.GenerateRequest) (w : World) :
  let d := Main.duration_seconds req in
  let renders_dir :=
    path_join (path_join (Main.BASE_DIR srv) "storage") "renders" in
  let run := Main.generate_video srv req w in
  if ((d <? 10) || (25 <? d))%Z
  then run
       = (Py.Raise (Py.HTTPException 400 "duration_seconds must be 10-25"), w)
  else match requested_characters srv req with
       | [] =>
         run = (Py.Raise (Py.HTTPException 400 "No valid characters found"), w)
       | _ :: _ =>
         match fst run with
         | Py.Ok path =>
           encoder_succeeds w = true /\
           exists (k : Z) (call : EncoderCall),
             (0 <= k < 1000000)%Z /\
             path = path_join renders_dir
                              ("scene_" ++ str_of_Z k ++ ".mp4")%string /\
             In (path, Mp4 call) (files (snd run))
         | Py.Raise _ => True
         end
       end.
Proof.
  cbv zeta.
  unfold Main.generate_video. fold (requested_characters srv req).
  destruct (Z.leb_spec 10 (Main.duration_seconds req));
    destruct (Z.leb_spec (Main.duration_seconds req) 25);
    destruct (Z.ltb_spec (Main.duration_seconds req) 10);
    destruct (Z.ltb_spec 25 (Main.duration_seconds req)); try lia;
      cbn [andb negb orb]; try reflexivity.
  destruct (requested_characters srv req) as [| ch chars] eqn:Q;
    [reflexivity |].
  destruct (Main.load_avatars srv req 0 (ch :: chars) [] [])
    as [avatars char_settings].
  match goal with
  | |- context [composite_video ?b ?a ?d ?f ?s ?sd ?c ?pr ?w0] =>
    destruct (build_stage_returns a s sd c pr w0) as [motions [g [B _]]];
      destruct (composite_video_from_stage b a d f s sd c pr w0 motions g B)
      as [frames [w1 [E [_ [_ [F _]]]]]]
  end.
  rewrite E.
  destruct (encoder_succeeds w); [| exact I].
  cbn [fst snd]. split; [reflexivity |].
  exists (fst (randbelow 1000000 g)). eexists.
  split; [apply randbelow_range; lia |].
  unfold scene_path. rewrite basename_join by apply scene_name_plain.
  split; [reflexivity |].
  unfold Main.replace_file. cbn [files].
  apply in_or_app. right. apply in_map_iff.
  eexists (_, _). cbn [fst snd]. split; [reflexivity |].
  apply filter_In. cbn [fst]. rewrite String.eqb_refl. split; [| reflexivity].
  assert (files (Main.makedirs
                   (path_join (path_join (Main.BASE_DIR srv) "storage")
                              "renders") w1) = files w1) as M.
  { unfold Main.makedirs.
    destruct (existsb _ (directories w1)); reflexivity. }
  rewrite M, F. apply in_or_app. right. apply in_or_app. right.
  left. reflexivity.
Qed.
End GenerateOutcomes.

Section LoadedAvatars.
Context `{IL : ImageLib}.
Variable srv : Main.Server.
Variable req : Main.GenerateRequest.

(** The image file the loop opens for a character (main.py 304). *)
Definition image_path_of (ch : Main.Character) : string :=
  match Main.edited_path ch with
  | Some e => if (negb (String.eqb e "") && Main.path_exists srv e)%bool then e
              else Main.cutout_path ch
  | None => Main.cutout_path ch
  end.

(** The settings the loop stores for a character, if any (main.py 311-344). *)
Definition settings_for (ch : Main.Character) : option CharSettings :=
  match match Main.character_settings req with
        | Some m => Main.lookup_str m (str_of_Z (Main.id ch))
        | None => None
        end with
  | Some s => Some s
  | None => if Main.nonempty (Main.stored_settings ch)
            then Some (Main.stored_settings ch) else None
  end.

Lemma load_avatars_spec (chars : list Main.Character) :
  forall (i : nat) (avatars : list Image) (cs : SettingsMap),
    (forall k, (i <= k)%nat -> lookup cs k = None) ->
    fst (Main.load_avatars srv req i chars avatars cs)
    = (avatars
       ++ map (fun ch => thumbnail (Main.open_image srv (image_path_of ch))
                                   (1024, 1024)%Z) chars)%list /\
    (forall k, (k < i)%nat ->
               lookup (snd (Main.load_avatars srv req i chars avatars cs)) k
               = lookup cs k) /\
    (forall j ch, nth_error chars j = Some ch ->
                  lookup (snd (Main.load_avatars srv req i chars avatars cs))
                         (i + j)
                  = settings_for ch) /\
    (forall k, (i + List.length chars <= k)%nat ->
               lookup (snd (Main.load_avatars srv req i chars avatars cs)) k
               = None).
Proof.
  induction chars as [| ch rest IH]; intros i avatars cs Free.
  - cbn [Main.load_avatars fst snd map List.length]. rewrite app_nil_r.
    split; [reflexivity |]. split; [reflexivity |]. split.
    + intros [| j] c N; discriminate N.
    + intros k Hk. apply Free. lia.
  - cbn [Main.load_avatars]. fold (image_path_of ch).
    assert (forall k,
               lookup (match match Main.character_settings req with
                             | Some m =>
                               Main.lookup_str m (str_of_Z (Main.id ch))
                             | None => None
                             end with
                       | Some s => ((i, s) :: cs)%list
                       | None =>
                         if Main.nonempty (Main.stored_settings ch)
                         then ((i, Main.stored_settings ch) :: cs)%list
                         else cs
                       end) k
               = if Nat.eqb i k then settings_for ch else lookup cs k) as Step.
    { intros k. unfold settings_for.
      destruct (match Main.character_settings req with
                | Some m => Main.lookup_str m (str_of_Z (Main.id ch))
                | None => None
                end) as [s |]; [reflexivity |].
      destruct (Main.nonempty (Main.stored_settings ch)); [reflexivity |].
      destruct (Nat.eqb_spec i k) as [-> |]; [| reflexivity].
      apply Free. lia. }
    match goal with
    | |- context [Main.load_avatars srv req (Datatypes.S i) rest ?a ?c] =>
      destruct (IH (Datatypes.S i) a c) as [A [K [J N]]]
    end.
    { intros k Hk. rewrite Step.
      destruct (Nat.eqb_spec i k); [lia | apply Free; lia]. }
    split; [| split; [| split]].
    + rewrite A, <- app_assoc. reflexivity.
    + intros k Hk. rewrite K by lia. rewrite Step.
      destruct (Nat.eqb_spec i k); [lia | reflexivity].
    + intros [| j] c E.
      * injection E as <-. rewrite Nat.add_0_r, K by lia.
        rewrite Step. now rewrite Nat.eqb_refl.
      * replace (i + Datatypes.S j)%nat with (Datatypes.S i + j)%nat by lia.
        apply J. exact E.
    + intros k Hk. apply N. cbn [List.length] in Hk. lia.
Qed.

(** X18: the loop over the loaded characters gives one avatar per
    character, in the order of the rows, each clamped with
    [thumbnail((1024, 1024))], and files the settings under the position of
    the character in that list, not under its id: settings sent with the
    request under [str(id)] win over the stored ones, the stored ones are
    used when there are any, and a character with neither gets no entry. *)
Theorem load_avatars_by_position (chars : list Main.Character) :
  fst (Main.load_avatars srv req 0 chars [] [])
  = map (fun ch => thumbnail (Main.open_image srv (image_path_of ch))
                             (1024, 1024)%Z) chars /\
  forall j : nat,
    lookup (snd (Main.load_avatars srv req 0 chars [] [])) j
    = match nth_error chars j with
      | Some ch => settings_for ch
      | None => None
      end.
Proof.
  destruct (load_avatars_spec chars 0 [] []) as [A [_ [J N]]];
    [reflexivity |].
  split; [exact A |]. intros j.
  destruct (nth_error chars j) as [ch |] eqn:E.
  - apply (J j ch E).
  - apply N. apply nth_error_None in E. lia.
Qed.
End LoadedAvatars.

Section StoredScale.
Context `{ML : MathLib} `{RS : RandomSource}.
Variables width height : Z.

Lemma build_motion_scale (cs : CharSettings) (lp : option string) :
  returns (fun r : MotionData * option string =>
             setting_or_within (s_scale cs) 0.35 0.6 (scale_base (fst r)))
          (build_motion width height cs lp).
Proof.
  unfold build_motion.
  eapply returns_bind;
    [apply (returns_uniform_within (s_scale cs) 0.35 0.6); reflexivity |].
  intros u1 U1.
  eapply returns_bind; [apply returns_uniform |]. intros u2 _.
  eapply returns_bind; [apply returns_uniform |]. intros u3 _.
  eapply returns_bind; [apply path_part_returns |].
  intros [[cps a] pt] _. cbn beta iota.
  eapply returns_bind; [apply returns_uniform |]. intros u4 _.
  eapply returns_bind; [apply returns_uniform |]. intros u5 _.
  eapply returns_bind; [apply returns_uniform |]. intros u6 _.
  apply returns_ret. cbn [fst scale_base]. exact U1.
Qed.

(** X19: a scale stored with a character reaches the video only when it
    differs from 1.0.  With a stored scale of 1.0, or none, [/generate]
    passes no ['scale'] and the motion is built with a base scale drawn from
    [[0.35, 0.6)]: the character is not shown at scale 1.  Any other stored
    scale is the base scale of the motion. *)
Theorem stored_unit_scale_is_dropped (ch : Main.Character)
        (lp : option string) (g : rng) :
  exists (m : MotionData) (lp' : option string) (g' : rng),
    build_motion width height (Main.stored_settings ch) lp g
    = Py.Ok (m, lp', g') /\
    match Main.scale ch with
    | Some v => if Qeq_bool v 1.0 then 0.35 <= scale_base m /\ scale_base m < 0.6
                else scale_base m = v
    | None => 0.35 <= scale_base m /\ scale_base m < 0.6
    end.
Proof.
  destruct (build_motion_scale (Main.stored_settings ch) lp g)
    as [[m lp'] [g' [E P]]].
  exists m, lp', g'. split; [exact E |].
  cbn [fst Main.stored_settings s_scale] in P. unfold Main.unless in P.
  destruct (Main.scale ch) as [v |]; [| exact P].
  destruct (Qeq_bool v 1.0); exact P.
Qed.
End StoredScale.

(** * The enrichment of the settings ([smpl_avatar.py] 164-281)

    [composite_video] passes the settings of every avatar through
    [enhance_character_animation] when the module imports (ai.py 15-20,
    125-136).  The module draws from a generator of its own, numpy's
    [RandomState], whose [uniform] and [choice] have the shape of the
    standard library's; it is the [RandomSource] of this section. *)

Module Smpl.

Local Open Scope string_scope.

(** [str.lower()] on ASCII text. *)
Definition lower_ascii (c : ascii) : ascii :=
  let n := nat_of_ascii c in
  if ((65 <=? n) && (n <=? 90))%nat then ascii_of_nat (n + 32) else c.

Fixpoint lower (s : string) : string :=
  match s with
  | EmptyString => EmptyString
  | String c s' => String (lower_ascii c) (lower s')
  end.

(** [word in text] *)
Fixpoint contains (word text : string) : bool :=
  match text with
  | EmptyString => String.prefix word text
  | String _ text' => (String.prefix word text || contains word text')%bool
  end.

(** [any(word in text for word in words)] *)
Definition any_in (words : list string) (text : string) : bool :=
  existsb (fun word => contains word text) words.

(** [np.clip(x, lo, hi)] *)
Definition clip (x lo hi : Q) : Q := Py.min (Py.max x lo) hi.

(** The keys of the dict [extract_avatar_motion_data] returns. *)
Record MotionHints : Type := {
  h_move_range : Q;
  h_breathe_amount : Q;
  h_breathe_speed : Q;
  h_suggested_path : string;
  h_motion_weight : Q
}.

Definition with_move_range (v : Q) (cs : CharSettings) : CharSettings :=
  {| s_scale := s_scale cs; s_scale_variation := s_scale_variation cs;
     s_rotation := s_rotation cs; s_position_x := s_position_x cs;
     s_position_y := s_position_y cs; s_fixed_position := s_fixed_position cs;
     s_micro_movement := s_micro_movement cs; s_move_range := Some v;
     s_path_type := s_path_type cs; s_path_speed := s_path_speed cs;
     s_breathe_amount := s_breathe_amount cs;
     s_breathe_speed := s_breathe_speed cs;
     s_rotation_speed := s_rotation_speed cs;
     s_tilt_factor := s_tilt_factor cs |}.

Definition with_breathe_amount (v : Q) (cs : CharSettings) : CharSettings :=
  {| s_scale := s_scale cs; s_scale_variation := s_scale_variation cs;
     s_rotation := s_rotation cs; s_position_x := s_position_x cs;
     s_position_y := s_position_y cs; s_fixed_position := s_fixed_position cs;
     s_micro_movement := s_micro_movement cs; s_move_range := s_move_range cs;
     s_path_type := s_path_type cs; s_path_speed := s_path_speed cs;
     s_breathe_amount := Some v;
     s_breathe_speed := s_breathe_speed cs;
     s_rotation_speed := s_rotation_speed cs;
     s_tilt_factor := s_tilt_factor cs |}.

Definition with_breathe_speed (v : Q) (cs : CharSettings) : CharSettings :=
  {| s_scale := s_scale cs; s_scale_variation := s_scale_variation cs;
     s_rotation := s_rotation cs; s_position_x := s_position_x cs;
     s_position_y := s_position_y cs; s_fixed_position := s_fixed_position cs;
     s_micro_movement := s_micro_movement cs; s_move_range := s_move_range cs;
     s_path_type := s_path_type cs; s_path_speed := s_path_speed cs;
     s_breathe_amount := s_breathe_amount cs;
     s_breathe_speed := Some v;
     s_rotation_speed := s_rotation_speed cs;
     s_tilt_factor := s_tilt_factor cs |}.

Definition with_path_type (v : string) (cs : CharSettings) : CharSettings :=
  {| s_scale := s_scale cs; s_scale_variation := s_scale_variation cs;
     s_rotation := s_rotation cs; s_position_x := s_position_x cs;
     s_position_y := s_position_y cs; s_fixed_position := s_fixed_position cs;
     s_micro_movement := s_micro_movement cs; s_move_range := s_move_range cs;
     s_path_type := Some v; s_path_speed := s_path_speed cs;
     s_breathe_amount := s_breathe_amount cs;
     s_breathe_speed := s_breathe_speed cs;
     s_rotation_speed := s_rotation_speed cs;
     s_tilt_factor := s_tilt_factor cs |}.

(** [if key not in d: d[key] = value] *)
Definition setdefault {A} (entry : option A) (set : A -> CharSettings -> CharSettings)
           (value : A) (cs : CharSettings) : CharSettings :=
  match entry with
  | Some _ => cs
  | None => set value cs
  end.

Definition energetic_words : list string :=
  ["energetic"; "active"; "fast"; "quick"; "rapid"].
Definition calm_words : list string :=
  ["calm"; "slow"; "gentle"; "peaceful"; "relaxed"].
Definition dance_words : list string := ["dance"; "dancing"; "spinning"].
Definition float_words : list string := ["float"; "floating"; "hover"].

(** The four keyword rules, in the order of the source (smpl_avatar.py
    261-279). *)
Definition energetic_rule (text : string) (cs : CharSettings) : CharSettings :=
  if any_in energetic_words text then
    let cs := with_breathe_speed
                (clip (get (s_breathe_speed cs) 1.0 * 1.5) 0.5 2.0) cs in
    with_move_range (clip (get (s_move_range cs) 0.4 * 1.3) 0.1 0.8) cs
  else cs.

Definition calm_rule (text : string) (cs : CharSettings) : CharSettings :=
  if any_in calm_words text then
    let cs := with_breathe_speed
                (clip (get (s_breathe_speed cs) 1.0 * 0.7) 0.5 2.0) cs in
    with_move_range (clip (get (s_move_range cs) 0.4 * 0.7) 0.1 0.8) cs
  else cs.

Definition dance_rule (text : string) (cs : CharSettings) : CharSettings :=
  if any_in dance_words text then
    let cs := with_path_type "figure8" cs in
    with_move_range (clip (get (s_move_range cs) 0.4 * 1.5) 0.1 0.8) cs
  else cs.

Definition float_rule (text : string) (cs : CharSettings) : CharSettings :=
  if any_in float_words text then
    let cs := with_path_type "wave" cs in
    with_breathe_amount (clip (get (s_breathe_amount cs) 0.03 * 1.5) 0.01 0.1) cs
  else cs.

Definition refine (text_prompt : option string) (cs : CharSettings)
  : CharSettings :=
  match text_prompt with
  | Some p =>
    let text := lower p in
    float_rule text (dance_rule text (calm_rule text (energetic_rule text cs)))
  | None => cs
  end.

(** What the module raises: numpy's [ValueError] for a seed it does not
    accept, and the [IndexError] of a failed indexing. *)
Inductive exn : Type :=
| ValueError (message : string)
| IndexError.

Inductive result (A : Type) : Type :=
| Returns (a : A)
| Raises (e : exn).
Arguments Returns {A} a.
Arguments Raises {A} e.

Definition bind {A B} (r : result A) (k : A -> result B) : result B :=
  match r with
  | Returns a => k a
  | Raises e => Raises e
  end.

Notation "x <-- c1 ;; c2" := (bind c1 (fun x => c2))
  (at level 61, c1 at next level, right associativity).

Section Enhancement.
Context `{NP : RandomSource}.

(** [np.random.seed(seed)] and [np.random.RandomState(seed)] take a seed
    between 0 and 2**32 - 1. *)
Definition seed_accepted (seed : Z) : bool :=
  ((0 <=? seed) && (seed <? 4294967296))%Z.

(** [np.random.seed(seed)], and the seeding of a [RandomState]. *)
Definition numpy_seed (seed : Z) : result unit :=
  if seed_accepted seed then Returns tt
  else Raises (ValueError "Seed must be between 0 and 2**32 - 1").

(** The dict of the image-based fallback of [extract_avatar_motion_data]
    (smpl_avatar.py 211-221), the part that runs when no pose parameters
    are passed. *)
Definition fallback_motion_data : Rand MotionHints :=
  move_range <~ rng_uniform 0.3 0.5 ;;
  breathe_amount <~ rng_uniform 0.02 0.04 ;;
  breathe_speed <~ rng_uniform 0.8 1.2 ;;
  suggested_path <~ rng_choice ["organic"; "circle"; "figure8"; "wave"] ;;
  motion_weight <~ rng_uniform 0.3 0.6 ;;
  ret {| h_move_range := move_range;
         h_breathe_amount := breathe_amount;
         h_breathe_speed := breathe_speed;
         h_suggested_path := suggested_path;
         h_motion_weight := motion_weight |}.

(** [extract_avatar_motion_data(avatar_image, seed=seed)]: a generator of
    its own is made from the seed (smpl_avatar.py 177-178).  [entropy] is
    the state an unseeded [RandomState()] starts from. *)
Definition extract_avatar_motion_data (entropy : rng) (avatar_image : Image)
           (seed : option Z) : result MotionHints :=
  g <-- match seed with
        | Some s => _ <-- numpy_seed s ;; Returns (seeded s)
        | None => Returns entropy
        end ;;
  match fallback_motion_data g with
  | Py.Ok (motion_data, _) => Returns motion_data
  | Py.Raise _ => Raises IndexError
  end.

(** The four [if key not in enhanced_settings] (smpl_avatar.py 245-255). *)
Definition fill (motion_data : MotionHints) (cs : CharSettings) : CharSettings :=
  let cs := setdefault (s_move_range cs) with_move_range
                       (h_move_range motion_data) cs in
  let cs := setdefault (s_breathe_amount cs) with_breathe_amount
                       (h_breathe_amount motion_data) cs in
  let cs := setdefault (s_breathe_speed cs) with_breathe_speed
                       (h_breathe_speed motion_data) cs in
  setdefault (s_path_type cs) with_path_type (h_suggested_path motion_data) cs.

(** [enhance_character_animation] (smpl_avatar.py 223-281). *)
Definition enhance_character_animation (entropy : rng)
           (character_settings : CharSettings) (avatar_image : option Image)
           (text_prompt : option string) (seed : option Z)
  : result CharSettings :=
  _ <-- match seed with
        | Some s => numpy_seed s
        | None => Returns tt
        end ;;
  let enhanced_settings := character_settings in
  enhanced_settings <--
    match avatar_image with
    | Some im =>
      motion_data <-- extract_avatar_motion_data entropy im seed ;;
      Returns (fill motion_data enhanced_settings)
    | None => Returns enhanced_settings
    end ;;
  Returns (refine text_prompt enhanced_settings).
End Enhancement.

End Smpl.

(** ** What the enrichment does to the settings *)

Lemma min_le_r (a b : Q) : Py.min a b <= b.
Proof.
  unfold Py.min. destruct (Py.ltb b a) eqn:E; [lra |].
  apply ltb_ge in E. exact E.
Qed.

Lemma clip_range (x lo hi : Q) :
  lo <= hi -> lo <= Smpl.clip x lo hi /\ Smpl.clip x lo hi <= hi.
Proof.
  intros H. unfold Smpl.clip. split; [| apply min_le_r].
  unfold Py.min, Py.max.
  destruct (Py.ltb x lo) eqn:A.
  - destruct (Py.ltb hi lo) eqn:B; [apply ltb_lt in B; lra | lra].
  - apply ltb_ge in A. destruct (Py.ltb hi x) eqn:B; [exact H | exact A].
Qed.

(** The settings the enrichment never writes. *)
Definition same_appearance (a b : CharSettings) : Prop :=
  s_scale a = s_scale b /\ s_scale_variation a = s_scale_variation b /\
  s_rotation a = s_rotation b /\ s_position_x a = s_position_x b /\
  s_position_y a = s_position_y b /\
  s_fixed_position a = s_fixed_position b /\
  s_micro_movement a = s_micro_movement b /\
  s_path_speed a = s_path_speed b /\
  s_rotation_speed a = s_rotation_speed b /\
  s_tilt_factor a = s_tilt_factor b.

(** A setting that is there after the enrichment, and inside [[lo, hi]]
    when the caller had not set it. *)
Definition filled_within (before after : option Q) (lo hi : Q) : Prop :=
  exists v, after = Some v /\ (before = None -> lo <= v /\ v <= hi).

Section Enrichment.
Context `{NP : RandomSource}.

Lemma fallback_motion_data_returns :
  returns (fun md =>
             (0.3 <= Smpl.h_move_range md /\ Smpl.h_move_range md <= 0.5) /\
             (0.02 <= Smpl.h_breathe_amount md
              /\ Smpl.h_breathe_amount md <= 0.04) /\
             (0.8 <= Smpl.h_breathe_speed md
              /\ Smpl.h_breathe_speed md <= 1.2) /\
             In (Smpl.h_suggested_path md)
                ["organic"; "circle"; "figure8"; "wave"]%string)
          Smpl.fallback_motion_data.
Proof.
  unfold Smpl.fallback_motion_data.
  eapply returns_bind; [apply (returns_uniform_range 0.3 0.5); lra |].
  intros mr MR.
  eapply returns_bind; [apply (returns_uniform_range 0.02 0.04); lra |].
  intros ba BA.
  eapply returns_bind; [apply (returns_uniform_range 0.8 1.2); lra |].
  intros bs BS.
  eapply returns_bind; [apply returns_choice; discriminate |].
  intros sp SP.
  eapply returns_bind; [apply returns_uniform |]. intros mw _.
  apply returns_ret.
  cbn [Smpl.h_move_range Smpl.h_breathe_amount Smpl.h_breathe_speed
       Smpl.h_suggested_path]. auto.
Qed.

(** The seeds numpy takes: none, or one between 0 and 2**32 - 1. *)
Definition usable_seed (seed : option Z) : Prop :=
  match seed with
  | Some s => Smpl.seed_accepted s = true
  | None => True
  end.

Lemma extract_avatar_motion_data_returns (entropy : rng) (im : Image)
      (seed : option Z) :
  usable_seed seed ->
  exists md,
    Smpl.extract_avatar_motion_data entropy im seed = Smpl.Returns md /\
    (0.3 <= Smpl.h_move_range md /\ Smpl.h_move_range md <= 0.5) /\
    (0.02 <= Smpl.h_breathe_amount md /\ Smpl.h_breathe_amount md <= 0.04) /\
    (0.8 <= Smpl.h_breathe_speed md /\ Smpl.h_breathe_speed md <= 1.2) /\
    In (Smpl.h_suggested_path md) ["organic"; "circle"; "figure8"; "wave"]%string.
Proof.
  intros U. unfold Smpl.extract_avatar_motion_data.
  destruct seed as [s |]; cbn [usable_seed] in U.
  - unfold Smpl.numpy_seed. rewrite U. cbn [Smpl.bind].
    destruct (fallback_motion_data_returns (seeded s)) as [md [g' [E P]]].
    rewrite E. exists md. split; [reflexivity | exact P].
  - cbn [Smpl.bind].
    destruct (fallback_motion_data_returns entropy) as [md [g' [E P]]].
    rewrite E. exists md. split; [reflexivity | exact P].
Qed.
End Enrichment.

(** What holds of the settings from the filling-in on, through the four
    keyword rules. *)
Definition enriched (before after : CharSettings) : Prop :=
  same_appearance after before /\
  filled_within (s_move_range before) (s_move_range after) 0.1 0.8 /\
  filled_within (s_breathe_amount before) (s_breathe_amount after) 0.01 0.1 /\
  filled_within (s_breathe_speed before) (s_breathe_speed after) 0.5 2.0 /\
  exists path_type,
    s_path_type after = Some path_type /\
    (s_path_type before = None ->
     In path_type ["organic"; "circle"; "figure8"; "wave"]%string).

Ltac clipped :=
  eexists; split; [reflexivity | intros _; apply clip_range; lra].

Lemma fill_enriched (md : Smpl.MotionHints) (cs : CharSettings) :
  (0.3 <= Smpl.h_move_range md /\ Smpl.h_move_range md <= 0.5) ->
  (0.02 <= Smpl.h_breathe_amount md /\ Smpl.h_breathe_amount md <= 0.04) ->
  (0.8 <= Smpl.h_breathe_speed md /\ Smpl.h_breathe_speed md <= 1.2) ->
  In (Smpl.h_suggested_path md) ["organic"; "circle"; "figure8"; "wave"]%string ->
  enriched cs (Smpl.fill md cs).
Proof.
  intros MR BA BS SP. unfold Smpl.fill, Smpl.setdefault, enriched,
                      same_appearance, filled_within.
  destruct cs as [a b c d e f g mr pt ps ba bs rs tf].
  cbn [s_move_range s_breathe_amount s_breathe_speed s_path_type].
  destruct mr as [mr |], ba as [ba |], bs as [bs |], pt as [pt |];
    cbn [Smpl.with_move_range Smpl.with_breathe_amount Smpl.with_breathe_speed
         Smpl.with_path_type s_scale s_scale_variation s_rotation s_position_x
         s_position_y s_fixed_position s_micro_movement s_move_range
         s_path_type s_path_speed s_breathe_amount s_breathe_speed
         s_rotation_speed s_tilt_factor];
    (split; [repeat split |]);
    (split; [eexists; split; [reflexivity | intros H; try discriminate H; lra] |]);
    (split; [eexists; split; [reflexivity | intros H; try discriminate H; lra] |]);
    (split; [eexists; split; [reflexivity | intros H; try discriminate H; lra] |]);
    (eexists; split; [reflexivity | intros H; try discriminate H; exact SP]).
Qed.

Ltac rule_keeps R H :=
  unfold R;
  match goal with
  | |- context [Smpl.any_in ?w ?t] =>
    destruct (Smpl.any_in w t); [| exact H]
  end;
  destruct H as [HA [HM [HB [HS HP]]]];
  unfold enriched, same_appearance in *;
  cbn [Smpl.with_move_range Smpl.with_breathe_amount Smpl.with_breathe_speed
       Smpl.with_path_type s_scale s_scale_variation s_rotation s_position_x
       s_position_y s_fixed_position s_micro_movement s_move_range
       s_path_type s_path_speed s_breathe_amount s_breathe_speed
       s_rotation_speed s_tilt_factor].

Lemma energetic_rule_keeps (text : string) (before cs : CharSettings) :
  enriched before cs -> enriched before (Smpl.energetic_rule text cs).
Proof.
  intros H. rule_keeps Smpl.energetic_rule H.
  split; [exact HA |]. split; [clipped |]. split; [exact HB |].
  split; [clipped | exact HP].
Qed.

Lemma calm_rule_keeps (text : string) (before cs : CharSettings) :
  enriched before cs -> enriched before (Smpl.calm_rule text cs).
Proof.
  intros H. rule_keeps Smpl.calm_rule H.
  split; [exact HA |]. split; [clipped |]. split; [exact HB |].
  split; [clipped | exact HP].
Qed.

Lemma dance_rule_keeps (text : string) (before cs : CharSettings) :
  enriched before cs -> enriched before (Smpl.dance_rule text cs).
Proof.
  intros H. rule_keeps Smpl.dance_rule H.
  split; [exact HA |]. split; [clipped |]. split; [exact HB |].
  split; [exact HS |].
  eexists. split; [reflexivity |]. intros _. cbn. auto.
Qed.

Lemma float_rule_keeps (text : string) (before cs : CharSettings) :
  enriched before cs -> enriched before (Smpl.float_rule text cs).
Proof.
  intros H. rule_keeps Smpl.float_rule H.
  split; [exact HA |]. split; [exact HM |]. split; [clipped |].
  split; [exact HS |].
  eexists. split; [reflexivity |]. intros _. cbn. auto.
Qed.

Lemma refine_keeps (text_prompt : option string) (before cs : CharSettings) :
  enriched before cs -> enriched before (Smpl.refine text_prompt cs).
Proof.
  intros H. unfold Smpl.refine. destruct text_prompt as [p |]; [| exact H].
  now apply float_rule_keeps, dance_rule_keeps, calm_rule_keeps,
            energetic_rule_keeps.
Qed.

Section EnrichmentResult.
Context `{NP : RandomSource}.

(** With a seed numpy takes and an avatar image, the enrichment is the
    keyword rules applied to the settings filled in from the motion data. *)
Lemma enhance_character_animation_unfold (entropy : rng) (cs : CharSettings)
      (im : Image) (text_prompt : option string) (seed : option Z) :
  usable_seed seed ->
  exists md,
    Smpl.enhance_character_animation entropy cs (Some im) text_prompt seed
    = Smpl.Returns (Smpl.refine text_prompt (Smpl.fill md cs)) /\
    enriched cs (Smpl.fill md cs).
Proof.
  intros U. unfold Smpl.enhance_character_animation.
  destruct (extract_avatar_motion_data_returns entropy im seed U)
    as [md [E [MR [BA [BS SP]]]]].
  assert (match seed with
          | Some s => Smpl.numpy_seed s
          | None => Smpl.Returns tt
          end = Smpl.Returns tt) as N.
  { destruct seed as [s |]; [| reflexivity].
    unfold Smpl.numpy_seed. cbn [usable_seed] in U. now rewrite U. }
  rewrite N, E. cbn [Smpl.bind]. exists md. split; [reflexivity |].
  apply fill_enriched; assumption.
Qed.

(** X20: for a seed numpy takes, the enrichment of the settings of an
    avatar returns, whatever the prompt.  It leaves scale, rotation,
    position and the other appearance settings as they were, and afterwards
    ['move_range'], ['breathe_amount'], ['breathe_speed'] and ['path_type']
    are always set: where the caller had not set them, within [[0.1, 0.8]],
    [[0.01, 0.1]], [[0.5, 2.0]] and among the four path types. *)
Theorem enrichment_fills_motion_keys (entropy : rng) (cs : CharSettings)
        (im : Image) (text_prompt : option string) (seed : option Z) :
  usable_seed seed ->
  exists enhanced,
    Smpl.enhance_character_animation entropy cs (Some im) text_prompt seed
    = Smpl.Returns enhanced /\
    enriched cs enhanced.
Proof.
  intros U.
  destruct (enhance_character_animation_unfold entropy cs im text_prompt seed
                                               U) as [md [E F]].
  rewrite E. eexists. split; [reflexivity |].
  apply refine_keeps. exact F.
Qed.
End EnrichmentResult.

Lemma enrichment_fills_motion_keys_witness :
  exists enhanced,
    @Smpl.enhance_character_animation lcg 12345%Z no_settings
      (Some sample_avatar) (Some "A quick dance"%string) (Some 42%Z)
    = Smpl.Returns enhanced /\
    enriched no_settings enhanced.
Proof.
  apply (@enrichment_fills_motion_keys lcg 12345%Z no_settings sample_avatar
           (Some "A quick dance"%string) (Some 42%Z)).
  reflexivity.
Defined.

Lemma refine_path_type (p : string) (cs : CharSettings) :
  s_path_type (Smpl.refine (Some p) cs)
  = if Smpl.any_in Smpl.float_words (Smpl.lower p) then Some "wave"%string
    else if Smpl.any_in Smpl.dance_words (Smpl.lower p)
         then Some "figure8"%string
         else s_path_type cs.
Proof.
  unfold Smpl.refine, Smpl.float_rule, Smpl.dance_rule, Smpl.calm_rule,
    Smpl.energetic_rule.
  destruct (Smpl.any_in Smpl.float_words (Smpl.lower p)),
    (Smpl.any_in Smpl.dance_words (Smpl.lower p)),
    (Smpl.any_in Smpl.calm_words (Smpl.lower p)),
    (Smpl.any_in Smpl.energetic_words (Smpl.lower p)); reflexivity.
Qed.

Section PathTypeOfAMotion.
Context `{ML : MathLib} `{RS : RandomSource}.
Variables width height : Z.

Lemma styled_path_type (cs : CharSettings) (base_x base_y angle : Q)
      (v : string) :
  s_path_type cs = Some v ->
  returns (fun r => snd r = v)
          (styled_path width height cs base_x base_y angle).
Proof.
  intros V. unfold styled_path, styled_anchors.
  eapply returns_bind with (P := fun r => snd r = v).
  - eapply returns_bind; [apply (returns_randint 6 9); lia |].
    intros n _.
    eapply returns_bind; [apply returns_choice; easy |].
    intros c _. rewrite V. cbn [get].
    eapply returns_bind with (P := fun _ => True).
    + destruct (String.eqb v "circle");
        [eapply returns_weaken; [apply circle_anchors_returns | easy] |].
      destruct (String.eqb v "figure8");
        [eapply returns_weaken; [apply figure8_anchors_returns | easy] |].
      destruct (String.eqb v "wave").
      * eapply returns_bind; [apply wave_anchors_returns |].
        intros a _. now apply returns_ret.
      * eapply returns_weaken; [apply organic_anchors_returns | easy].
    + intros [anchor_points a] _. now apply returns_ret.
  - intros [[anchor_points a] pt] P. cbn [snd] in P. cbn beta iota.
    destruct (spline_path_ok width height 4 anchor_points) as [cps [E _]].
    eapply returns_bind; [eapply returns_lift; [exact E | exact I] |].
    intros cps' _. apply returns_ret. exact P.
Qed.

(** A motion built for an avatar with a base position, not fixed, and a
    ['path_type'] in its settings records that path type. *)
Lemma build_motion_path_type (cs : CharSettings) (lp : option string)
      (base_x base_y : Q) (v : string) :
  s_position_x cs = Some base_x -> s_position_y cs = Some base_y ->
  get (s_fixed_position cs) false = false ->
  s_path_type cs = Some v ->
  returns (fun r : MotionData * option string => path_type (fst r) = v)
          (build_motion width height cs lp).
Proof.
  intros X Y F V. unfold build_motion.
  eapply returns_bind; [apply returns_uniform |]. intros u1 _.
  eapply returns_bind; [apply returns_uniform |]. intros u2 _.
  eapply returns_bind; [apply returns_uniform |]. intros u3 _.
  rewrite X, Y, F.
  eapply returns_bind with
      (P := fun r : list point * Q * option string => snd r = Some v).
  - eapply returns_bind; [apply (styled_path_type cs _ _ _ v V) |].
    intros [[cps a] pt] P. cbn [snd] in P. apply returns_ret. cbn [snd].
    now rewrite P.
  - intros [[cps a] pt] P. cbn [snd] in P. cbn beta iota.
    eapply returns_bind; [apply returns_uniform |]. intros u4 _.
    eapply returns_bind; [apply returns_uniform |]. intros u5 _.
    eapply returns_bind; [apply returns_uniform |]. intros u6 _.
    apply returns_ret. cbn [fst path_type]. now rewrite P.
Qed.
End PathTypeOfAMotion.

Section PromptAndPath.
Context `{ML : MathLib} `{RS : RandomSource}.
Variable NP : RandomSource.
Variables width height : Z.

(** X21: a dance or a float word in the prompt decides the path of every
    avatar that has a base position and is not fixed, over the ['path_type']
    the caller set: the enriched settings say ['wave'] when the lowered
    prompt has one of float, floating, hover in it, and ['figure8'] when it
    only has one of dance, dancing, spinning, and the motion built from them
    is of that path type. *)
Theorem prompt_overrides_path_type (entropy : @rng NP) (cs : CharSettings)
        (im : Image) (p : string) (seed : option Z) (base_x base_y : Q)
        (lp : option string) (g : @rng RS) :
  usable_seed seed ->
  s_position_x cs = Some base_x -> s_position_y cs = Some base_y ->
  get (s_fixed_position cs) false = false ->
  (Smpl.any_in Smpl.dance_words (Smpl.lower p)
   || Smpl.any_in Smpl.float_words (Smpl.lower p))%bool = true ->
  let chosen := if Smpl.any_in Smpl.float_words (Smpl.lower p)
                then "wave"%string else "figure8"%string in
  exists enhanced m lp' g',
    @Smpl.enhance_character_animation NP entropy cs (Some im) (Some p) seed
    = Smpl.Returns enhanced /\
    s_path_type enhanced = Some chosen /\
    @build_motion ML RS width height enhanced lp g = Py.Ok (m, lp', g') /\
    path_type m = chosen.
Proof.
  intros U X Y F W chosen.
  destruct (@enhance_character_animation_unfold NP entropy cs im (Some p)
              seed U) as [md [E Filled]].
  pose proof (refine_keeps (Some p) cs _ Filled)
    as [[_ [_ [_ [SX [SY [SF _]]]]]] _].
  assert (s_path_type (Smpl.refine (Some p) (Smpl.fill md cs)) = Some chosen)
    as PT.
  { rewrite refine_path_type. unfold chosen.
    destruct (Smpl.any_in Smpl.float_words (Smpl.lower p)); [reflexivity |].
    rewrite orb_false_r in W. now rewrite W. }
  destruct (@build_motion_path_type ML RS width height
              (Smpl.refine (Some p) (Smpl.fill md cs)) lp base_x
              base_y chosen) with (g := g) as [[m lp'] [g' [B P]]];
    try congruence.
  exists (Smpl.refine (Some p) (Smpl.fill md cs)), m, lp', g'. auto.
Qed.
End PromptAndPath.

Lemma prompt_overrides_path_type_witness :
  exists enhanced m lp' g',
    @Smpl.enhance_character_animation lcg 12345%Z
      (circle_settings 100 100) (Some sample_avatar)
      (Some "Dancing in the rain"%string) (Some 42%Z)
    = Smpl.Returns enhanced /\
    s_path_type enhanced = Some "figure8"%string /\
    @build_motion rational_math lcg 768 432 enhanced None 7%Z
    = Py.Ok (m, lp', g') /\
    path_type m = "figure8"%string.
Proof.
  apply (@prompt_overrides_path_type rational_math lcg lcg 768 432 12345%Z
           (circle_settings 100 100) sample_avatar
           "Dancing in the rain"%string (Some 42%Z) 100 100 None 7%Z);
    reflexivity.
Defined.

(** * Avatars on disk ([utils.py]) *)

Module Utils.

Definition SAFE_AVATAR_MAX : Z := 1024.

(** What a call of [clamp_avatar_size] does to the file: it is left as it
    is, or overwritten with the image resized to a size, or the division
    by [max(w, h)] raises, or Pillow's [resize] does: it raises [ValueError]
    for a size with a side below 1. *)
Inductive clamped : Type :=
| Untouched
| Saved (resized_to : Z * Z)
| ZeroDivisionError
| ValueError.

(** [clamp_avatar_size] (utils.py 16-22), on the image that
    [Image.open(png_path)] gives, with every operation on floats rounded:
    the quotient of the two ints, and the products of an int and the
    scale. *)
Definition clamp_avatar_size (img : Image) : clamped :=
  let '(w, h) := size img in
  if (Z.max w h =? 0)%Z then ZeroDivisionError
  else
    let scale :=
      Py.min (fl (inject_Z SAFE_AVATAR_MAX / inject_Z (Z.max w h))) 1.0 in
    if Py.ltb scale 1.0 then
      let new_w := Py.int (fl (inject_Z w * scale)) in
      let new_h := Py.int (fl (inject_Z h * scale)) in
      if ((new_w <? 1) || (new_h <? 1))%Z then ValueError
      else Saved (new_w, new_h)
    else Untouched.

End Utils.

(** One side [a] of an image whose longer side [m] is above 1024, scaled by
    the rounded quotient [1024 / m]. *)
Lemma scaled_side (a m : Z) :
  (1 <= a <= m)%Z -> (1024 < m)%Z ->
  let scale := fl (1024 / inject_Z m) in
  let new := Py.int (fl (inject_Z a * scale)) in
  scale < 1 /\
  (0 <= new <= 1024)%Z /\ (new <= a)%Z /\
  (a = m -> 1023 <= new)%Z /\
  (1 <= new -> m < 1025 * a)%Z /\
  (new < 1 -> 1023 * a < m)%Z.
Proof.
  intros A M. cbv zeta.
  assert (1024 < inject_Z m) as MQ
      by (change 1024 with (inject_Z 1024); rewrite <- Zlt_Qlt; exact M).
  assert (1 <= inject_Z a) as AQ
      by (change 1 with (inject_Z 1); rewrite <- Zle_Qle; lia).
  assert (inject_Z a <= inject_Z m) as AM by (rewrite <- Zle_Qle; lia).
  assert (inject_Z m >= 1025) as MQ'
      by (change 1025 with (inject_Z 1025); rewrite <- Zle_Qle; lia).
  set (x0 := 1024 / inject_Z m).
  assert (x0 * inject_Z m == 1024) as X by (unfold x0; field; lra).
  assert (0 < x0) as X0 by (unfold x0; apply Qlt_shift_div_l; lra).
  assert (x0 * 1025 <= 1024) as X1 by nra.
  destruct (fl_error x0 X0) as [S0 S1].
  set (scale := fl x0) in *.
  assert (0 < scale) as SP by nra.
  assert (scale < 1) as SL by nra.
  set (y := inject_Z a * scale).
  assert (0 < y) as Y0 by (unfold y; nra).
  destruct (fl_error y Y0) as [F0 F1].
  set (q := fl y) in *.
  assert (0 <= q) as Q0 by nra.
  destruct (int_bounds_nonneg q Q0) as [I0 I1].
  set (new := Py.int q) in *.
  (* a * x0 is a * 1024 / m, at most 1024 and at most a * 1024 / 1025 *)
  assert (inject_Z a * x0 <= 1024) as P1 by nra.
  assert (inject_Z a * x0 * 1025 <= 1024 * inject_Z a) as P2 by nra.
  assert (y <= inject_Z a * x0 * (1 + (1 # 2000000000000000))) as Y1
      by (unfold y; nra).
  assert (inject_Z a * x0 * (1 - (1 # 2000000000000000)) <= y) as Y2
      by (unfold y; nra).
  assert (q <= inject_Z a * x0 * (1 + (1 # 900000000000000))) as Q1 by nra.
  assert (inject_Z a * x0 * (1 - (1 # 900000000000000)) <= q) as Q2 by nra.
  split; [exact SL |].
  assert (0 <= new)%Z as N0.
  { assert (-1 < new)%Z; [| lia]. rewrite Zlt_Qlt.
    change (inject_Z (-1)) with (-1 # 1). lra. }
  assert (q < 1025) as QU by nra.
  assert (q < inject_Z a) as QA by nra.
  split; [split; [exact N0 |] |].
  { assert (new < 1025)%Z; [| lia]. rewrite Zlt_Qlt.
    change (inject_Z 1025) with 1025. lra. }
  split.
  { assert (new < a)%Z; [| lia]. rewrite Zlt_Qlt. lra. }
  split; [| split].
  - intros E. subst a.
    assert (1022 < new)%Z; [| lia]. rewrite Zlt_Qlt.
    change (inject_Z 1022) with 1022. nra.
  - intros N1. rewrite Zle_Qle in N1. change (inject_Z 1) with 1 in N1.
    assert (inject_Z m < inject_Z (1025 * a)) as G; [| rewrite Zlt_Qlt; exact G].
    rewrite inject_Z_mult. change (inject_Z 1025) with 1025.
    assert (1 <= inject_Z a * x0 * (1 + (1 # 900000000000000))) as G1 by lra.
    assert (inject_Z m <= inject_Z a * 1024 * (1 + (1 # 900000000000000)))
      as G2 by nra.
    nra.
  - intros N1. assert (new <= 0)%Z as N2 by lia.
    rewrite Zle_Qle in N2. change (inject_Z 0) with 0 in N2.
    assert (inject_Z (1023 * a) < inject_Z m) as G; [| rewrite Zlt_Qlt; exact G].
    rewrite inject_Z_mult. change (inject_Z 1023) with 1023.
    assert (inject_Z a * x0 * (1 - (1 # 900000000000000)) < 1) as G1 by lra.
    assert (inject_Z a * 1024 * (1 - (1 # 900000000000000)) < inject_Z m)
      as G2 by nra.
    nra.
Qed.

(** X22: [clamp_avatar_size] on an image of at least one pixel a side (and
    at most [2 ^ 31]) never fails on its division.  It leaves the file alone
    exactly when both sides are at most 1024.  Otherwise it saves the image
    resized to a size whose sides are at least 1, at most 1024 and no longer
    than before, the longer one 1023 or 1024 (1023 when the rounding of
    [1024 / max(w, h)] and of the product fall below 1024, as for
    1122 x 1122); or, when the image is so thin that the shorter side is
    scaled below one pixel, Pillow's [resize] raises [ValueError] and nothing
    is saved: this happens to every image whose longer side is 1025 times
    the shorter one or more, and to none whose longer side is at most 1023
    times the shorter one. *)
Theorem clamp_avatar_size_fits (w h : Z) (px : list Z) :
  (1 <= w <= 2 ^ 31)%Z -> (1 <= h <= 2 ^ 31)%Z ->
  match Utils.clamp_avatar_size {| size := (w, h); pixels := px |} with
  | Utils.Untouched => (w <= 1024)%Z /\ (h <= 1024)%Z
  | Utils.Saved (w', h') =>
    (1024 < Z.max w h)%Z /\
    (1 <= w' <= 1024)%Z /\ (1 <= h' <= 1024)%Z /\
    (w' <= w)%Z /\ (h' <= h)%Z /\
    (1023 <= Z.max w' h')%Z /\
    (Z.max w h < 1025 * Z.min w h)%Z
  | Utils.ValueError =>
    (1024 < Z.max w h)%Z /\ (1023 * Z.min w h < Z.max w h)%Z
  | Utils.ZeroDivisionError => False
  end.
Proof.
  intros [W _] [H _]. unfold Utils.clamp_avatar_size, Utils.SAFE_AVATAR_MAX.
  cbn [size].
  destruct (Z.eqb_spec (Z.max w h) 0) as [Z0 | _]; [lia |].
  set (m := Z.max w h).
  assert (1 <= m)%Z as M1 by (unfold m; lia).
  assert (1 <= inject_Z m) as MQ
      by (change 1 with (inject_Z 1); rewrite <- Zle_Qle; exact M1).
  change (inject_Z 1024) with 1024.
  destruct (Z_le_gt_dec m 1024) as [Small | Large].
  - (* the image fits: the quotient is at least 1 and so is its rounding *)
    assert (inject_Z m <= 1024) as MS
        by (change 1024 with (inject_Z 1024); rewrite <- Zle_Qle; exact Small).
    assert (1 <= 1024 / inject_Z m) as Q1
        by (apply Qle_shift_div_l; lra).
    pose proof (nearest_binary64_above_one _ Q1) as F. fold fl in F.
    unfold Py.min.
    destruct (Py.ltb 1.0 (fl (1024 / inject_Z m))) eqn:A.
    + assert (Py.ltb 1.0 1.0 = false) as -> by reflexivity.
      unfold m in Small. lia.
    + destruct (Py.ltb (fl (1024 / inject_Z m)) 1.0) eqn:B.
      * apply ltb_lt in B. lra.
      * unfold m in Small. lia.
  - assert (1024 < m)%Z as Large' by lia.
    destruct (scaled_side w m) as [SL [W1 [W2 [W3 [W4 W5]]]]];
      [unfold m; lia | exact Large' |].
    destruct (scaled_side h m) as [_ [H1 [H2 [H3 [H4 H5]]]]];
      [unfold m; lia | exact Large' |].
    unfold Py.min.
    destruct (Py.ltb 1.0 (fl (1024 / inject_Z m))) eqn:A;
      [apply ltb_lt in A; lra |].
    destruct (Py.ltb (fl (1024 / inject_Z m)) 1.0) eqn:B;
      [| apply ltb_ge in B; lra].
    set (new_w := Py.int (fl (inject_Z w * fl (1024 / inject_Z m)))) in *.
    set (new_h := Py.int (fl (inject_Z h * fl (1024 / inject_Z m)))) in *.
    destruct (Z.ltb_spec new_w 1) as [WZ | WP];
      destruct (Z.ltb_spec new_h 1) as [HZ | HP]; cbn [orb].
    + split; [unfold m in *; lia |].
      specialize (W5 WZ). specialize (H5 HZ). unfold m in *. lia.
    + split; [unfold m in *; lia |].
      specialize (W5 WZ). specialize (H4 HP). unfold m in *. lia.
    + split; [unfold m in *; lia |].
      specialize (H5 HZ). specialize (W4 WP). unfold m in *. lia.
    + specialize (W4 WP). specialize (H4 HP).
      split; [unfold m in *; lia |].
      split; [lia |]. split; [lia |]. split; [lia |]. split; [lia |].
      split.
      * destruct (Z.max_spec w h) as [[_ E] | [_ E]]; fold m in E.
        -- specialize (H3 (eq_sym E)). lia.
        -- specialize (W3 (eq_sym E)). lia.
      * unfold m in *. lia.
Qed.

Lemma clamp_avatar_size_fits_witness :
  match Utils.clamp_avatar_size {| size := (1122, 1122)%Z; pixels := [] |} with
  | Utils.Untouched => (1122 <= 1024)%Z /\ (1122 <= 1024)%Z
  | Utils.Saved (w', h') =>
    (1024 < Z.max 1122 1122)%Z /\
    (1 <= w' <= 1024)%Z /\ (1 <= h' <= 1024)%Z /\
    (w' <= 1122)%Z /\ (h' <= 1122)%Z /\
    (1023 <= Z.max w' h')%Z /\
    (Z.max 1122 1122 < 1025 * Z.min 1122 1122)%Z
  | Utils.ValueError =>
    (1024 < Z.max 1122 1122)%Z /\
    (1023 * Z.min 1122 1122 < Z.max 1122 1122)%Z
  | Utils.ZeroDivisionError => False
  end.
Proof. apply (clamp_avatar_size_fits 1122 1122 []); lia. Defined.

(** The sizes the code computes for three images: 1122 x 1122 is saved as
    1023 x 1023, 2048 x 1024 as 1024 x 512, and 5000 x 4 is not saved. *)
Example clamp_avatar_size_samples :
  Utils.clamp_avatar_size {| size := (1122, 1122)%Z; pixels := [] |}
  = Utils.Saved (1023, 1023)%Z /\
  Utils.clamp_avatar_size {| size := (2048, 1024)%Z; pixels := [] |}
  = Utils.Saved (1024, 512)%Z /\
  Utils.clamp_avatar_size {| size := (5000, 4)%Z; pixels := [] |}
  = Utils.ValueError.
Proof. vm_compute. repeat split; reflexivity. Qed.

(** ** Path settings without a base position (ai.py 148-150, 308-365) *)

(** The settings [build_motion] reads for an avatar without a base
    position. *)
Definition same_look (a b : CharSettings) : Prop :=
  s_scale a = s_scale b /\ s_scale_variation a = s_scale_variation b /\
  s_rotation a = s_rotation b /\ s_breathe_amount a = s_breathe_amount b /\
  s_breathe_speed a = s_breathe_speed b /\
  s_rotation_speed a = s_rotation_speed b.

(** ['position_x' in char_settings and 'position_y' in char_settings] *)
Definition positioned (cs : CharSettings) : bool :=
  (Main.is_some (s_position_x cs) && Main.is_some (s_position_y cs))%bool.

Section Unpositioned.
Context `{ML : MathLib} `{RS : RandomSource}.
Variables width height : Z.

(** X23: the path settings need a base position.  For an avatar whose
    settings lack ['position_x'] or ['position_y'], the keys ['path_type'],
    ['move_range'], ['fixed_position'] and ['micro_movement'] change nothing
    in the motion that is built: two such settings that agree on scale,
    rotation and breathing give the same motion from the same generator
    state.  The path is the random one of at least 20 control points, and
    the path type recorded in the motion is the one an earlier avatar left
    in the local variable, or ['organic'], not the one in the settings. *)
Theorem path_settings_need_a_position (cs cs' : CharSettings)
        (lp : option string) (g : rng) :
  positioned cs = false -> positioned cs' = false -> same_look cs cs' ->
  build_motion width height cs lp g = build_motion width height cs' lp g /\
  exists m g',
    build_motion width height cs lp g = Py.Ok (m, lp, g') /\
    path_type m = get lp "organic"%string /\
    (20 <= List.length (control_points m))%nat.
Proof.
  intros P P' [A [B [C [D [E F]]]]]. split.
  - unfold build_motion. rewrite A, B, C, D, E, F.
    unfold positioned in P, P'.
    destruct (s_position_x cs), (s_position_y cs); try discriminate P;
      destruct (s_position_x cs'), (s_position_y cs'); try discriminate P';
        reflexivity.
  - assert (returns (fun r : MotionData * option string =>
                       snd r = lp /\
                       path_type (fst r) = get lp "organic"%string /\
                       (20 <= List.length (control_points (fst r)))%nat)
                    (build_motion width height cs lp)) as R.
    { unfold build_motion.
      eapply returns_bind; [apply returns_uniform |]. intros u1 _.
      eapply returns_bind; [apply returns_uniform |]. intros u2 _.
      eapply returns_bind; [apply returns_uniform |]. intros u3 _.
      eapply returns_bind with
          (P := fun r : list point * Q * option string =>
                  snd r = lp /\ (20 <= List.length (fst (fst r)))%nat).
      - unfold positioned in P.
        destruct (s_position_x cs), (s_position_y cs); try discriminate P;
          (eapply returns_bind; [apply random_path_returns |]);
          intros cps L; apply returns_ret; cbn [fst snd]; auto.
      - intros [[cps a] pt] [S L]. cbn [fst snd] in S, L. cbn beta iota.
        eapply returns_bind; [apply returns_uniform |]. intros u4 _.
        eapply returns_bind; [apply returns_uniform |]. intros u5 _.
        eapply returns_bind; [apply returns_uniform |]. intros u6 _.
        apply returns_ret. cbn [fst snd path_type control_points].
        subst pt. auto. }
    destruct (R g) as [[m lp'] [g' [E' [S [T L]]]]]. cbn [fst snd] in S, T, L.
    subst lp'. exists m, g'. auto.
Qed.
End Unpositioned.

Lemma path_settings_need_a_position_witness :
  @build_motion rational_math lcg 768 432
                (Main.stored_settings
                   {| Main.id := 1; Main.cutout_path := "a.png";
                      Main.edited_path := None; Main.scale := Some 1.0;
                      Main.rotation := Some 0.0;
                      Main.fixed_position := Some false;
                      Main.move_range := Some 0.4;
                      Main.breathe_amount := Some 0.03;
                      Main.breathe_speed := Some 1.0;
                      Main.tilt_factor := Some 0.15;
                      Main.path_type := Some "circle"%string;
                      Main.meta_position_x := Some 100;
                      Main.meta_position_y := None |})
                None 7%Z
  = @build_motion rational_math lcg 768 432
                  {| s_scale := None; s_scale_variation := None;
                     s_rotation := None; s_position_x := None;
                     s_position_y := None; s_fixed_position := None;
                     s_micro_movement := None; s_move_range := None;
                     s_path_type := None; s_path_speed := None;
                     s_breathe_amount := Some 0.03;
                     s_breathe_speed := Some 1.0;
                     s_rotation_speed := None; s_tilt_factor := None |}
                  None 7%Z /\
  exists m g',
    @build_motion rational_math lcg 768 432
                  (Main.stored_settings
                     {| Main.id := 1; Main.cutout_path := "a.png";
                        Main.edited_path := None; Main.scale := Some 1.0;
                        Main.rotation := Some 0.0;
                        Main.fixed_position := Some false;
                        Main.move_range := Some 0.4;
                        Main.breathe_amount := Some 0.03;
                        Main.breathe_speed := Some 1.0;
                        Main.tilt_factor := Some 0.15;
                        Main.path_type := Some "circle"%string;
                        Main.meta_position_x := Some 100;
                        Main.meta_position_y := None |})
                  None 7%Z = Py.Ok (m, None, g') /\
    path_type m = "organic"%string /\
    (20 <= List.length (control_points m))%nat.
Proof.
  apply (@path_settings_need_a_position rational_math lcg 768 432);
    [reflexivity | reflexivity |].
  repeat split; reflexivity.
Defined.

(** * The advanced endpoint (main.py 657-757)

    [generate_advanced_video] calls methods of the two objects
    [integrations_api] and [advanced_motion].  A class is modelled by the
    attributes its instances have: the methods of the class body and what
    [__init__] sets. *)

Module Advanced.

Local Open Scope string_scope.

(** [class IntegrationsAPI] (integrations_api.py 280-306). *)
Definition IntegrationsAPI : list string :=
  ["check_services"; "generate_portrait"; "generate_talking_avatar";
   "run_comfyui_workflow"; "generate_ai_image"].

(** [class AdvancedMotion] (advanced_motion.py 20-205). *)
Definition AdvancedMotion : list string :=
  ["available_services"; "generate_enhanced_portrait";
   "generate_talking_video"; "apply_advanced_animation";
   "_construct_animation_workflow"; "enhance_character_animation"].

(** What is raised inside the endpoint. *)
Inductive exn : Type :=
| AttributeError (class attribute : string)
| HTTPException (status_code : Z) (detail : string)
| Failure (message : string).

Inductive result (A : Type) : Type :=
| Returns (a : A)
| Raises (e : exn).
Arguments Returns {A} a.
Arguments Raises {A} e.

Definition bind {A B} (r : result A) (k : A -> result B) : result B :=
  match r with
  | Returns a => k a
  | Raises e => Raises e
  end.

Notation "x <-- c1 ;; c2" := (bind c1 (fun x => c2))
  (at level 61, c1 at next level, right associativity).

(** [str(e)] *)
Definition str (e : exn) : string :=
  match e with
  | AttributeError class attribute =>
    "'" ++ class ++ "' object has no attribute '" ++ attribute ++ "'"
  | HTTPException status_code detail => detail
  | Failure message => message
  end.

(** [obj.attribute(...)]: the attribute is looked up first; [call] is what
    the method does when there is one. *)
Definition call_method {A} (class : string) (attributes : list string)
           (attribute : string) (call : result A) : result A :=
  if existsb (String.eqb attribute) attributes then call
  else Raises (AttributeError class attribute).

(** [value is not None and value != 0.0 and value != 1.0] for a float
    column. *)
Definition float_setting (value : option Q) : option Q :=
  match value with
  | Some v => if (Qeq_bool v 0.0 || Qeq_bool v 1.0)%bool then None else Some v
  | None => None
  end.

(** The same test for the string column: [value != ""] is what is left of
    it. *)
Definition string_setting (value : option string) : option string :=
  match value with
  | Some v => if String.eqb v "" then None else Some v
  | None => None
  end.

(** The settings built from a row (main.py 690-704).  [fixed_position] is
    a boolean, and [False == 0.0] and [True == 1.0]: it is never taken. *)
Definition stored_settings (ch : Main.Character) : CharSettings :=
  let both := match Main.meta_position_x ch, Main.meta_position_y ch with
              | Some _, Some _ => true
              | _, _ => false
              end in
  {| s_scale := float_setting (Main.scale ch);
     s_scale_variation := None;
     s_rotation := float_setting (Main.rotation ch);
     s_position_x := if both then Main.meta_position_x ch else None;
     s_position_y := if both then Main.meta_position_y ch else None;
     s_fixed_position := None;
     s_micro_movement := None;
     s_move_range := float_setting (Main.move_range ch);
     s_path_type := string_setting (Main.path_type ch);
     s_path_speed := None;
     s_breathe_amount := float_setting (Main.breathe_amount ch);
     s_breathe_speed := float_setting (Main.breathe_speed ch);
     s_rotation_speed := None;
     s_tilt_factor := float_setting (Main.tilt_factor ch) |}.

Section Endpoint.
Context `{IL : ImageLib}.

(** The loop over the loaded characters (main.py 680-707). *)
Fixpoint load_avatars (srv : Main.Server) (req : Main.GenerateRequest)
         (i : nat) (chars : list Main.Character) (avatars : list Image)
         (char_settings : SettingsMap) : list Image * SettingsMap :=
  match chars with
  | [] => (avatars, char_settings)
  | ch :: rest =>
    let img_path :=
      match Main.edited_path ch with
      | Some e =>
        if (negb (String.eqb e "") && Main.path_exists srv e)%bool then e
        else Main.cutout_path ch
      | None => Main.cutout_path ch
      end in
    let im := thumbnail (Main.open_image srv img_path) (1024, 1024)%Z in
    let avatars := (avatars ++ [im])%list in
    let requested :=
      match Main.character_settings req with
      | Some m => Main.lookup_str m (str_of_Z (Main.id ch))
      | None => None
      end in
    let char_settings :=
      match requested with
      | Some s => ((i, s) :: char_settings)%list
      | None =>
        let settings := stored_settings ch in
        if Main.nonempty settings then ((i, settings) :: char_settings)%list
        else char_settings
      end in
    load_avatars srv req (Datatypes.S i) rest avatars char_settings
  end.

(** What the endpoint cannot see into: what the methods of the two
    objects return when they exist, and what the default background
    generator does. *)
Record Collaborators : Type := {
  is_stable_diffusion_available : result bool;
  generate_stable_diffusion_image : result Image;
  is_comfyui_available : result bool;
  generate_comfyui_image : result Image;
  default_background : result Image;
  advanced_composite_video : list Image -> SettingsMap -> Image -> result string
}.

(** The body of the [try] (main.py 708-754). *)
Definition attempt (co : Collaborators) (srv : Main.Server)
           (req : Main.GenerateRequest) (use_comfyui use_stable_diffusion : bool)
           (avatars : list Image) (char_settings : SettingsMap)
  : result string :=
  sd <-- (if use_stable_diffusion then
            call_method "IntegrationsAPI" IntegrationsAPI
                        "is_stable_diffusion_available"
                        (is_stable_diffusion_available co)
          else Returns false) ;;
  bg <-- (if sd then
            call_method "IntegrationsAPI" IntegrationsAPI
                        "generate_stable_diffusion_image"
                        (generate_stable_diffusion_image co)
          else
            comfy <-- (if use_comfyui then
                         call_method "IntegrationsAPI" IntegrationsAPI
                                     "is_comfyui_available"
                                     (is_comfyui_available co)
                       else Returns false) ;;
            if comfy then
              call_method "IntegrationsAPI" IntegrationsAPI
                          "generate_comfyui_image" (generate_comfyui_image co)
            else default_background co) ;;
  out_path <-- call_method "AdvancedMotion" AdvancedMotion "composite_video"
                           (advanced_composite_video co avatars char_settings bg) ;;
  let renders_dir :=
    path_join (path_join (Main.BASE_DIR srv) "storage") "renders" in
  Returns (path_join renders_dir (Main.basename out_path)).

(** [generate_advanced_video]; [integrations_api] is whether the global of
    that name is an object and not [None]. *)
Definition generate_advanced_video (co : Collaborators) (integrations_api : bool)
           (srv : Main.Server) (req : Main.GenerateRequest)
           (use_comfyui use_stable_diffusion : bool) : result string :=
  if negb integrations_api then
    Raises (HTTPException 503 "Integrations not available")
  else if negb ((10 <=? Main.duration_seconds req)%Z
                && (Main.duration_seconds req <=? 30)%Z) then
    Raises (HTTPException 400 "duration_seconds must be 10-30")
  else
    let chars :=
      filter (fun ch => existsb (Z.eqb (Main.id ch)) (Main.character_ids req))
             (Main.characters srv) in
    match chars with
    | [] => Raises (HTTPException 400 "No valid characters found")
    | _ =>
      let '(avatars, char_settings) := load_avatars srv req 0 chars [] [] in
      match attempt co srv req use_comfyui use_stable_diffusion avatars
                    char_settings with
      | Returns final_path => Returns final_path
      | Raises e =>
        Raises (HTTPException
                  500 ("Advanced video generation failed: " ++ str e))
      end
    end.
End Endpoint.

End Advanced.

Section AdvancedEndpoint.
Context `{IL : ImageLib}.

(** X24: [/integrations/generate-advanced-video] never answers with a
    video.  Whatever the request, the flags and the behaviour of the
    collaborators, it ends in an [HTTPException]: 503 without the
    integrations object, 400 for a duration outside 10-30 or without a
    matching character, and otherwise 500, because the methods it calls are
    not methods of the classes: [is_stable_diffusion_available] and
    [is_comfyui_available] of [IntegrationsAPI] when the flag asks for
    them, and else [composite_video] of [AdvancedMotion] after the default
    background was generated. *)
Theorem generate_advanced_video_never_succeeds
        (co : Advanced.Collaborators) (integrations_api : bool)
        (srv : Main.Server) (req : Main.GenerateRequest)
        (use_comfyui use_stable_diffusion : bool) :
  let d := Main.duration_seconds req in
  let reason :=
    if use_stable_diffusion then
      Advanced.AttributeError "IntegrationsAPI" "is_stable_diffusion_available"
    else if use_comfyui then
      Advanced.AttributeError "IntegrationsAPI" "is_comfyui_available"
    else match Advanced.default_background co with
         | Advanced.Raises e => e
         | Advanced.Returns _ =>
           Advanced.AttributeError "AdvancedMotion" "composite_video"
         end in
  Advanced.generate_advanced_video co integrations_api srv req use_comfyui
                                   use_stable_diffusion
  = Advanced.Raises
      (if negb integrations_api then
         Advanced.HTTPException 503 "Integrations not available"
       else if ((d <? 10) || (30 <? d))%Z then
         Advanced.HTTPException 400 "duration_seconds must be 10-30"
       else match requested_characters srv req with
            | [] => Advanced.HTTPException 400 "No valid characters found"
            | _ :: _ =>
              Advanced.HTTPException
                500 ("Advanced video generation failed: "
                       ++ Advanced.str reason)%string
            end).
Proof.
  intros d reason. unfold Advanced.generate_advanced_video.
  destruct integrations_api; [| reflexivity]. cbn [negb].
  fold d. fold (requested_characters srv req).
  destruct (Z.leb_spec 10 d); destruct (Z.leb_spec d 30);
    destruct (Z.ltb_spec d 10); destruct (Z.ltb_spec 30 d); try lia;
      cbn [andb negb orb]; try reflexivity.
  destruct (requested_characters srv req) as [| ch chars]; [reflexivity |].
  destruct (Advanced.load_avatars srv req 0 (ch :: chars) [] [])
    as [avatars char_settings].
  unfold Advanced.attempt, reason.
  destruct use_stable_diffusion; [reflexivity |].
  destruct use_comfyui; [reflexivity |].
  cbn [Advanced.bind].
  destruct (Advanced.default_background co) as [bg | e]; reflexivity.
Qed.
End AdvancedEndpoint.

(** ** The size of a sprite under the default settings (ai.py 137-141,
       367-370, 486-506, 536-542) *)

Lemma scaled_sine (k s : Q) : 0 <= k -> -1 <= s -> s <= 1 -> - k <= k * s /\ k * s <= k.
Proof. intros K L U. split; nra. Qed.

Lemma product_bounds (x y a1 a2 b1 b2 : Q) :
  0 <= a1 -> a1 <= x -> x <= a2 -> 0 <= b1 -> b1 <= y -> y <= b2 ->
  a1 * b1 <= x * y /\ x * y <= a2 * b2.
Proof. intros. split; nra. Qed.

(** The parameters of a motion that [build_motion] drew from its default
    ranges. *)
Definition default_motion (m : MotionData) : Prop :=
  (0.35 <= scale_base m /\ scale_base m < 0.6) /\
  (exists variation, (0.8 <= variation /\ variation < 1.25) /\
                     scale_target m = scale_base m * variation) /\
  (0.02 <= breathe_amount m /\ breathe_amount m < 0.05) /\
  pulse_amount m = breathe_amount m * 0.3.

Section SpriteSize.
Context `{ML : MathLib}.
Hypothesis sin_range : forall x, -1 <= m_sin x /\ m_sin x <= 1.
Hypothesis cos_range : forall x, -1 <= m_cos x /\ m_cos x <= 1.

Lemma scale_factors_bounds (m : MotionData) (t : Q) :
  default_motion m ->
  (0.26 <= fst (scale_factors m t) /\ fst (scale_factors m t) <= 0.81) /\
  (0.26 <= snd (scale_factors m t) /\ snd (scale_factors m t) <= 0.81).
Proof.
  intros [[B1 B2] [[v [[V1 V2] T]] [[A1 A2] P]]].
  unfold scale_factors. cbn [fst snd]. rewrite T, P.
  destruct (sin_range (2 * m_pi * t * breathe_speed m)) as [S1 S1'].
  destruct (sin_range (2 * m_pi * t * pulse_speed m + 0.7)) as [S2 S2'].
  destruct (sin_range (2 * m_pi * t * 3.7 + 1.3)) as [S3 S3'].
  destruct (cos_range (m_pi * t)) as [C C'].
  set (s1 := m_sin (2 * m_pi * t * breathe_speed m)) in *. clearbody s1.
  set (s2 := m_sin (2 * m_pi * t * pulse_speed m + 0.7)) in *. clearbody s2.
  set (s3 := m_sin (2 * m_pi * t * 3.7 + 1.3)) in *. clearbody s3.
  set (c := m_cos (m_pi * t)) in *. clearbody c.
  clear T P.
  set (ba := breathe_amount m) in *. clearbody ba.
  set (sb := scale_base m) in *. clearbody sb.
  set (scale_t := 0.5 - 0.5 * c).
  assert (0 <= scale_t /\ scale_t <= 1) as [T0 T1] by (unfold scale_t; lra).
  set (base := sb + (sb * v - sb) * scale_t).
  assert (0.28 <= base /\ base <= 0.75) as [L U].
  { unfold base.
    assert (sb + (sb * v - sb) * scale_t == sb * (1 + (v - 1) * scale_t)) as ->
        by ring.
    assert (0.8 <= 1 + (v - 1) * scale_t /\ 1 + (v - 1) * scale_t <= 1.25)
      as [F1 F2] by (split; nra).
    destruct (product_bounds sb (1 + (v - 1) * scale_t) 0.35 0.6 0.8 1.25);
      lra. }
  destruct (scaled_sine ba s1) as [E1 E1']; try lra.
  destruct (scaled_sine (ba * 0.3) s2) as [E2 E2']; try lra.
  destruct (scaled_sine (ba * 0.1) s3) as [E3 E3']; try lra.
  split.
  - destruct (product_bounds base (1.0 + ba * s1 + ba * 0.3 * s2
                                   + ba * 0.1 * s3) 0.28 0.75 0.93 1.07);
      lra.
  - destruct (product_bounds base (1.0 + ba * s1 * 0.8 + ba * 0.3 * s2
                                   + ba * 0.1 * s3 * 1.2) 0.28 0.75 0.93 1.07);
      lra.
Qed.

Lemma default_target_size (m : MotionData) (av : Image) (t : Q) :
  default_motion m ->
  (20 <= fst (size av))%Z -> (20 <= snd (size av))%Z ->
  too_small av m t = false /\
  (5 <= fst (target_size av m t))%Z /\
  (5 <= snd (target_size av m t))%Z /\
  inject_Z (fst (target_size av m t)) <= 0.81 * inject_Z (fst (size av)) /\
  inject_Z (snd (target_size av m t)) <= 0.81 * inject_Z (snd (size av)).
Proof.
  intros D W H.
  destruct (scale_factors_bounds m t D) as [[X1 X2] [Y1 Y2]].
  unfold too_small, target_size.
  destruct (size av) as [w h]. cbn [fst snd] in W, H.
  destruct (scale_factors m t) as [sx sy]. cbn [fst snd] in *.
  assert (20 <= inject_Z w) as WQ
      by (change 20 with (inject_Z 20); apply inject_Z_le_iff; exact W).
  assert (20 <= inject_Z h) as HQ
      by (change 20 with (inject_Z 20); apply inject_Z_le_iff; exact H).
  assert (5 <= inject_Z w * sx /\ inject_Z w * sx <= 0.81 * inject_Z w)
    as [PW1 PW2] by (split; nra).
  assert (5 <= inject_Z h * sy /\ inject_Z h * sy <= 0.81 * inject_Z h)
    as [PH1 PH2] by (split; nra).
  destruct (int_bounds_nonneg (inject_Z w * sx)) as [LW UW]; [lra |].
  destruct (int_bounds_nonneg (inject_Z h * sy)) as [LH UH]; [lra |].
  assert (5 <= Py.int (inject_Z w * sx))%Z as FW.
  { assert (4 < Py.int (inject_Z w * sx))%Z; [| lia].
    apply inject_Z_lt_iff. change (inject_Z 4) with 4. lra. }
  assert (5 <= Py.int (inject_Z h * sy))%Z as FH.
  { assert (4 < Py.int (inject_Z h * sy))%Z; [| lia].
    apply inject_Z_lt_iff. change (inject_Z 4) with 4. lra. }
  split.
  - apply orb_false_iff. split; apply Z.ltb_ge; assumption.
  - split; [exact FW |]. split; [exact FH |]. split; lra.
Qed.
End SpriteSize.

Section DefaultSprites.
Context `{ML : MathLib} `{RS : RandomSource}.
Variables width height : Z.

Lemma build_motion_default (cs : CharSettings) (lp : option string) :
  s_scale cs = None -> s_scale_variation cs = None ->
  s_breathe_amount cs = None ->
  returns (fun r : MotionData * option string => default_motion (fst r))
          (build_motion width height cs lp).
Proof.
  intros S V B. unfold build_motion.
  eapply returns_bind;
    [apply (returns_uniform_within (s_scale cs) 0.35 0.6); reflexivity |].
  intros u1 U1. rewrite S in U1 |- *. cbn [get setting_or_within] in U1 |- *.
  eapply returns_bind;
    [apply (returns_uniform_within (s_scale_variation cs) 0.8 1.25);
     reflexivity |].
  intros u2 U2. rewrite V in U2 |- *. cbn [get setting_or_within] in U2 |- *.
  eapply returns_bind; [apply returns_uniform |]. intros u3 _.
  eapply returns_bind; [apply path_part_returns |].
  intros [[cps a] pt] _. cbn beta iota.
  eapply returns_bind;
    [apply (returns_uniform_within (s_breathe_amount cs) 0.02 0.05);
     reflexivity |].
  intros u4 U4. rewrite B in U4 |- *. cbn [get setting_or_within] in U4 |- *.
  eapply returns_bind; [apply returns_uniform |]. intros u5 _.
  eapply returns_bind; [apply returns_uniform |]. intros u6 _.
  apply returns_ret. unfold default_motion.
  cbn [fst scale_base scale_target breathe_amount pulse_amount].
  split; [exact U1 |]. split; [exists u2; split; [exact U2 | reflexivity] |].
  split; [exact U4 | reflexivity].
Qed.

(** X25: with [sin] and [cos] between -1 and 1, an avatar whose settings
    set neither scale, scale variation nor breathe amount is drawn in every
    frame when it is at least 20 pixels a side: at every time its target
    size is at least 5 pixels in both dimensions, so the skip test never
    fires, and at most 81 percent of its own size. *)
Theorem default_sprite_is_drawn (cs : CharSettings) (lp : option string)
        (g : rng) :
  (forall x, -1 <= m_sin x /\ m_sin x <= 1) ->
  (forall x, -1 <= m_cos x /\ m_cos x <= 1) ->
  s_scale cs = None -> s_scale_variation cs = None ->
  s_breathe_amount cs = None ->
  exists m lp' g',
    build_motion width height cs lp g = Py.Ok (m, lp', g') /\
    forall (av : Image) (t : Q),
      (20 <= fst (size av))%Z -> (20 <= snd (size av))%Z ->
      too_small av m t = false /\
      (5 <= fst (target_size av m t))%Z /\
      (5 <= snd (target_size av m t))%Z /\
      inject_Z (fst (target_size av m t)) <= 0.81 * inject_Z (fst (size av)) /\
      inject_Z (snd (target_size av m t)) <= 0.81 * inject_Z (snd (size av)).
Proof.
  intros SR CR S V B.
  destruct (build_motion_default cs lp S V B g) as [[m lp'] [g' [E D]]].
  cbn [fst] in D. exists m, lp', g'. split; [exact E |].
  intros av t W H. now apply default_target_size.
Qed.
End DefaultSprites.

Lemma rational_sin_range (x : Q) :
  -1 <= @m_sin rational_math x /\ @m_sin rational_math x <= 1.
Proof.
  pose proof (rational_math_pythagoras x) as P.
  generalize dependent (@m_sin rational_math x).
  generalize dependent (@m_cos rational_math x).
  intros c s P. simpl in P. split; nra.
Qed.

Lemma rational_cos_range (x : Q) :
  -1 <= @m_cos rational_math x /\ @m_cos rational_math x <= 1.
Proof.
  pose proof (rational_math_pythagoras x) as P.
  generalize dependent (@m_sin rational_math x).
  generalize dependent (@m_cos rational_math x).
  intros c s P. simpl in P. split; nra.
Qed.

Lemma default_sprite_is_drawn_witness :
  exists m lp' g',
    @build_motion rational_math lcg 768 432 no_settings None 7%Z
    = Py.Ok (m, lp', g') /\
    forall (av : Image) (t : Q),
      (20 <= fst (size av))%Z -> (20 <= snd (size av))%Z ->
      @too_small rational_math av m t = false /\
      (5 <= fst (@target_size rational_math av m t))%Z /\
      (5 <= snd (@target_size rational_math av m t))%Z /\
      inject_Z (fst (@target_size rational_math av m t))
      <= 0.81 * inject_Z (fst (size av)) /\
      inject_Z (snd (@target_size rational_math av m t))
      <= 0.81 * inject_Z (snd (size av)).
Proof.
  apply (@default_sprite_is_drawn rational_math lcg 768 432 no_settings None
           7%Z rational_sin_range rational_cos_range); reflexivity.
Defined.

(** * Deleting a character (main.py 259-274) *)

Module Characters.

Local Open Scope string_scope.

(** The columns of a row that [delete_character] reads. *)
Record Row : Type := {
  id : Z;
  original_path : string;
  cutout_path : string;
  thumb_path : string;
  edited_path : option string
}.

(** The table, the paths that exist on disk, and the paths [os.remove]
    fails on (its exception is swallowed by the [except: pass]). *)
Record State : Type := {
  rows : list Row;
  on_disk : list string;
  undeletable : string -> bool
}.

(** [db.query(Character).get(char_id)] *)
Definition get_row (char_id : Z) (table : list Row) : option Row :=
  find (fun ch => Z.eqb (id ch) char_id) table.

(** [if p and os.path.exists(p): os.remove(p)], any exception passed
    over. *)
Definition remove_if_exists (st : State) (p : string) (disk : list string)
  : list string :=
  if (negb (String.eqb p "") && existsb (String.eqb p) disk)%bool then
    if undeletable st p then disk
    else filter (fun q => negb (String.eqb q p)) disk
  else disk.

(** [db.delete(ch)] *)
Definition delete_row (ch : Row) (table : list Row) : list Row :=
  filter (fun r => negb (Z.eqb (id r) (id ch))) table.

Definition delete_character (char_id : Z) (st : State)
  : Py.result bool * State :=
  match get_row char_id (rows st) with
  | None => (Py.Raise (Py.HTTPException 404 "Character not found"), st)
  | Some ch =>
    let disk :=
      fold_left (fun disk p => remove_if_exists st p disk)
                [original_path ch; cutout_path ch; thumb_path ch]
                (on_disk st) in
    (Py.Ok true,
     {| rows := delete_row ch (rows st);
        on_disk := disk;
        undeletable := undeletable st |})
  end.

End Characters.

Lemma remove_if_exists_spec (st : Characters.State) (p q : string)
      (disk : list string) :
  In q (Characters.remove_if_exists st p disk) <->
  In q disk /\ (q = p -> p = ""%string \/ Characters.undeletable st p = true).
Proof.
  unfold Characters.remove_if_exists.
  destruct (String.eqb_spec p "") as [-> | NE]; cbn [negb andb].
  - split; [intros H; split; [exact H | auto] | tauto].
  - destruct (existsb (String.eqb p) disk) eqn:X.
    + destruct (Characters.undeletable st p) eqn:U.
      * split; [intros H; split; [exact H | auto] | tauto].
      * rewrite filter_In. split.
        -- intros [I N]. split; [exact I |]. intros ->.
           rewrite String.eqb_refl in N. discriminate N.
        -- intros [I N]. split; [exact I |].
           destruct (String.eqb_spec q p) as [E | _]; [| reflexivity].
           destruct (N E) as [K | K]; [contradiction | discriminate K].
    + split; [| tauto]. intros H. split; [exact H |]. intros ->.
      exfalso. assert (existsb (String.eqb p) disk = true) as Y.
      { apply existsb_exists. exists p. split; [exact H |].
        apply String.eqb_refl. }
      congruence.
Qed.

(** X26: deleting a character.  An id that is not in the table gives 404
    and changes nothing.  For an id in the table the answer is ok, the
    rows with that id are gone and the others are left as they were, and
    on disk exactly the original, the cutout and the thumbnail of the row
    are removed (unless [os.remove] fails on them): every other file is
    still there, the edited image of the character among them, and nothing
    is created.  Deleting the same id again gives 404. *)
Theorem delete_character_removes_three_files (char_id : Z)
        (st : Characters.State) :
  match Characters.get_row char_id (Characters.rows st) with
  | None =>
    Characters.delete_character char_id st
    = (Py.Raise (Py.HTTPException 404 "Character not found"), st)
  | Some ch =>
    let st' := snd (Characters.delete_character char_id st) in
    fst (Characters.delete_character char_id st) = Py.Ok true /\
    Characters.rows st'
    = filter (fun r => negb (Z.eqb (Characters.id r) char_id))
             (Characters.rows st) /\
    (forall q,
        In q (Characters.on_disk st') <->
        In q (Characters.on_disk st) /\
        (In q [Characters.original_path ch; Characters.cutout_path ch;
               Characters.thumb_path ch] ->
         q = ""%string \/ Characters.undeletable st q = true)) /\
    Characters.delete_character char_id st'
    = (Py.Raise (Py.HTTPException 404 "Character not found"), st')
  end.
Proof.
  destruct (Characters.get_row char_id (Characters.rows st)) as [ch |] eqn:G.
  - assert (Characters.id ch = char_id) as I.
    { unfold Characters.get_row in G. apply find_some in G.
      destruct G as [_ G]. now apply Z.eqb_eq in G. }
    unfold Characters.delete_character. rewrite G. cbv zeta. cbn [fst snd].
    split; [reflexivity |]. cbn [Characters.rows Characters.on_disk].
    split; [unfold Characters.delete_row; now rewrite I |]. split.
    + intros q. cbn [fold_left]. rewrite !remove_if_exists_spec. cbn [In].
      split.
      * intros [[[D A] B] C]. split; [exact D |].
        intros [E | [E | [E | []]]]; subst q; auto.
      * intros [D A]. repeat split; try exact D; intros ->; apply A; auto.
    + unfold Characters.get_row, Characters.delete_row. rewrite I.
      destruct (find (fun ch0 => (Characters.id ch0 =? char_id)%Z)
                     (filter (fun r => negb (Characters.id r =? char_id)%Z)
                             (Characters.rows st))) as [r |] eqn:F;
        [| reflexivity].
      apply find_some in F. destruct F as [F1 F2].
      apply filter_In in F1. destruct F1 as [_ F1].
      rewrite F2 in F1. discriminate F1.
  - unfold Characters.delete_character. now rewrite G.
Qed.

(** ** Every avatar in every frame *)

Lemma filter_all {A} (f : A -> bool) (l : list A) :
  (forall x, In x l -> f x = true) -> filter f l = l.
Proof.
  induction l as [| a l IH]; intros H; [reflexivity |].
  cbn [filter]. rewrite (H a) by now left.
  f_equal. apply IH. intros x Hx. apply H. now right.
Qed.

Lemma Forall2_nth_error {A B} (R : A -> B -> Prop) (l1 : list A) (l2 : list B) :
  Forall2 R l1 l2 ->
  forall i a b, nth_error l1 i = Some a -> nth_error l2 i = Some b -> R a b.
Proof.
  induction 1 as [| x y l1 l2 H F IH]; intros [| i] a b E1 E2;
    try discriminate E1.
  - injection E1 as <-. injection E2 as <-. exact H.
  - exact (IH i a b E1 E2).
Qed.

Lemma Forall2_of_Forall {A B} (P : A -> Prop) (Q : B -> Prop) (l1 : list A) :
  forall l2 : list B,
    List.length l1 = List.length l2 -> Forall P l1 -> Forall Q l2 ->
    Forall2 (fun a b => P a /\ Q b) l1 l2.
Proof.
  induction l1 as [| a l1 IH]; intros [| b l2] L F1 F2; try discriminate L;
    [constructor |].
  inversion F1; inversion F2; subst. constructor; [auto |].
  apply IH; auto.
Qed.

(** A frame in which every avatar has a layer, once. *)
Definition shows_all (n : nat) (frame : Frame) : Prop :=
  Permutation (map sprite (layers frame)) (seq 0 n).

Section AllDrawn.
Context `{ML : MathLib} `{IL : ImageLib}.
Variable avatars : list Image.
Variable motions : list MotionData.
Variable character_settings : SettingsMap.
Hypothesis one_motion_each : List.length motions = List.length avatars.
Hypothesis large_enough :
  Forall2 (fun av m => forall t, too_small av m t = false) avatars motions.

Lemma frame_shows_all (bg : Image) (n_frames f : Z) (frame : Frame) :
  render_frame avatars motions character_settings bg n_frames f = Py.Ok frame ->
  shows_all (List.length avatars) frame.
Proof.
  unfold render_frame.
  destruct (sorted_avatars_ok avatars motions one_motion_each
                              (frame_time n_frames f)) as [order [O P]].
  rewrite O. cbn [Py.bind].
  assert (forall e, In e order ->
                    nth_error avatars (fst e) = Some (snd e)) as Valid.
  { intros [i av] Hi. apply (Permutation_in _ P) in Hi.
    now apply enumerate_spec in Hi. }
  destruct (render_sprites_list avatars motions character_settings
                                one_motion_each (frame_time n_frames f) order)
    with (acc := @nil Layer) as [c [C M]].
  { apply Forall_forall. intros e Hi. apply Valid in Hi.
    rewrite one_motion_each. apply nth_error_Some. congruence. }
  rewrite C. cbn [Py.bind app]. intros E. injection E as <-.
  unfold shows_all. cbn [layers]. rewrite M.
  rewrite filter_all.
  - rewrite (Permutation_map fst P). unfold enumerate.
    rewrite names_of_combine by apply length_seq. reflexivity.
  - intros [i av] Hi. pose proof (Valid _ Hi) as N. cbn [fst snd] in N.
    unfold drawn. cbn [fst snd].
    destruct (nth_error motions i) as [m |] eqn:Nm.
    + rewrite (Forall2_nth_error _ _ _ large_enough i av m N Nm). reflexivity.
    + apply nth_error_None in Nm.
      assert (i < List.length avatars)%nat
        by (apply nth_error_Some; congruence). lia.
Qed.
End AllDrawn.

Section FramesOfARun.
Context `{ML : MathLib} `{RS : RandomSource} `{IL : ImageLib} `{EN : Enhancer}.

(** The frames a run saves all have a property that every rendered frame
    has. *)
Lemma render_frames_each (P : Frame -> Prop) (avatars : list Image)
      (motions : list MotionData) (cs : SettingsMap) (bg : Image)
      (frames_dir : string) (n_frames : Z) :
  List.length motions = List.length avatars ->
  (forall f frame,
      render_frame avatars motions cs bg n_frames f = Py.Ok frame -> P frame) ->
  forall (fs : list nat) (w : World),
  exists frames w',
    render_frames avatars motions cs bg frames_dir n_frames fs w
    = (Py.Ok tt, w') /\
    List.length frames = List.length fs /\
    Forall P frames /\
    files w' = (files w ++ combine (map (frame_path frames_dir) fs)
                                   (map Png frames))%list /\
    encoder_succeeds w' = encoder_succeeds w /\ tempdir w' = tempdir w.
Proof.
  intros L H fs. induction fs as [| f rest IH]; intros w.
  - exists [], w. simpl. rewrite app_nil_r. auto 10.
  - cbn [render_frames].
    destruct (render_frame_ok avatars motions cs L bg n_frames (Z.of_nat f))
      as [frame [E _]].
    rewrite E.
    destruct (IH (write_file (frame_path frames_dir f) (Png frame) w))
      as [frames [w' [R [Len [F [Fi [S T]]]]]]].
    exists (frame :: frames), w'. split; [exact R |].
    split; [simpl; lia |]. split; [constructor; [eapply H; exact E | exact F] |].
    split; [| split; [exact S | exact T]].
    rewrite Fi. simpl. rewrite <- app_assoc. reflexivity.
Qed.

Lemma composite_video_frames (P : Frame -> Prop) (bg : Image)
      (avatars : list Image) (duration_s fps : Z) (size : Z * Z)
      (seed : option Z) (character_settings : option SettingsMap)
      (prompt : option string) (w : World) (motions : list MotionData)
      (g : rng) :
  build_stage avatars size seed character_settings prompt w
  = Py.Ok (motions, g) ->
  (forall f frame,
      render_frame avatars motions (get character_settings []) (resize bg size)
                   (duration_s * fps) f = Py.Ok frame -> P frame) ->
  exists (frames : list Frame) (video : list (string * FileContent)),
    List.length frames = Z.to_nat (duration_s * fps) /\
    Forall P frames /\
    files (snd (composite_video bg avatars duration_s fps size seed
                                character_settings prompt w))
    = (files w
       ++ combine (map (frame_path
                          (path_join (tempdir w)
                                     ("frames_" ++ mkdtemp_suffix w)%string))
                       (seq 0 (Z.to_nat (duration_s * fps))))
                  (map Png frames)
       ++ video)%list /\
    Forall (fun e => exists call, snd e = Mp4 call) video.
Proof.
  intros B H. unfold composite_video.
  destruct (build_stage_returns avatars size seed character_settings prompt w)
    as [motions' [g' [B' [L _]]]].
  rewrite B in B'. injection B' as <- <-.
  rewrite B. unfold mkdtemp.
  match goal with
  | |- context [render_frames ?a ?m ?c ?b ?d ?nf ?fs ?w0] =>
    destruct (render_frames_each P a m c b d nf L H fs w0)
      as [frames [w1 [R [Len [F [Fi [S T]]]]]]]
  end.
  rewrite R. rewrite length_seq in Len.
  destruct (randbelow 1000000 g) as [k g''].
  cbn [files encoder_succeeds tempdir] in Fi, S, T.
  unfold run_encoder. rewrite S.
  destruct (encoder_succeeds w).
  - exists frames. eexists [_]. split; [exact Len |]. split; [exact F |].
    cbn [snd files write_file]. rewrite Fi, <- app_assoc.
    split; [reflexivity |]. constructor; [| constructor]. cbn [snd]. eauto.
  - exists frames, []. split; [exact Len |]. split; [exact F |].
    cbn [snd files]. rewrite Fi, app_nil_r. split; [reflexivity | constructor].
Qed.
End FramesOfARun.

Section DefaultRun.
Context `{ML : MathLib} `{RS : RandomSource} `{IL : ImageLib} `{EN : Enhancer}.

Lemma build_motions_from_default (width height : Z) (text_prompt : string)
      (seed : option Z) (avatars : list Image) :
  SMPL_AVAILABLE = false ->
  forall (i : nat) (lp : option string) (motions : list MotionData),
    Forall default_motion motions ->
    returns (Forall default_motion)
            (build_motions_from width height [] text_prompt seed
                                i avatars lp motions).
Proof.
  intros U. induction avatars as [| av rest IH]; intros i lp motions F.
  - simpl. apply returns_ret. exact F.
  - cbn [build_motions_from]. rewrite settings_of_unenhanced by exact U.
    cbn [lookup get].
    eapply returns_bind;
      [apply (build_motion_default width height no_settings lp);
       reflexivity |].
    intros [m lp'] M. cbn [fst] in M. cbn beta iota.
    apply IH. apply Forall_app. split; [exact F |].
    constructor; [exact M | constructor].
Qed.

(** X27: a run without character settings and without the enrichment
    module never drops an avatar that is at least 20 pixels a side: with
    [sin] and [cos] between -1 and 1, every frame the run saves has exactly
    one layer for each avatar. *)
Theorem default_avatars_are_in_every_frame (bg : Image) (avatars : list Image)
        (duration_s fps : Z) (canvas : Z * Z) (seed : option Z)
        (prompt : option string) (w : World) :
  (forall x, -1 <= m_sin x /\ m_sin x <= 1) ->
  (forall x, -1 <= m_cos x /\ m_cos x <= 1) ->
  SMPL_AVAILABLE = false ->
  Forall (fun av => (20 <= fst (size av))%Z /\ (20 <= snd (size av))%Z)
         avatars ->
  exists (frames : list Frame) (video : list (string * FileContent)),
    List.length frames = Z.to_nat (duration_s * fps) /\
    Forall (shows_all (List.length avatars)) frames /\
    files (snd (composite_video bg avatars duration_s fps canvas seed None
                                prompt w))
    = (files w
       ++ combine (map (frame_path
                          (path_join (tempdir w)
                                     ("frames_" ++ mkdtemp_suffix w)%string))
                       (seq 0 (Z.to_nat (duration_s * fps))))
                  (map Png frames)
       ++ video)%list /\
    Forall (fun e => exists call, snd e = Mp4 call) video.
Proof.
  intros SR CR U Large.
  destruct (build_stage_returns avatars canvas seed None prompt w)
    as [motions [g [B [L _]]]].
  assert (Forall default_motion motions) as D.
  { revert B. unfold build_stage, build_motions. destruct canvas as [wd ht].
    cbn [get]. intros B.
    destruct (build_motions_from_default wd ht (get prompt ""%string) seed
                avatars U 0 None [] (Forall_nil _)
                (match seed with
                 | Some s => seeded s
                 | None => os_entropy w
                 end)) as [ms [g' [E F]]].
    rewrite E in B. injection B as <- _. exact F. }
  apply (composite_video_frames (shows_all (List.length avatars)) bg avatars
           duration_s fps canvas seed None prompt w motions g B).
  intros f frame R.
  apply (frame_shows_all avatars motions (get None []) L) in R; [exact R |].
  eapply Forall2_impl;
    [| apply (Forall2_of_Forall _ default_motion avatars motions
                (eq_sym L) Large D)].
  intros av m [[W H] Dm] t. cbv beta in *.
  now apply default_target_size.
Qed.
End DefaultRun.

Lemma default_avatars_are_in_every_frame_witness :
  exists (frames : list Frame) (video : list (string * FileContent)),
    List.length frames = Z.to_nat (10 * 12) /\
    Forall (shows_all 2) frames /\
    files (snd (@composite_video rational_math lcg sized_images no_smpl
                  sample_background [sample_avatar; other_avatar] 10 12
                  (768, 432)%Z (Some 42%Z) None None (sample_world true)))
    = (files (sample_world true)
       ++ combine (map (frame_path "/tmp/frames_k3x9")
                       (seq 0 (Z.to_nat (10 * 12))))
                  (map Png frames)
       ++ video)%list /\
    Forall (fun e => exists call, snd e = Mp4 call) video.
Proof.
  apply (@default_avatars_are_in_every_frame rational_math lcg sized_images
           no_smpl sample_background [sample_avatar; other_avatar] 10 12
           (768, 432)%Z (Some 42%Z) None (sample_world true)
           rational_sin_range rational_cos_range eq_refl).
  repeat constructor; discriminate.
Defined.

(** ** What a [/generate] request leaves in the temporary directory *)

Fixpoint last_char (s : string) : option ascii :=
  match s with
  | EmptyString => None
  | String c EmptyString => Some c
  | String _ s' => last_char s'
  end.

Lemma last_char_app (a : string) (c : ascii) :
  last_char (a ++ String c EmptyString)%string = Some c.
Proof.
  induction a as [| x a IH]; [reflexivity |].
  cbn [String.append last_char]. rewrite IH.
  destruct (a ++ String c EmptyString)%string eqn:E; [| reflexivity].
  destruct a; discriminate E.
Qed.

Lemma frame_path_last (frames_dir : string) (f : nat) :
  last_char (frame_path frames_dir f) = Some "g"%char.
Proof.
  unfold frame_path, path_join.
  replace (frames_dir ++ "/" ++ "f_" ++ format_05d f ++ ".png")%string
    with ((frames_dir ++ "/" ++ "f_" ++ format_05d f ++ ".pn")
            ++ String "g" EmptyString)%string.
  - apply last_char_app.
  - rewrite !string_app_assoc. reflexivity.
Qed.

Lemma video_path_last (dir : string) (k : Z) :
  last_char (path_join dir ("scene_" ++ str_of_Z k ++ ".mp4")%string)
  = Some "4"%char.
Proof.
  unfold path_join.
  replace (dir ++ "/" ++ "scene_" ++ str_of_Z k ++ ".mp4")%string
    with ((dir ++ "/" ++ "scene_" ++ str_of_Z k ++ ".mp")
            ++ String "4" EmptyString)%string.
  - apply last_char_app.
  - rewrite !string_app_assoc. reflexivity.
Qed.

Lemma nth_error_combine {A B} (l1 : list A) :
  forall (l2 : list B) (i : nat) (a : A) (b : B),
    nth_error l1 i = Some a -> nth_error l2 i = Some b ->
    nth_error (combine l1 l2) i = Some (a, b).
Proof.
  induction l1 as [| x l1 IH]; intros [| y l2] [| i] a b N1 N2;
    try discriminate N1; try discriminate N2.
  - cbn in *. congruence.
  - cbn [combine nth_error] in *. now apply IH.
Qed.

Section FramesLeftBehind.
Context `{ML : MathLib} `{RS : RandomSource} `{IL : ImageLib} `{EN : Enhancer}.

(** X28: every [/generate] request that gets past its two checks leaves
    its frames behind: when the request is over, with the path of the video
    or with the encoder's error, the frame directory made in the temporary
    directory is still there and so is each of the
    [duration_seconds * fps] frame files in it; the move of the video into
    [storage/renders] touches none of them. *)
Theorem generate_video_leaves_frames (srv : Main.Server)
        (req : Main.GenerateRequest) (w : World) :
  (10 <= Main.duration_seconds req <= 25)%Z ->
  requested_characters srv req <> [] ->
  let frames_dir :=
    path_join (tempdir w) ("frames_" ++ mkdtemp_suffix w)%string in
  let w' := snd (Main.generate_video srv req w) in
  In frames_dir (directories w') /\
  forall f : nat,
    (Z.of_nat f < Main.duration_seconds req * Main.fps req)%Z ->
    exists frame, In (frame_path frames_dir f, Png frame) (files w').
Proof.
  intros D NE frames_dir w'. unfold w', Main.generate_video.
  fold (requested_characters srv req).
  destruct (Z.leb_spec 10 (Main.duration_seconds req));
    destruct (Z.leb_spec (Main.duration_seconds req) 25); try lia.
  cbn [andb negb].
  destruct (requested_characters srv req) as [| ch chars]; [easy |].
  destruct (Main.load_avatars srv req 0 (ch :: chars) [] [])
    as [avatars char_settings].
  match goal with
  | |- context [composite_video ?b ?a ?d ?f ?s ?sd ?c ?pr ?w0] =>
    destruct (build_stage_returns a s sd c pr w0) as [motions [g [B _]]];
      destruct (composite_video_from_stage b a d f s sd c pr w0 motions g B)
      as [frames [w1 [E [Len [Dir [F _]]]]]]
  end.
  rewrite E. fold frames_dir in Dir, F.
  assert (forall f : nat,
             (Z.of_nat f < Main.duration_seconds req * Main.fps req)%Z ->
             exists frame, In (frame_path frames_dir f, Png frame) (files w1))
    as Saved.
  { intros f Hf.
    assert (f < List.length frames)%nat as Lf by lia.
    destruct (nth_error frames f) as [frame |] eqn:N;
      [| apply nth_error_None in N; lia].
    exists frame. rewrite F. apply in_or_app. right. apply in_or_app. left.
    apply (nth_error_In _ f).
    assert (nth_error (map (frame_path frames_dir)
                           (seq 0 (Z.to_nat (Main.duration_seconds req
                                             * Main.fps req)))) f
            = Some (frame_path frames_dir f)) as N1.
    { rewrite nth_error_map, nth_error_seq.
      destruct (Nat.ltb_spec f (Z.to_nat (Main.duration_seconds req
                                          * Main.fps req))); [| lia].
      reflexivity. }
    assert (nth_error (map Png frames) f = Some (Png frame)) as N2
        by (rewrite nth_error_map, N; reflexivity).
    now apply nth_error_combine. }
  destruct (encoder_succeeds w); cbn [snd].
  - split.
    + unfold Main.replace_file. cbn [directories]. apply makedirs_keeps.
      rewrite Dir. apply in_or_app. right. now left.
    + intros f Hf. destruct (Saved f Hf) as [frame I]. exists frame.
      unfold Main.replace_file. cbn [files]. apply in_or_app. left.
      apply filter_In. split.
      * unfold Main.makedirs.
        destruct (existsb _ (directories w1)); exact I.
      * cbn [fst]. apply negb_true_iff. apply orb_false_iff.
        split; apply String.eqb_neq; intros Q;
          apply (f_equal last_char) in Q;
          rewrite frame_path_last in Q; unfold scene_path in Q;
            rewrite ?basename_join in Q by apply scene_name_plain;
            rewrite video_path_last in Q; discriminate Q.
  - split; [| exact Saved]. rewrite Dir. apply in_or_app. right. now left.
Qed.
End FramesLeftBehind.

Definition sample_character : Main.Character := {|
  Main.id := 1;
  Main.cutout_path := "/app/storage/characters/ann_cutout.png";
  Main.edited_path := None;
  Main.scale := Some 1.0;
  Main.rotation := Some 0.0;
  Main.fixed_position := Some false;
  Main.move_range := Some 0.4;
  Main.breathe_amount := Some 0.03;
  Main.breathe_speed := Some 1.0;
  Main.tilt_factor := Some 0.15;
  Main.path_type := Some "organic"%string;
  Main.meta_position_x := None;
  Main.meta_position_y := None
|}.

Definition sample_server : Main.Server := {|
  Main.characters := [sample_character];
  Main.path_exists := fun _ => true;
  Main.open_image := fun _ => sample_avatar;
  Main.generate_background := fun _ w h _ => {| size := (w, h); pixels := [] |};
  Main.BASE_DIR := "/app"
|}.

Definition sample_request : Main.GenerateRequest := {|
  Main.prompt := "a beach at dusk";
  Main.character_ids := [1%Z];
  Main.duration_seconds := 10;
  Main.width := 768;
  Main.height := 432;
  Main.fps := 12;
  Main.seed := Some 42%Z;
  Main.character_settings := None
|}.

Lemma generate_video_leaves_frames_witness :
  In "/tmp/frames_k3x9"%string
     (directories
        (snd (@Main.generate_video rational_math lcg sized_images no_smpl
                sample_server sample_request (sample_world true)))) /\
  forall f : nat,
    (Z.of_nat f < 10 * 12)%Z ->
    exists frame,
      In (frame_path "/tmp/frames_k3x9" f, Png frame)
         (files
            (snd (@Main.generate_video rational_math lcg sized_images no_smpl
                    sample_server sample_request (sample_world true)))).
Proof.
  apply (@generate_video_leaves_frames rational_math lcg sized_images no_smpl
           sample_server sample_request (sample_world true)).
  - cbn. lia.
  - discriminate.
Defined.

(** * The address filter in front of the endpoints ([middleware.py] 62-125) *)

Module Middleware.

Local Open Scope string_scope.











End Middleware.


